(** * CNIC card processing: extraction and reconciliation pipeline

    A shallow embedding of [detector/services/ocr_service.py] and
    [detector/views.py], with the properties of the extraction and
    reconciliation core stated and proved over it; the loaders of
    [detector/services/model_loader.py] and the upload reader of
    [detector/services/image_utils.py] are embedded in modules of their
    own.

    Conventions.
    - A Python [str] is a sequence of code points; it is held as the
      Rocq [string] of its UTF-8 encoding.  [len] and slices count code
      points ([codepoints]); the regular-expression class [\d] and [int]
      read the decimal digits of the Unicode database ([decimal_digit]).
      Comparison, [in] and [replace] with an ASCII character act on the
      encoding as they act on the code points.
    - Python [dict]s keep insertion order: they are association lists
      updated in place ([dict_set]); their abstraction to a finite map is
      [dict_to_map].
    - Anchor coordinates are pixel coordinates, far below [2^31]; they are
      integers in [Z].
    - External capabilities (detector, reader, barcode decoder, image
      codec, file system) are parameters of the pipeline.  Each call is
      recorded in a trace, and the answer of a capability may depend on
      the trace so far. *)

From Stdlib Require Import ZArith Ascii String Bool List Lia.
From stdpp Require Import base option list gmap strings fin_maps.
Import ListNotations.

Local Open Scope string_scope.
Local Open Scope list_scope.
Local Open Scope Z_scope.

(** ** Python values and strings *)

Inductive pyval : Type :=
  | PStr (s : string)
  | PInt (n : Z)
  | PNone.

Definition isinstance_str (v : pyval) : bool :=
  match v with PStr _ => true | _ => false end.

#[global] Instance pyval_eq_dec : EqDecision pyval.
Proof. solve_decision. Defined.

(** [s.replace(c, "")] for a one-character [c]. *)
Fixpoint str_remove (c : ascii) (s : string) : string :=
  match s with
  | EmptyString => EmptyString
  | String a r => if Ascii.eqb a c then str_remove c r else String a (str_remove c r)
  end.

(** [c in s] for a one-character [c]. *)
Fixpoint str_contains (c : ascii) (s : string) : bool :=
  match s with
  | EmptyString => false
  | String a r => Ascii.eqb a c || str_contains c r
  end.

(** *** Code points

    In UTF-8 a code point is one byte that is not a continuation byte
    ([10xxxxxx]), followed by its continuation bytes. *)

Definition is_cont (c : ascii) : bool :=
  ((128 <=? N_of_ascii c) && (N_of_ascii c <? 192))%N.

(** The continuation bytes at the head of a string, and its code points
    after them.  The encoding of a [str] starts with no continuation
    byte. *)
Fixpoint cp_build (s : string) : string * list string :=
  match s with
  | EmptyString => (EmptyString, [])
  | String a r =>
      let (conts, cps) := cp_build r in
      if is_cont a then (String a conts, cps) else (EmptyString, String a conts :: cps)
  end.

(** The code points of a string, each as the bytes that encode it. *)
Definition codepoints (s : string) : list string := snd (cp_build s).

(** [len(s)] *)
Definition str_len (s : string) : Z := Z.of_nat (length (codepoints s)).

Fixpoint str_join (l : list string) : string :=
  match l with
  | [] => EmptyString
  | x :: r => x +:+ str_join r
  end.

Fixpoint cp_conts (acc : N) (s : string) : N :=
  match s with
  | EmptyString => acc
  | String c r => cp_conts (acc * 64 + N_of_ascii c mod 64)%N r
  end.

(** The number of a code point, from the bytes that encode it. *)
Definition cp_value (cp : string) : N :=
  match cp with
  | EmptyString => 0%N
  | String a conts =>
      let b := N_of_ascii a in
      cp_conts (if b <? 128 then b
                else if b <? 224 then b mod 32
                else if b <? 240 then b mod 16
                else b mod 8)%N conts
  end.

(** The decimal digits of the Unicode database (general category [Nd],
    version 14.0, the one of CPython 3.11): they come in blocks of ten
    consecutive code points with the values 0 to 9; [Nd_zeros] lists the
    zero of each block. *)
Definition Nd_zeros : list N :=
  [48; 1632; 1776; 1984; 2406; 2534; 2662; 2790; 2918; 3046; 3174; 3302;
   3430; 3558; 3664; 3792; 3872; 4160; 4240; 6112; 6160; 6470; 6608; 6784;
   6800; 6992; 7088; 7232; 7248; 42528; 43216; 43264; 43472; 43504; 43600;
   44016; 65296; 66720; 68912; 69734; 69872; 69942; 70096; 70384; 70736;
   70864; 71248; 71360; 71472; 71904; 72016; 72784; 73040; 73120; 92768;
   92864; 93008; 120782; 120792; 120802; 120812; 120822; 123200; 123632;
   125264; 130032]%N.

Fixpoint Nd_lookup (zeros : list N) (n : N) : option Z :=
  match zeros with
  | [] => None
  | z :: r => if ((z <=? n) && (n <? z + 10))%N then Some (Z.of_N (n - z)) else Nd_lookup r n
  end.

(** [unicodedata.decimal]: the value of a code point that is a decimal
    digit. *)
Definition decimal_value (n : N) : option Z := Nd_lookup Nd_zeros n.

Fixpoint all_cont (s : string) : bool :=
  match s with
  | EmptyString => true
  | String c r => is_cont c && all_cont r
  end.

(** A first byte and its continuation bytes. *)
Definition is_group (g : string) : bool :=
  match g with
  | EmptyString => false
  | String a conts => negb (is_cont a) && all_cont conts
  end.

(** The number of continuation bytes that a first byte announces, and
    the least code point that is encoded with as many. *)
Definition cp_width (a : ascii) : nat :=
  let b := N_of_ascii a in
  if (b <? 128)%N then 0%nat
  else if (b <? 224)%N then 1%nat
  else if (b <? 240)%N then 2%nat
  else 3%nat.

Definition cp_least (a : ascii) : N :=
  match cp_width a with
  | O => 0%N
  | S O => 128%N
  | S (S O) => 2048%N
  | _ => 65536%N
  end.

(** One well-encoded code point: a first byte, as many continuation
    bytes as it announces, and no shorter encoding. *)
Definition is_codepoint (cp : string) : bool :=
  match cp with
  | EmptyString => false
  | String a conts =>
      negb (is_cont a) && all_cont conts &&
      (String.length conts =? cp_width a)%nat &&
      (cp_least a <=? cp_value cp)%N
  end.

(** The digit value of one code point, [None] when it is no decimal
    digit. *)
Definition decimal_digit (cp : string) : option Z :=
  if is_codepoint cp then decimal_value (cp_value cp) else None.

Fixpoint take_conts (s : string) : string :=
  match s with
  | String c r => if is_cont c then String c (take_conts r) else EmptyString
  | EmptyString => EmptyString
  end.

Fixpoint drop_conts (s : string) : string :=
  match s with
  | String c r => if is_cont c then drop_conts r else s
  | EmptyString => s
  end.

(** The first code point of a string and the text after it. *)
Definition cp_next (s : string) : option (string * string) :=
  match s with
  | EmptyString => None
  | String a r => Some (String a (take_conts r), drop_conts r)
  end.

(** ** Identifier reconciliation: [validate_cnic] *)

Definition validate_cnic (front_cnic back_cnic : option string) : bool :=
  match front_cnic, back_cnic with
  | None, _ => false
  | _, None => false
  | Some f, Some b => String.eqb f b
  end.

(** ** Regular expressions of [_strptime]

    [datetime.strptime] compiles the format to a regular expression and
    runs [re.match] on the token.  The fragment of Python's [re] that the
    format ["%d.%m.%Y"] needs: literals, ranges, [\d], sequence, ordered
    alternation and named groups.  The matcher backtracks in the order of
    the alternatives and returns the first match, as [re.match] does. *)

Inductive regex : Type :=
  | RChar (c : ascii)
  | RRange (lo hi : ascii)
  | RDigit
  | RSeq (r1 r2 : regex)
  | RAlt (r1 r2 : regex)
  | RGroup (name : string) (r : regex).

Definition groups : Type := list (string * string).

Definition in_range (lo hi c : ascii) : bool :=
  ((N_of_ascii lo <=? N_of_ascii c) && (N_of_ascii c <=? N_of_ascii hi))%N.

(** An ASCII digit. *)
Definition is_digit (c : ascii) : bool := in_range "0" "9" c.

(** The class [\d] of a [str] pattern: one code point that is a decimal
    digit of the Unicode database. *)
Definition re_digit {A : Type} (s : string) (g : groups)
    (k : string -> string -> groups -> option A) : option A :=
  match cp_next s with
  | Some (cp, rest) =>
      match decimal_digit cp with
      | Some _ => k cp rest g
      | None => None
      end
  | None => None
  end.

Definition re_step {A : Type} (test : ascii -> bool) (s : string) (g : groups)
    (k : string -> string -> groups -> option A) : option A :=
  match s with
  | String a rest => if test a then k (String a EmptyString) rest g else None
  | EmptyString => None
  end.

(** [re_match r s g k]: match [r] at the start of [s]; [k] receives the
    consumed text, the remaining text and the groups, and answers [None]
    to make the matcher backtrack. *)
Fixpoint re_match {A : Type} (r : regex) (s : string) (g : groups)
    (k : string -> string -> groups -> option A) : option A :=
  match r with
  | RChar c => re_step (fun a => Ascii.eqb a c) s g k
  | RRange lo hi => re_step (in_range lo hi) s g k
  | RDigit => re_digit s g k
  | RSeq r1 r2 =>
      re_match r1 s g (fun a1 s1 g1 =>
        re_match r2 s1 g1 (fun a2 s2 g2 => k (a1 +:+ a2) s2 g2))
  | RAlt r1 r2 =>
      match re_match r1 s g k with
      | Some x => Some x
      | None => re_match r2 s g k
      end
  | RGroup name r1 =>
      re_match r1 s g (fun a s1 g1 => k a s1 ((name, a) :: g1))
  end.

(** [(?P<d>3[0-1]|[1-2]\d|0[1-9]|[1-9]| [1-9])] *)
Definition re_d : regex :=
  RGroup "d"
    (RAlt (RSeq (RChar "3") (RRange "0" "1"))
    (RAlt (RSeq (RRange "1" "2") RDigit)
    (RAlt (RSeq (RChar "0") (RRange "1" "9"))
    (RAlt (RRange "1" "9")
          (RSeq (RChar " ") (RRange "1" "9")))))).

(** [(?P<m>1[0-2]|0[1-9]|[1-9])] *)
Definition re_m : regex :=
  RGroup "m"
    (RAlt (RSeq (RChar "1") (RRange "0" "2"))
    (RAlt (RSeq (RChar "0") (RRange "1" "9"))
          (RRange "1" "9"))).

(** [(?P<Y>\d\d\d\d)] *)
Definition re_Y : regex :=
  RGroup "Y" (RSeq RDigit (RSeq RDigit (RSeq RDigit RDigit))).

(** The pattern of the format ["%d.%m.%Y"]; the dots are escaped. *)
Definition date_regex : regex :=
  RSeq re_d (RSeq (RChar ".") (RSeq re_m (RSeq (RChar ".") re_Y))).

Fixpoint found_dict (g : groups) (name : string) : option string :=
  match g with
  | [] => None
  | (n, v) :: g' => if String.eqb n name then Some v else found_dict g' name
  end.

(** ** [int], calendar dates and [strftime] *)

Definition digit_val (c : ascii) : Z := Z.of_N (N_of_ascii c) - 48.

(** The digits of [int]: every code point is a decimal digit of the
    Unicode database and counts with its value. *)
Fixpoint int_digits (acc : Z) (cps : list string) : option Z :=
  match cps with
  | [] => Some acc
  | cp :: r =>
      match decimal_digit cp with
      | Some v => int_digits (10 * acc + v) r
      | None => None
      end
  end.

Fixpoint lstrip (s : string) : string :=
  match s with
  | String c r => if Ascii.eqb c " " then lstrip r else s
  | EmptyString => s
  end.

(** [int(s)] on the texts that the groups capture: blanks before the
    digits are skipped; no digit at all is a [ValueError]. *)
Definition py_int (s : string) : option Z :=
  match lstrip s with
  | EmptyString => None
  | t => int_digits 0 (codepoints t)
  end.

Definition is_leap (year : Z) : bool :=
  (year mod 4 =? 0) && (negb (year mod 100 =? 0) || (year mod 400 =? 0)).

Definition days_in_month (year month : Z) : Z :=
  if month =? 2 then (if is_leap year then 29 else 28)
  else if (month =? 4) || (month =? 6) || (month =? 9) || (month =? 11) then 30
  else 31.

(** The check of the [date] constructor: [MINYEAR <= year <= MAXYEAR],
    a month of the year and a day of that month. *)
Definition valid_date (year month day : Z) : bool :=
  (1 <=? year) && (year <=? 9999) &&
  (1 <=? month) && (month <=? 12) &&
  (1 <=? day) && (day <=? days_in_month year month).

Record date : Type := mkDate { dt_year : Z; dt_month : Z; dt_day : Z }.

Definition digit_char (n : Z) : ascii := ascii_of_N (Z.to_N (48 + n)).

Definition two_digits (n : Z) : string :=
  String (digit_char (n / 10)) (String (digit_char (n mod 10)) EmptyString).

(** [dt.strftime("%d%m%y")] *)
Definition strftime_dmy (dt : date) : string :=
  two_digits (dt_day dt) +:+ two_digits (dt_month dt) +:+ two_digits (dt_year dt mod 100).

(** [datetime.strptime(s, "%d.%m.%Y")]; [None] is [ValueError]: the
    token does not match, text remains after the match, or the numbers
    are not a calendar date. *)
Definition strptime_dmy (data_string : string) : option date :=
  match re_match date_regex data_string [] (fun a rest g => Some (a, rest, g)) with
  | None => None
  | Some (_, rest, found) =>
      if negb (String.eqb rest EmptyString) then None
      else
        match found_dict found "Y", found_dict found "m", found_dict found "d" with
        | Some ys, Some ms, Some ds =>
            match py_int ys, py_int ms, py_int ds with
            | Some year, Some month, Some day =>
                if valid_date year month day then Some (mkDate year month day) else None
            | _, _, _ => None
            end
        | _, _, _ => None
        end
  end.

(** ** Date normalization: [_convert_dates] *)

Definition convert_date (el : pyval) : pyval :=
  match el with
  | PStr s =>
      match strptime_dmy s with
      | Some dt => PStr (strftime_dmy dt)
      | None => PStr s
      end
  | _ => el
  end.

(** The loop of [_convert_dates], with its accumulator [out]. *)
Fixpoint convert_dates_loop (out : list pyval) (elements : list pyval) : list pyval :=
  match elements with
  | [] => out
  | el :: rest =>
      if negb (isinstance_str el) then convert_dates_loop (out ++ [el]) rest
      else convert_dates_loop (out ++ [convert_date el]) rest
  end.

Definition _convert_dates (elements : list pyval) : list pyval :=
  convert_dates_loop [] elements.

(** ** Images and crop windows *)

(** A decoded image: a 2-D array of gray levels or a 3-D array of BGR
    pixels, as rows of pixels. *)
Inductive Image : Type :=
  | Gray (rows : list (list Z))
  | Color (rows : list (list (Z * Z * Z))).

(** Bound of a Python slice on a sequence of length [n]. *)
Definition slice_bound (n i : Z) : Z :=
  if i <? 0 then Z.max 0 (i + n) else Z.min i n.

(** [l[a:b]] *)
Definition py_slice {A : Type} (l : list A) (a b : Z) : list A :=
  let n := Z.of_nat (length l) in
  let a' := slice_bound n a in
  let b' := slice_bound n b in
  take (Z.to_nat (b' - a')) (drop (Z.to_nat a') l).

(** [s[a:b]] on a [str]: the slice of its code points. *)
Definition str_slice (s : string) (a b : Z) : string :=
  str_join (py_slice (codepoints s) a b).

Record window : Type := mkWindow {
  w_top : Z; w_bottom : Z; w_left : Z; w_right : Z
}.

(** [image[top:bottom, left:right]] *)
Definition crop (image : Image) (w : window) : Image :=
  match image with
  | Gray rows =>
      Gray (map (fun r => py_slice r (w_left w) (w_right w))
                (py_slice rows (w_top w) (w_bottom w)))
  | Color rows =>
      Color (map (fun r => py_slice r (w_left w) (w_right w))
                 (py_slice rows (w_top w) (w_bottom w)))
  end.

(** [image.size] *)
Definition img_size (image : Image) : Z :=
  match image with
  | Gray rows => Z.of_nat (length rows) * Z.of_nat (length (hd [] rows))
  | Color rows => Z.of_nat (length rows) * Z.of_nat (length (hd [] rows)) * 3
  end.

(** An anchor [(x, y, w, h)]. *)
Definition box : Type := (Z * Z * Z * Z)%type.

(** The window of the upper region, left of the face. *)
Definition upper_window (b : box) : window :=
  let '(x, y, w, h) := b in
  let left_x := Z.max 0 (x - 410) in
  let left_y := Z.max 0 (y - 72) in
  let right_x := Z.max 0 (x - 15) in
  let bottom_y := y + h + 40 in
  mkWindow left_y bottom_y left_x right_x.

(** The window of the lower region. *)
Definition lower_window (b : box) : window :=
  let '(x, y, w, h) := b in
  let left_x := Z.max 0 (x - 410) in
  let top_y := y + 110 in
  let right_x := Z.max 0 (x - 15) in
  let bottom_y := y + h + 135 in
  mkWindow top_y bottom_y left_x right_x.

(** The [for (x, y, w, h) in faces] loop of [ocr_front_upper]: every
    iteration overwrites [upper_roi]. *)
Fixpoint upper_roi_loop (front_image : Image) (upper_roi : option Image)
    (faces : list box) : option Image :=
  match faces with
  | [] => upper_roi
  | b :: rest => upper_roi_loop front_image (Some (crop front_image (upper_window b))) rest
  end.

(** ** Dictionaries *)

(** A [dict] in insertion order. *)
Definition dict : Type := list (string * pyval).

Fixpoint dict_get (k : string) (d : dict) : option pyval :=
  match d with
  | [] => None
  | (k', v) :: d' => if String.eqb k' k then Some v else dict_get k d'
  end.

(** [d[k] = v]: an existing key keeps its place, a new key goes last. *)
Fixpoint dict_set (k : string) (v : pyval) (d : dict) : dict :=
  match d with
  | [] => [(k, v)]
  | (k', v') :: d' => if String.eqb k' k then (k', v) :: d' else (k', v') :: dict_set k v d'
  end.

(** [d.update(items)], also the unpacking [**items] in a dict display. *)
Definition dict_update (d : dict) (items : list (string * pyval)) : dict :=
  fold_left (fun m kv => dict_set (fst kv) (snd kv) m) items d.

(** The finite map that a sequence of key/value entries builds, entry
    by entry. *)
Definition map_ins (m : gmap string pyval) (kv : string * pyval) : gmap string pyval :=
  <[fst kv := snd kv]> m.

Definition dict_to_map (d : dict) : gmap string pyval :=
  fold_left map_ins d ∅.

(** ** Tokens and denylists *)

(** A detection of the reader: [(location, text, confidence)]; the
    confidence is in thousandths and is never read. *)
Record token : Type := mkToken {
  tok_loc : list (Z * Z);
  tok_text : string;
  tok_conf : Z
}.

Definition _COMMON_FRONT : gset string :=
  {[ "/"; "Pakistan"; "pakistan"; "Name"; "Father Name"; "Gender";
     "Country of Stay"; "Identity Number"; "Date of Issue"; "Date of Expiry";
     "Signature"; "PAKISTAN"; "ISLAMIC REpUBLIC OF PAKISTAN" ]}.

Definition _COMMON_LOWER : gset string :=
  {[ "Date of Expiry"; "United Arab Emirates"; "Date"; "of Expiry";
     "Date of Birth"; "/"; "Pakistan" ]}.

(** The comprehension [(det[0], det[1].replace("-", "")) for det in result
    if det[1] not in common]. *)
Fixpoint filter_tokens (common : gset string) (result : list token)
    : list (list (Z * Z) * string) :=
  match result with
  | [] => []
  | det :: rest =>
      if bool_decide (tok_text det ∉ common)
      then (tok_loc det, str_remove "-" (tok_text det)) :: filter_tokens common rest
      else filter_tokens common rest
  end.

(** The scan for the identifier: the first raw text with a dash and 15
    characters, dashes removed; the loop stops there. *)
Fixpoint find_cnic (cnic : option string) (result : list token) : option string :=
  match result with
  | [] => cnic
  | det :: rest =>
      let raw := tok_text det in
      if str_contains "-" raw && (str_len raw =? 15)
      then Some (str_remove "-" raw)
      else find_cnic cnic rest
  end.

(** The field set of the upper region. *)
Definition upper_fields (texts : list string) : dict :=
  if 2 <=? Z.of_nat (length texts) then
    match texts !! 0%nat, texts !! 1%nat with
    | Some t0, Some t1 => dict_update [] [("Name", PStr t0); ("Guardian Name", PStr t1)]
    | _, _ => []
    end
  else if Z.of_nat (length texts) =? 1 then
    match texts !! 0%nat with
    | Some t0 => dict_update [] [("Name", PStr t0)]
    | None => []
    end
  else [].

(** The field set of the lower region. *)
Definition lower_fields (texts : list pyval) : dict :=
  if 4 <=? Z.of_nat (length texts) then
    match texts !! 0%nat, texts !! 1%nat, texts !! 2%nat, texts !! 3%nat with
    | Some t0, Some t1, Some t2, Some t3 =>
        dict_update [] [("Id Card Number", t0); ("Date Of Birth", t1);
                        ("Date Of Issue", t2); ("Date Of Expiry", t3)]
    | _, _, _, _ => []
    end
  else [].

(** ** Effects: capabilities, exceptions and the trace *)

(** An uploaded file: its bytes. *)
Definition upload : Type := string.

(** A detection of the object detector: box, score, class. *)
Record detection : Type := mkDetection {
  det_box : box; det_score : Z; det_class : Z
}.

Inductive outcome (A : Type) : Type :=
  | Ok (a : A)
  | Raise (exc : string).
Arguments Ok {A} a.
Arguments Raise {A} exc.

(** What the pipeline does to the world, in order. *)
Inductive event : Type :=
  | EvReadStream (stream : upload)
  | EvCvtColor (image : Image)
  | EvDetectFaces (image : Image)
  | EvGetYolo
  | EvGetReader
  | EvYolo (image : Image)
  | EvDraw (image : Image)
  | EvReadText (image : Image)
  | EvQrDecode (image : Image)
  | EvCsvWrite (path : string) (rows : list (list pyval))
  | EvLog (msg : string).

Definition trace : Type := list event.

(** The external capabilities.  Each answer may depend on the trace so
    far, so two calls with the same argument may differ. *)
Record Capabilities : Type := mkCaps {
  cap_read_image : trace -> upload -> option Image;
  cap_cvtColor : trace -> Image -> outcome Image;
  cap_detectMultiScale : trace -> Image -> outcome (list box);
  cap_get_yolo_model : trace -> outcome unit;
  cap_get_ocr_reader : trace -> outcome unit;
  cap_yolo : trace -> Image -> outcome (option (list detection));
  cap_draw_detections : trace -> Image -> outcome Image;
  cap_readtext : trace -> Image -> outcome (list token);
  cap_qr_decode : trace -> Image -> outcome (list (outcome string));
  cap_csv_write : trace -> string -> list (list pyval) -> outcome unit
}.

(** Computations: a trace goes in, a value or an exception and the
    extended trace come out. *)
Definition M (A : Type) : Type := trace -> outcome A * trace.

Definition ret {A : Type} (a : A) : M A := fun tr => (Ok a, tr).

Definition bind {A B : Type} (m : M A) (k : A -> M B) : M B :=
  fun tr =>
    match m tr with
    | (Ok a, tr') => k a tr'
    | (Raise e, tr') => (Raise e, tr')
    end.

Notation "'let*' x ':=' m 'in' k" := (bind m (fun x => k))
  (at level 10, x name, m at level 100, k at level 200).

(** A call of a capability: the answer is the capability's, the event
    is appended. *)
Definition call {A : Type} (ev : event) (answer : trace -> outcome A) : M A :=
  fun tr => (answer tr, tr ++ [ev]).

(** [try: body  except Exception: handler] *)
Definition try_except {A : Type} (body : M A) (handler : string -> M A) : M A :=
  fun tr =>
    match body tr with
    | (Ok a, tr') => (Ok a, tr')
    | (Raise e, tr') => handler e tr'
    end.

(** [logger.exception(msg)] *)
Definition log_exception (msg : string) : M unit :=
  fun tr => (Ok tt, tr ++ [EvLog msg]).

Section Pipeline.

Context (caps : Capabilities).

Definition get_yolo_model : M unit := call EvGetYolo (cap_get_yolo_model caps).
Definition get_ocr_reader : M unit := call EvGetReader (cap_get_ocr_reader caps).
Definition yolo (image : Image) : M (option (list detection)) :=
  call (EvYolo image) (fun tr => cap_yolo caps tr image).
Definition draw_detections (image : Image) : M Image :=
  call (EvDraw image) (fun tr => cap_draw_detections caps tr image).
Definition readtext (image : Image) : M (list token) :=
  call (EvReadText image) (fun tr => cap_readtext caps tr image).
Definition qr_decode (image : Image) : M (list (outcome string)) :=
  call (EvQrDecode image) (fun tr => cap_qr_decode caps tr image).

(** [read_image_from_stream]: [None] on any failure. *)
Definition read_image_from_stream (stream : upload) : M (option Image) :=
  call (EvReadStream stream) (fun tr => Ok (cap_read_image caps tr stream)).

(** [to_grayscale] *)
Definition to_grayscale (image : Image) : M Image :=
  match image with
  | Gray _ => ret image
  | Color _ => call (EvCvtColor image) (fun tr => cap_cvtColor caps tr image)
  end.

(** [detect_card_regions] *)
Definition detect_card_regions (front_gray back_image : Image) : M (Image * Image) :=
  let* _ := get_yolo_model in
  let* _ := yolo front_gray in
  let* front_roi := draw_detections front_gray in
  let* _ := yolo back_image in
  let* back_roi := draw_detections back_image in
  ret (back_roi, front_roi).

(** [ocr_front_upper] *)
Definition ocr_front_upper (front_image : Image) (faces : list box)
    : M (dict * list string) :=
  let* _ := get_yolo_model in
  let* _ := get_ocr_reader in
  try_except
    (let* boxes := yolo front_image in
     match boxes with
     | None | Some [] => ret ([], [])
     | Some (_ :: _) =>
         if Z.of_nat (length faces) =? 0 then ret ([], [])
         else
           match upper_roi_loop front_image None faces with
           | None => ret ([], [])
           | Some upper_roi =>
               if img_size upper_roi =? 0 then ret ([], [])
               else
                 let* gray_roi := to_grayscale upper_roi in
                 let* result := readtext gray_roi in
                 let filtered := filter_tokens _COMMON_FRONT result in
                 let texts := map snd filtered in
                 ret (upper_fields texts, texts)
           end
     end)
    (fun _ => let* _ := log_exception "ocr_front_upper failed" in ret ([], [])).

(** [ocr_front_lower] *)
Definition ocr_front_lower (front_gray : Image) (faces : list box)
    : M (option string * dict * list pyval) :=
  let* _ := get_ocr_reader in
  try_except
    (match faces with
     | [] => ret (None, [], [])
     | b :: _ =>
         let roi := crop front_gray (lower_window b) in
         if img_size roi =? 0 then ret (None, [], [])
         else
           let* result := readtext roi in
           let filtered := filter_tokens _COMMON_LOWER result in
           let texts := map (fun t => PStr (snd t)) filtered in
           let texts := _convert_dates texts in
           let data := lower_fields texts in
           let cnic := find_cnic None result in
           ret (cnic, data, texts)
     end)
    (fun _ => let* _ := log_exception "ocr_front_lower failed" in ret (None, [], [])).

(** [ocr_back_qr]; [raw[12:25]] is the identifier. *)
Definition ocr_back_qr (back_roi : Image) : M (option string) :=
  let* _ := get_yolo_model in
  try_except
    (let* _ := yolo back_roi in
     let* gray := to_grayscale back_roi in
     let* qr_codes := qr_decode gray in
     match qr_codes with
     | [] => ret None
     | Ok raw :: _ => ret (Some (str_slice raw 12 25))
     | Raise e :: _ => fun tr => (Raise e, tr)
     end)
    (fun _ => let* _ := log_exception "ocr_back_qr failed" in ret None).

(** The loop [for key in list(merged)] of [merge_card_data]. *)
Fixpoint sanitize_loop (keys : list string) (merged : dict) : dict :=
  match keys with
  | [] => merged
  | key :: rest =>
      match dict_get key merged with
      | Some (PStr s) => sanitize_loop rest (dict_set key (PStr (str_remove "." s)) merged)
      | _ => sanitize_loop rest merged
      end
  end.

(** [x or {}] *)
Definition or_empty (x : option dict) : dict :=
  match x with Some d => d | None => [] end.

(** The rows of the CSV dump: the header, then one row per field. *)
Definition csv_rows (merged : dict) : list (list pyval) :=
  [PStr "key"; PStr "value"] :: map (fun kv => [PStr (fst kv); snd kv]) merged.

(** [merge_card_data] *)
Definition merge_card_data (upper lower : option dict)
    (raw_upper : list string) (raw_lower : list pyval)
    (csv_path : option string) : M dict :=
  let merged := dict_update (dict_update [] (or_empty upper)) (or_empty lower) in
  let merged := sanitize_loop (map fst merged) merged in
  match csv_path with
  | None | Some EmptyString => ret merged
  | Some path =>
      let* _ :=
        try_except
          (call (EvCsvWrite path (csv_rows merged))
                (fun tr => cap_csv_write caps tr path (csv_rows merged)))
          (fun _ => log_exception "CSV write failed (non-fatal)") in
      ret merged
  end.

(** ** The view *)

Record Request : Type := mkRequest {
  req_front_image : option upload;
  req_back_image : option upload
}.

Inductive payload : Type :=
  | DataNone
  | DataMismatch (front_cnic back_cnic : option string)
  | DataCard (card_info : dict) (front_cnic back_cnic : option string)
             (ocr_upper_raw : list string) (ocr_lower_raw : list pyval).

Record Response : Type := mkResponse {
  resp_success : bool;
  resp_message : string;
  resp_data : payload;
  resp_errors : list string;
  resp_status : Z
}.

Definition HTTP_200_OK : Z := 200.
Definition HTTP_400_BAD_REQUEST : Z := 400.
Definition HTTP_406_NOT_ACCEPTABLE : Z := 406.
Definition HTTP_422_UNPROCESSABLE_ENTITY : Z := 422.
Definition HTTP_500_INTERNAL_SERVER_ERROR : Z := 500.

(** The stages of [id_detector] up to the cross-validation: the four
    extraction results and the two identifiers, or an early response. *)
Definition extract (request : Request)
    : M (Response + (dict * list string * option string * dict * list pyval * option string)) :=
  match req_front_image request, req_back_image request with
  | Some front_file, Some back_file =>
      let* front_image := read_image_from_stream front_file in
      let* back_image := read_image_from_stream back_file in
      match front_image, back_image with
      | Some front_image, Some back_image =>
          let* front_gray := to_grayscale front_image in
          let* faces := call (EvDetectFaces front_gray)
                             (fun tr => cap_detectMultiScale caps tr front_gray) in
          if Z.of_nat (length faces) =? 0 then
            ret (inl (mkResponse false "No face detected on the front image" DataNone
                                 ["no_face_detected"] HTTP_422_UNPROCESSABLE_ENTITY))
          else
            let* rois := detect_card_regions front_gray back_image in
            let back_roi := fst rois in
            let* upper := ocr_front_upper front_image faces in
            let* lower := ocr_front_lower front_gray faces in
            let* cnic_back := ocr_back_qr back_roi in
            ret (inr (fst upper, snd upper, fst (fst lower), snd (fst lower),
                      snd lower, cnic_back))
      | _, _ =>
          ret (inl (mkResponse false "Unable to decode one or both uploaded images" DataNone
                               ["invalid_image"] HTTP_400_BAD_REQUEST))
      end
  | _, _ =>
      ret (inl (mkResponse false "Missing required files: 'front_image' and 'back_image'"
                           DataNone ["missing_files"] HTTP_400_BAD_REQUEST))
  end.

(** [id_detector] *)
Definition id_detector (request : Request) : M Response :=
  try_except
    (let* r := extract request in
     match r with
     | inl response => ret response
     | inr (upper_data, upper_raw, cnic_front, lower_data, lower_raw, cnic_back) =>
         if negb (validate_cnic cnic_front cnic_back) then
           ret (mkResponse false "Front and back CNIC numbers do not match"
                           (DataMismatch cnic_front cnic_back)
                           ["cnic_mismatch"] HTTP_406_NOT_ACCEPTABLE)
         else
           let* merged := merge_card_data (Some upper_data) (Some lower_data)
                                          upper_raw lower_raw (Some "IdCardData.csv") in
           ret (mkResponse true "ID card processed successfully"
                           (DataCard merged cnic_front cnic_back upper_raw lower_raw)
                           [] HTTP_200_OK)
     end)
    (fun exc =>
       let* _ := log_exception "Unhandled error in id_detector" in
       ret (mkResponse false "Internal server error" DataNone [exc]
                       HTTP_500_INTERNAL_SERVER_ERROR)).

End Pipeline.

(** ** Reference notions for the statements *)

(** The shape of a printed identifier: a dash in the raw text and 15
    characters in all. *)
Definition cnic_shaped (raw : string) : bool :=
  str_contains "-" raw && (length (codepoints raw) =? 15)%nat.

(** The surviving tokens of a region: the raw texts outside the
    denylist, dashes removed. *)
Definition survivors (common : gset string) (result : list token) : list string :=
  map (str_remove "-") (filter (fun t => t ∉ common) (map tok_text result)).

(** The normalized surviving tokens of the lower region. *)
Definition lower_texts (result : list token) : list pyval :=
  map convert_date (map PStr (survivors _COMMON_LOWER result)).

(** Persistence events. *)
Definition is_persist (ev : event) : bool :=
  match ev with EvCsvWrite _ _ => true | _ => false end.

(** Calls of the text recognition. *)
Definition is_readtext (ev : event) : bool :=
  match ev with EvReadText _ => true | _ => false end.

(** The per-value sanitization of the merged record. *)
Definition sanitize (v : pyval) : pyval :=
  match v with
  | PStr s => PStr (str_remove "." s)
  | _ => v
  end.

(** The response to a failed cross-validation. *)
Definition mismatch_response (cnic_front cnic_back : option string) : Response :=
  mkResponse false "Front and back CNIC numbers do not match"
             (DataMismatch cnic_front cnic_back) ["cnic_mismatch"] HTTP_406_NOT_ACCEPTABLE.

(** Capabilities that always succeed with fixed answers, for the
    examples; the reader's answer is chosen by the region it is given. *)
Definition fixed_caps (boxes : option (list detection)) (tokens : Image -> list token)
    (qr : list (outcome string)) (faces : list box) : Capabilities :=
  {| cap_read_image := fun _ _ => Some (Gray (repeat (repeat 0 8%nat) 120%nat));
     cap_cvtColor := fun _ img => Ok img;
     cap_detectMultiScale := fun _ _ => Ok faces;
     cap_get_yolo_model := fun _ => Ok tt;
     cap_get_ocr_reader := fun _ => Ok tt;
     cap_yolo := fun _ _ => Ok boxes;
     cap_draw_detections := fun _ img => Ok img;
     cap_readtext := fun _ img => Ok (tokens img);
     cap_qr_decode := fun _ _ => Ok qr;
     cap_csv_write := fun _ _ _ => Ok tt |}.

Definition demo_image : Image := Gray (repeat (repeat 0 8%nat) 120%nat).

Definition demo_face : box := (20, 0, 40, 40).

Definition demo_lower_tokens : list token :=
  [ mkToken [] "Pakistan" 990;
    mkToken [] "12345-1234567-1" 950;
    mkToken [] "Date of Birth" 990;
    mkToken [] "01.02.1990" 900;
    mkToken [] "01.01.2020" 900;
    mkToken [] "01.01.2030" 900 ].

Definition demo_upper_tokens : list token :=
  [ mkToken [] "Name" 990; mkToken [] "Ali" 900;
    mkToken [] "Father Name" 990; mkToken [] "Ahmed" 900 ].

(** The upper region of [demo_face] in [demo_image] has 80 rows, the
    lower region has 10. *)
Definition demo_reader (roi : Image) : list token :=
  if img_size roi <? 100 then demo_lower_tokens else demo_upper_tokens.

Definition demo_boxes : option (list detection) :=
  Some [mkDetection (0, 0, 8, 120) 900 0].

Definition demo_request : Request := mkRequest (Some "front") (Some "back").

Definition demo_caps (payload : string) : Capabilities :=
  fixed_caps demo_boxes demo_reader [Ok payload] [demo_face].

(** [quiet P m]: running [m] only appends events, none of them in [P]. *)
Definition quiet {A : Type} (P : event -> bool) (m : M A) : Prop :=
  forall tr, exists evs, snd (m tr) = tr ++ evs /\ Forall (fun ev => P ev = false) evs.

(** The response to an unhandled exception. *)
Definition internal_error_response (exc : string) : Response :=
  mkResponse false "Internal server error" DataNone [exc] HTTP_500_INTERNAL_SERVER_ERROR.

(** ** Date tokens *)

Definition four_digits (n : Z) : string :=
  two_digits (n / 100) +:+ two_digits (n mod 100).

(** The token [DD.MM.YYYY] of three numbers, and its compact form
    [DDMMYY]: the two digits of the day, of the month, and the last two
    of the year. *)
Definition ddmmyyyy (day month year : Z) : string :=
  two_digits day +:+ "." +:+ two_digits month +:+ "." +:+ four_digits year.

Definition ddmmyy (day month year : Z) : string :=
  two_digits day +:+ two_digits month +:+ two_digits (year mod 100).

Definition is_dot (c : ascii) : bool := Ascii.eqb c ".".


(** What a regular expression matches, with the groups it sets. *)
Inductive re_sem : regex -> string -> groups -> groups -> Prop :=
  | sem_char c g : re_sem (RChar c) (String c EmptyString) g g
  | sem_range lo hi c g :
      in_range lo hi c = true -> re_sem (RRange lo hi) (String c EmptyString) g g
  | sem_digit cp v g : decimal_digit cp = Some v -> re_sem RDigit cp g g
  | sem_seq r1 r2 a1 a2 g g1 g2 :
      re_sem r1 a1 g g1 -> re_sem r2 a2 g1 g2 -> re_sem (RSeq r1 r2) (a1 +:+ a2) g g2
  | sem_alt_l r1 r2 a g g' : re_sem r1 a g g' -> re_sem (RAlt r1 r2) a g g'
  | sem_alt_r r1 r2 a g g' : re_sem r2 a g g' -> re_sem (RAlt r1 r2) a g g'
  | sem_group name r a g g' :
      re_sem r a g g' -> re_sem (RGroup name r) a g ((name, a) :: g').

(** The number of occurrences of a character. *)
Fixpoint str_count (c : ascii) (s : string) : nat :=
  match s with
  | EmptyString => 0%nat
  | String a r => ((if Ascii.eqb a c then 1 else 0) + str_count c r)%nat
  end.

(** The bytes of a string that are no continuation bytes: one for each
    code point. *)
Fixpoint lead_count (s : string) : nat :=
  match s with
  | EmptyString => 0%nat
  | String a r => ((if is_cont a then 0 else 1) + lead_count r)%nat
  end.

(** A string of ASCII characters. *)
Fixpoint all_ascii (s : string) : bool :=
  match s with
  | EmptyString => true
  | String a r => (N_of_ascii a <? 128)%N && all_ascii r
  end.

(** Every character of a string passes a test. *)
Fixpoint str_forall (p : ascii -> bool) (s : string) : bool :=
  match s with
  | EmptyString => true
  | String a r => p a && str_forall p r
  end.

(** What a dotted date is written with: ASCII digits, the dot, the
    blank, and characters outside ASCII. *)
Definition date_char (c : ascii) : bool :=
  is_digit c || Ascii.eqb c "." || Ascii.eqb c " " || (128 <=? N_of_ascii c)%N.

(** A pattern whose literals are such characters and whose ranges are
    ranges of ASCII digits. *)
Fixpoint date_pattern (r : regex) : bool :=
  match r with
  | RChar c => date_char c
  | RRange lo hi => is_digit lo && is_digit hi
  | RDigit => true
  | RSeq r1 r2 => date_pattern r1 && date_pattern r2
  | RAlt r1 r2 => date_pattern r1 && date_pattern r2
  | RGroup _ r1 => date_pattern r1
  end.

(** A pattern that matches no dot. *)
Fixpoint dotless (r : regex) : bool :=
  match r with
  | RChar c => negb (Ascii.eqb c ".")
  | RRange lo hi => negb (in_range lo hi ".")
  | RDigit => true
  | RSeq r1 r2 => dotless r1 && dotless r2
  | RAlt r1 r2 => dotless r1 && dotless r2
  | RGroup _ r1 => dotless r1
  end.

(** A pattern whose literals and ranges are ASCII, and the least and the
    greatest number of code points that it matches. *)
Fixpoint ascii_pattern (r : regex) : bool :=
  match r with
  | RChar c => (N_of_ascii c <? 128)%N
  | RRange lo hi => (N_of_ascii hi <? 128)%N
  | RDigit => true
  | RSeq r1 r2 => ascii_pattern r1 && ascii_pattern r2
  | RAlt r1 r2 => ascii_pattern r1 && ascii_pattern r2
  | RGroup _ r1 => ascii_pattern r1
  end.

Fixpoint re_min (r : regex) : nat :=
  match r with
  | RChar _ | RRange _ _ | RDigit => 1%nat
  | RSeq r1 r2 => (re_min r1 + re_min r2)%nat
  | RAlt r1 r2 => Nat.min (re_min r1) (re_min r2)
  | RGroup _ r1 => re_min r1
  end.

Fixpoint re_max (r : regex) : nat :=
  match r with
  | RChar _ | RRange _ _ | RDigit => 1%nat
  | RSeq r1 r2 => (re_max r1 + re_max r2)%nat
  | RAlt r1 r2 => Nat.max (re_max r1) (re_max r2)
  | RGroup _ r1 => re_max r1
  end.


(** ** Further reference notions *)

(** The other responses of [id_detector]. *)
Definition missing_files_response : Response :=
  mkResponse false "Missing required files: 'front_image' and 'back_image'"
             DataNone ["missing_files"] HTTP_400_BAD_REQUEST.

Definition invalid_image_response : Response :=
  mkResponse false "Unable to decode one or both uploaded images"
             DataNone ["invalid_image"] HTTP_400_BAD_REQUEST.

Definition no_face_response : Response :=
  mkResponse false "No face detected on the front image"
             DataNone ["no_face_detected"] HTTP_422_UNPROCESSABLE_ENTITY.

Definition success_response (merged : dict) (cnic_front cnic_back : option string)
    (upper_raw : list string) (lower_raw : list pyval) : Response :=
  mkResponse true "ID card processed successfully"
             (DataCard merged cnic_front cnic_back upper_raw lower_raw) [] HTTP_200_OK.

(** The record that [merge_card_data] builds, before the dump. *)
Definition merged_record (upper lower : option dict) : dict :=
  let merged := dict_update (dict_update [] (or_empty upper)) (or_empty lower) in
  sanitize_loop (map fst merged) merged.

(** Calls of a capability other than the image codec: detector, reader,
    barcode decoder and their loaders. *)
Definition is_model_call (ev : event) : bool :=
  match ev with
  | EvGetYolo | EvGetReader | EvYolo _ | EvDraw _ | EvReadText _ | EvQrDecode _ => true
  | _ => false
  end.

(** Capabilities for the examples of failures: as [demo_caps], but the
    detector cannot be loaded, a dump cannot be written, or the uploads
    cannot be decoded. *)
Definition no_detector_caps : Capabilities :=
  {| cap_read_image := fun _ _ => Some demo_image;
     cap_cvtColor := fun _ img => Ok img;
     cap_detectMultiScale := fun _ _ => Ok [demo_face];
     cap_get_yolo_model := fun _ => Raise "model file not found";
     cap_get_ocr_reader := fun _ => Ok tt;
     cap_yolo := fun _ _ => Ok demo_boxes;
     cap_draw_detections := fun _ img => Ok img;
     cap_readtext := fun _ img => Ok (demo_reader img);
     cap_qr_decode := fun _ _ => Ok [];
     cap_csv_write := fun _ _ _ => Ok tt |}.

Definition read_only_caps (payload : string) : Capabilities :=
  {| cap_read_image := fun _ _ => Some demo_image;
     cap_cvtColor := fun _ img => Ok img;
     cap_detectMultiScale := fun _ _ => Ok [demo_face];
     cap_get_yolo_model := fun _ => Ok tt;
     cap_get_ocr_reader := fun _ => Ok tt;
     cap_yolo := fun _ _ => Ok demo_boxes;
     cap_draw_detections := fun _ img => Ok img;
     cap_readtext := fun _ img => Ok (demo_reader img);
     cap_qr_decode := fun _ _ => Ok [Ok payload];
     cap_csv_write := fun _ _ _ => Raise "read-only file system" |}.

Definition undecodable_caps : Capabilities :=
  {| cap_read_image := fun _ _ => None;
     cap_cvtColor := fun _ img => Ok img;
     cap_detectMultiScale := fun _ _ => Ok [demo_face];
     cap_get_yolo_model := fun _ => Ok tt;
     cap_get_ocr_reader := fun _ => Ok tt;
     cap_yolo := fun _ _ => Ok demo_boxes;
     cap_draw_detections := fun _ img => Ok img;
     cap_readtext := fun _ img => Ok (demo_reader img);
     cap_qr_decode := fun _ _ => Ok [];
     cap_csv_write := fun _ _ _ => Ok tt |}.

(** The number of rows of an image. *)
Definition img_height (image : Image) : nat :=
  match image with
  | Gray rows => length rows
  | Color rows => length rows
  end.

(** The numbers of pixels of the rows of an image. *)
Definition img_row_widths (image : Image) : list nat :=
  match image with
  | Gray rows => map (@length Z) rows
  | Color rows => map (@length (Z * Z * Z)) rows
  end.

(** A field with its value sanitized. *)
Definition sanitize_entry (kv : string * pyval) : string * pyval :=
  (fst kv, sanitize (snd kv)).

(** The capabilities [caps] with another file system for the dump. *)
Definition with_csv_write (caps : Capabilities)
    (write : trace -> string -> list (list pyval) -> outcome unit) : Capabilities :=
  {| cap_read_image := cap_read_image caps;
     cap_cvtColor := cap_cvtColor caps;
     cap_detectMultiScale := cap_detectMultiScale caps;
     cap_get_yolo_model := cap_get_yolo_model caps;
     cap_get_ocr_reader := cap_get_ocr_reader caps;
     cap_yolo := cap_yolo caps;
     cap_draw_detections := cap_draw_detections caps;
     cap_readtext := cap_readtext caps;
     cap_qr_decode := cap_qr_decode caps;
     cap_csv_write := write |}.

(** ** The model loader: [model_loader.py]

    The two heavy objects are module-level singletons.  A threshold is
    a float that is only handed to the constructor; the constructed
    objects are opaque; a constructor may raise. *)

Module ModelLoader.

Section Loader.

Context {threshold YOLOv8 Reader : Type}.

(** [MODEL_PATH], the two constructors, and the defaults [0.2], [0.3] of
    [get_yolo_model]. *)
Context (MODEL_PATH : string)
        (new_YOLOv8 : string -> threshold -> threshold -> outcome YOLOv8)
        (new_Reader : list string -> bool -> outcome Reader).

(** The module globals [_yolo_model] and [_ocr_reader]. *)
Record globals : Type := mkGlobals {
  _yolo_model : option YOLOv8;
  _ocr_reader : option Reader
}.

Inductive loader_event : Type :=
  | LogInfo (msg : string)
  | NewYOLOv8 (path : string) (conf_thres iou_thres : threshold)
  | NewReader (langs : list string) (gpu : bool).

(** [get_yolo_model(conf_thres, iou_thres)]: the result, the globals
    after the call and what the call did. *)
Definition get_yolo_model (conf_thres iou_thres : threshold) (st : globals)
    : outcome YOLOv8 * globals * list loader_event :=
  match _yolo_model st with
  | None =>
      match new_YOLOv8 MODEL_PATH conf_thres iou_thres with
      | Ok m =>
          (Ok m, mkGlobals (Some m) (_ocr_reader st),
           [LogInfo "Loading YOLOv8 model from %s"; NewYOLOv8 MODEL_PATH conf_thres iou_thres])
      | Raise e =>
          (Raise e, st,
           [LogInfo "Loading YOLOv8 model from %s"; NewYOLOv8 MODEL_PATH conf_thres iou_thres])
      end
  | Some m => (Ok m, st, [])
  end.

(** [languages or ["en"]] *)
Definition langs_or_en (languages : option (list string)) : list string :=
  match languages with
  | None | Some [] => ["en"]
  | Some langs => langs
  end.

(** [get_ocr_reader(languages, gpu)] *)
Definition get_ocr_reader (languages : option (list string)) (gpu : bool) (st : globals)
    : outcome Reader * globals * list loader_event :=
  match _ocr_reader st with
  | None =>
      let langs := langs_or_en languages in
      match new_Reader langs gpu with
      | Ok r =>
          (Ok r, mkGlobals (_yolo_model st) (Some r),
           [LogInfo "Initialising EasyOCR reader (languages=%s, gpu=%s)"; NewReader langs gpu])
      | Raise e =>
          (Raise e, st,
           [LogInfo "Initialising EasyOCR reader (languages=%s, gpu=%s)"; NewReader langs gpu])
      end
  | Some r => (Ok r, st, [])
  end.

(** A sequence of calls of [get_yolo_model], one per pair of thresholds:
    the results in order, and the globals at the end. *)
Fixpoint yolo_calls (args : list (threshold * threshold)) (st : globals)
    : list (outcome YOLOv8) * globals :=
  match args with
  | [] => ([], st)
  | (conf_thres, iou_thres) :: rest =>
      let '(r, st1, _) := get_yolo_model conf_thres iou_thres st in
      let '(rs, st2) := yolo_calls rest st1 in
      (r :: rs, st2)
  end.

End Loader.

End ModelLoader.

(** ** Reading an upload: [image_utils.read_image_from_stream]

    The stream and the codec are parameters: [stream.read()] gives bytes
    or raises, [cv2.imdecode] gives an image, [None], or raises. *)

Module ImageUtils.

Inductive log_event : Type :=
  | LogWarning (msg : string)
  | LogException (msg : string)
  | Imdecode (data : list Byte.byte).

(** The body of the [try]: it may raise. *)
Definition read_body (imdecode : list Byte.byte -> outcome (option Image))
    (stream_read : outcome (list Byte.byte))
    : outcome (option Image) * list log_event :=
  match stream_read with
  | Raise e => (Raise e, [])
  | Ok [] => (Ok None, [LogWarning "Empty image stream received"])
  | Ok data =>
      match imdecode data with
      | Raise e => (Raise e, [Imdecode data])
      | Ok None =>
          (Ok None, [Imdecode data; LogWarning "cv2.imdecode returned None — invalid image data"])
      | Ok (Some image) => (Ok (Some image), [Imdecode data])
      end
  end.

(** [read_image_from_stream]: the image or [None], and what was done. *)
Definition read_image_from_stream (imdecode : list Byte.byte -> outcome (option Image))
    (stream_read : outcome (list Byte.byte)) : option Image * list log_event :=
  match read_body imdecode stream_read with
  | (Ok image, evs) => (image, evs)
  | (Raise _, evs) => (None, evs ++ [LogException "Failed to read image from stream"])
  end.

(** Calls of the codec. *)
Definition is_imdecode (ev : log_event) : bool :=
  match ev with Imdecode _ => true | _ => false end.

End ImageUtils.

(** [at_most P n m]: running [m] only appends events, at most [n] of
    them in [P]. *)
Definition at_most {A : Type} (P : event -> bool) (n : nat) (m : M A) : Prop :=
  forall tr, exists evs,
    snd (m tr) = tr ++ evs /\ (length (List.filter P evs) <= n)%nat.

Definition is_yolo (ev : event) : bool :=
  match ev with EvYolo _ => true | _ => false end.

Definition is_qr_decode (ev : event) : bool :=
  match ev with EvQrDecode _ => true | _ => false end.

Definition is_detect_faces (ev : event) : bool :=
  match ev with EvDetectFaces _ => true | _ => false end.

Definition is_read_stream (ev : event) : bool :=
  match ev with EvReadStream _ => true | _ => false end.

(** * Properties *)

(** C1. [validate_cnic] answers [true] exactly when both identifiers are
    present and are the same string; an absent identifier or two
    different strings give [false]. *)
Theorem validate_cnic_spec (front_cnic back_cnic : option string) :
  (validate_cnic front_cnic back_cnic = true <->
     exists s, front_cnic = Some s /\ back_cnic = Some s) /\
  (front_cnic = None \/ back_cnic = None \/ front_cnic <> back_cnic ->
     validate_cnic front_cnic back_cnic = false).
Proof.
  split.
  - split.
    + destruct front_cnic as [f|], back_cnic as [b|]; simpl; try discriminate.
      intros H. apply String.eqb_eq in H. subst b. now exists f.
    + intros (s & -> & ->). simpl. apply String.eqb_refl.
  - intros [-> | [-> | Hne]].
    + reflexivity.
    + now destruct front_cnic.
    + destruct front_cnic as [f|], back_cnic as [b|]; simpl; try reflexivity.
      apply String.eqb_neq. congruence.
Qed.

Lemma validate_cnic_spec_witness :
  validate_cnic (Some "1234512345671") (Some "1234512345671") = true /\
  validate_cnic (Some "A") (Some "B") = false /\
  validate_cnic None (Some "X") = false.
Proof.
  split; [|split].
  - apply (proj1 (validate_cnic_spec (Some "1234512345671") (Some "1234512345671"))).
    exists "1234512345671". split; reflexivity.
  - apply (proj2 (validate_cnic_spec (Some "A") (Some "B"))).
    right. right. discriminate.
  - apply (proj2 (validate_cnic_spec None (Some "X"))). left. reflexivity.
Defined.

Example convert_date_ex1 : convert_date (PStr "01.02.2030") = PStr "010230".
Proof. reflexivity. Qed.
Example convert_date_ex2 : convert_date (PStr "hello") = PStr "hello".
Proof. reflexivity. Qed.
Example convert_date_ex3 : convert_date (PStr "31.02.2030") = PStr "31.02.2030".
Proof. reflexivity. Qed.
Example convert_date_ex4 : convert_date (PStr "1.2.2030") = PStr "010230".
Proof. reflexivity. Qed.
Example convert_date_ex5 : convert_date (PStr " 1.02.0999") = PStr "010299".
Proof. reflexivity. Qed.
Example convert_date_ex6 : convert_date (PStr "01.02.20301") = PStr "01.02.20301".
Proof. reflexivity. Qed.
Example convert_date_ex7 : convert_date (PStr "29.02.1900") = PStr "29.02.1900".
Proof. reflexivity. Qed.

(** [\d] and [int] read the decimal digits of every script: an
    Arabic-Indic two in the day, and a year in Arabic-Indic digits.  The
    ranges of the pattern are ASCII: an Arabic-Indic one after ['0'] is no
    day. *)
Example convert_date_ex8 : convert_date (PStr "1٢.02.2030") = PStr "120230".
Proof. reflexivity. Qed.
Example convert_date_ex9 : convert_date (PStr "01.02.٢٠٣٠") = PStr "010230".
Proof. reflexivity. Qed.
Example convert_date_ex10 : convert_date (PStr "0١.02.2030") = PStr "0١.02.2030".
Proof. reflexivity. Qed.

(** ** Date normalization keeps positions *)

Lemma convert_dates_loop_map (out elements : list pyval) :
  convert_dates_loop out elements = out ++ map convert_date elements.
Proof.
  revert out. induction elements as [|el rest IH]; intros out; simpl.
  - now rewrite app_nil_r.
  - destruct el; simpl; rewrite IH, <- app_assoc; reflexivity.
Qed.

Lemma convert_dates_map (elements : list pyval) :
  _convert_dates elements = map convert_date elements.
Proof. unfold _convert_dates. now rewrite convert_dates_loop_map. Qed.

Lemma convert_dates_length (elements : list pyval) :
  length (_convert_dates elements) = length elements.
Proof. rewrite convert_dates_map. apply length_map. Qed.

Lemma convert_dates_lookup (elements : list pyval) (i : nat) :
  _convert_dates elements !! i = convert_date <$> elements !! i.
Proof. rewrite convert_dates_map. apply list_lookup_fmap. Qed.

(** C10. [_convert_dates] returns a list of the same length; the element
    at every position is the normalization of the input element at that
    position, and an element that is not a string is the input element
    itself. *)
Theorem convert_dates_positional (elements : list pyval) :
  length (_convert_dates elements) = length elements /\
  (forall i, _convert_dates elements !! i = convert_date <$> elements !! i) /\
  (forall i el, elements !! i = Some el -> isinstance_str el = false ->
     _convert_dates elements !! i = Some el).
Proof.
  split; [apply convert_dates_length|].
  split; [apply convert_dates_lookup|].
  intros i el Hi Hty. rewrite convert_dates_lookup, Hi.
  destruct el; simpl in *; [discriminate | reflexivity | reflexivity].
Qed.

Lemma convert_dates_positional_witness :
  length (_convert_dates [PStr "01.02.2030"; PInt 7; PNone; PStr "x"]) = 4%nat /\
  _convert_dates [PStr "01.02.2030"; PInt 7; PNone; PStr "x"] !! 1%nat = Some (PInt 7).
Proof.
  pose proof (convert_dates_positional [PStr "01.02.2030"; PInt 7; PNone; PStr "x"])
    as (Hlen & _ & Hpos).
  split.
  - exact Hlen.
  - apply Hpos; reflexivity.
Defined.

(** ** Lower region: field mapping and identifier scan *)

Lemma filter_tokens_survivors (common : gset string) (result : list token) :
  map snd (filter_tokens common result) = survivors common result.
Proof.
  unfold survivors. induction result as [|det rest IH]; simpl; [reflexivity|].
  rewrite filter_cons. case_bool_decide as Hin.
  - rewrite decide_True by exact Hin. simpl. now rewrite IH.
  - rewrite decide_False by (intros Hout; exact (Hout Hin)). exact IH.
Qed.

Lemma filter_tokens_lower_texts (result : list token) :
  _convert_dates (map (fun t => PStr (snd t)) (filter_tokens _COMMON_LOWER result))
  = lower_texts result.
Proof.
  unfold lower_texts. rewrite convert_dates_map, <- filter_tokens_survivors.
  now rewrite !map_map.
Qed.

(** What [ocr_front_lower] returns once the reader has answered. *)
Lemma ocr_front_lower_reads (caps : Capabilities) (front_gray : Image)
    (b : box) (faces : list box) (tr : trace) (result : list token) :
  cap_get_ocr_reader caps tr = Ok tt ->
  img_size (crop front_gray (lower_window b)) <> 0 ->
  cap_readtext caps (tr ++ [EvGetReader]) (crop front_gray (lower_window b)) = Ok result ->
  ocr_front_lower caps front_gray (b :: faces) tr =
    (Ok (find_cnic None result, lower_fields (lower_texts result), lower_texts result),
     tr ++ [EvGetReader] ++ [EvReadText (crop front_gray (lower_window b))]).
Proof.
  intros Hreader Hsize Hread.
  unfold ocr_front_lower, bind, try_except, get_ocr_reader, readtext, call, ret.
  rewrite Hreader.
  destruct (img_size (crop front_gray (lower_window b)) =? 0) eqn:E.
  - apply Z.eqb_eq in E. contradiction.
  - rewrite Hread, filter_tokens_lower_texts, <- app_assoc. reflexivity.
Qed.

Lemma lower_fields_spec (texts : list pyval) :
  (forall t0 t1 t2 t3 rest, texts = t0 :: t1 :: t2 :: t3 :: rest ->
     lower_fields texts =
       [("Id Card Number", t0); ("Date Of Birth", t1);
        ("Date Of Issue", t2); ("Date Of Expiry", t3)]) /\
  ((length texts < 4)%nat -> lower_fields texts = []).
Proof.
  split.
  - intros t0 t1 t2 t3 rest ->. unfold lower_fields.
    replace (4 <=? Z.of_nat (length (t0 :: t1 :: t2 :: t3 :: rest))) with true
      by (symmetry; apply Z.leb_le; simpl length; lia).
    reflexivity.
  - intros Hlen. unfold lower_fields.
    replace (4 <=? Z.of_nat (length texts)) with false
      by (symmetry; apply Z.leb_gt; lia).
    reflexivity.
Qed.

(** C3. When the reader answers with [result] for the lower region,
    [ocr_front_lower] returns the field set of the normalized surviving
    tokens: with at least four of them, exactly the four keys
    [Id Card Number], [Date Of Birth], [Date Of Issue], [Date Of Expiry]
    bound, in this order, to the first four; with fewer, the empty field
    set, and no error. *)
Theorem lower_fields_positional (caps : Capabilities) (front_gray : Image)
    (b : box) (faces : list box) (tr : trace) (result : list token) :
  cap_get_ocr_reader caps tr = Ok tt ->
  img_size (crop front_gray (lower_window b)) <> 0 ->
  cap_readtext caps (tr ++ [EvGetReader]) (crop front_gray (lower_window b)) = Ok result ->
  exists cnic data tr',
    ocr_front_lower caps front_gray (b :: faces) tr = (Ok (cnic, data, lower_texts result), tr') /\
    (forall t0 t1 t2 t3 rest, lower_texts result = t0 :: t1 :: t2 :: t3 :: rest ->
       data = [("Id Card Number", t0); ("Date Of Birth", t1);
               ("Date Of Issue", t2); ("Date Of Expiry", t3)]) /\
    ((length (lower_texts result) < 4)%nat -> data = []).
Proof.
  intros Hreader Hsize Hread.
  eexists _, _, _. split.
  - apply ocr_front_lower_reads; eassumption.
  - apply lower_fields_spec.
Qed.

Example ocr_front_lower_demo :
  ocr_front_lower (fixed_caps None (fun _ => demo_lower_tokens) [] [demo_face]) demo_image [demo_face] [] =
    (Ok (Some "1234512345671",
         [("Id Card Number", PStr "1234512345671"); ("Date Of Birth", PStr "010290");
          ("Date Of Issue", PStr "010120"); ("Date Of Expiry", PStr "010130")],
         [PStr "1234512345671"; PStr "010290"; PStr "010120"; PStr "010130"]),
     [EvGetReader; EvReadText (crop demo_image (lower_window demo_face))]).
Proof. vm_compute. reflexivity. Qed.

Lemma lower_fields_positional_witness :
  match fst (ocr_front_lower (fixed_caps None (fun _ => demo_lower_tokens) [] [demo_face])
                             demo_image [demo_face] []) with
  | Ok (_, data, _) =>
      data = [("Id Card Number", PStr "1234512345671"); ("Date Of Birth", PStr "010290");
              ("Date Of Issue", PStr "010120"); ("Date Of Expiry", PStr "010130")]
  | Raise _ => False
  end.
Proof.
  destruct (lower_fields_positional (fixed_caps None (fun _ => demo_lower_tokens) [] [demo_face])
              demo_image demo_face [] [] demo_lower_tokens)
    as (cnic & data & tr' & Hrun & Hfour & _).
  - reflexivity.
  - vm_compute. discriminate.
  - reflexivity.
  - rewrite Hrun. cbn [fst]. apply (Hfour _ _ _ _ []). vm_compute. reflexivity.
Defined.

Lemma find_cnic_find (cnic : option string) (result : list token) :
  find_cnic cnic result =
    match List.find cnic_shaped (map tok_text result) with
    | Some raw => Some (str_remove "-" raw)
    | None => cnic
    end.
Proof.
  induction result as [|det rest IH]; simpl; [reflexivity|].
  unfold cnic_shaped at 1, str_len.
  replace (Z.of_nat (length (codepoints (tok_text det))) =? 15)
    with (length (codepoints (tok_text det)) =? 15)%nat.
  - destruct (str_contains "-" (tok_text det) &&
              (length (codepoints (tok_text det)) =? 15)%nat);
      [reflexivity | exact IH].
  - destruct (Nat.eqb_spec (length (codepoints (tok_text det))) 15) as [->|Hne];
      [reflexivity|].
    symmetry. apply Z.eqb_neq. lia.
Qed.

Lemma find_first (A : Type) (p : A -> bool) (pre : list A) (x : A) (post : list A) :
  Forall (fun y => p y = false) pre -> p x = true ->
  List.find p (pre ++ x :: post) = Some x.
Proof.
  induction 1 as [|y pre Hy _ IH]; intros Hx; simpl.
  - now rewrite Hx.
  - rewrite Hy. now apply IH.
Qed.

Lemma find_none (A : Type) (p : A -> bool) (l : list A) :
  List.find p l = None <-> Forall (fun y => p y = false) l.
Proof.
  induction l as [|y l IH]; simpl.
  - split; [constructor | reflexivity].
  - destruct (p y) eqn:E.
    + split; [discriminate | intros H; inversion H; congruence].
    + rewrite IH. split; [now constructor | intros H; now inversion H].
Qed.

(** C5. When the reader answers with [result] for the lower region, the
    identifier that [ocr_front_lower] returns comes from the raw texts of
    all of [result], in their order: it is the first raw text that has a
    dash and 15 characters (code points), with its dashes removed, and
    [None] when no raw text has this shape.  The denylist and the stripped texts play
    no part. *)
Theorem front_cnic_scan (caps : Capabilities) (front_gray : Image)
    (b : box) (faces : list box) (tr : trace) (result : list token) :
  cap_get_ocr_reader caps tr = Ok tt ->
  img_size (crop front_gray (lower_window b)) <> 0 ->
  cap_readtext caps (tr ++ [EvGetReader]) (crop front_gray (lower_window b)) = Ok result ->
  exists cnic data texts tr',
    ocr_front_lower caps front_gray (b :: faces) tr = (Ok (cnic, data, texts), tr') /\
    cnic = str_remove "-" <$> List.find cnic_shaped (map tok_text result) /\
    (forall pre det post, result = pre ++ det :: post ->
       Forall (fun d => cnic_shaped (tok_text d) = false) pre ->
       cnic_shaped (tok_text det) = true ->
       cnic = Some (str_remove "-" (tok_text det))) /\
    (cnic = None <-> Forall (fun d => cnic_shaped (tok_text d) = false) result).
Proof.
  intros Hreader Hsize Hread.
  eexists _, _, _, _. split; [apply ocr_front_lower_reads; eassumption|].
  rewrite find_cnic_find.
  split; [now destruct (List.find _ _)|].
  split.
  - intros pre det post -> Hpre Hdet.
    rewrite map_app. simpl map.
    rewrite (find_first _ cnic_shaped (map tok_text pre) (tok_text det)); trivial.
    now apply Forall_map.
  - rewrite <- (Forall_map tok_text (fun raw => cnic_shaped raw = false)), <- find_none.
    destruct (List.find _ _); split; congruence.
Qed.

Lemma front_cnic_scan_witness :
  match fst (ocr_front_lower (fixed_caps None (fun _ => demo_lower_tokens) [] [demo_face])
                             demo_image [demo_face] []) with
  | Ok (cnic, _, _) => cnic = Some "1234512345671"
  | Raise _ => False
  end.
Proof.
  destruct (front_cnic_scan (fixed_caps None (fun _ => demo_lower_tokens) [] [demo_face])
              demo_image demo_face [] [] demo_lower_tokens)
    as (cnic & data & texts & tr' & Hrun & Hfind & _).
  - reflexivity.
  - vm_compute. discriminate.
  - reflexivity.
  - rewrite Hrun. cbn [fst]. exact Hfind.
Defined.

Example cnic_shaped_ex1 : cnic_shaped "12345-1234567-1" = true.
Proof. reflexivity. Qed.
Example cnic_shaped_ex2 : cnic_shaped "1234-123-1" = false.
Proof. reflexivity. Qed.

(** The length counts code points: a text of 15 characters, one of them
    of three bytes. *)
Example cnic_shaped_ex3 :
  str_len "12345-12345€7-1" = 15 /\ cnic_shaped "12345-12345€7-1" = true /\
  find_cnic None [mkToken [] "Pakistan" 0; mkToken [] "12345-12345€7-1" 0] =
    Some "1234512345€71".
Proof. repeat split. Qed.

(** ** Crop windows *)

Lemma upper_roi_loop_last (front_image : Image) (acc : option Image) (b0 : box)
    (rest : list box) (d : box) :
  upper_roi_loop front_image acc (b0 :: rest) =
    Some (crop front_image (upper_window (List.last (b0 :: rest) d))).
Proof.
  revert acc b0. induction rest as [|b1 rest IH]; intros acc b0; [reflexivity|].
  change (upper_roi_loop front_image acc (b0 :: b1 :: rest))
    with (upper_roi_loop front_image (Some (crop front_image (upper_window b0))) (b1 :: rest)).
  rewrite IH. reflexivity.
Qed.

(** The upper extraction sees the anchors only through the last one. *)
Lemma ocr_front_upper_last (caps : Capabilities) (front_image : Image)
    (b0 : box) (rest : list box) (tr : trace) :
  ocr_front_upper caps front_image (b0 :: rest) tr =
  ocr_front_upper caps front_image [List.last (b0 :: rest) b0] tr.
Proof.
  unfold ocr_front_upper.
  rewrite (upper_roi_loop_last front_image None b0 rest b0).
  reflexivity.
Qed.

(** What [ocr_front_upper] returns once the reader has answered: the
    region that it reads is the gray crop of the last anchor. *)
Lemma ocr_front_upper_reads (caps : Capabilities) (front_image gray_roi : Image)
    (b0 : box) (rest : list box) (tr tr4 : trace) (d : detection) (ds : list detection)
    (result : list token) :
  cap_get_yolo_model caps tr = Ok tt ->
  cap_get_ocr_reader caps (tr ++ [EvGetYolo]) = Ok tt ->
  cap_yolo caps ((tr ++ [EvGetYolo]) ++ [EvGetReader]) front_image = Ok (Some (d :: ds)) ->
  img_size (crop front_image (upper_window (List.last (b0 :: rest) b0))) <> 0 ->
  to_grayscale caps (crop front_image (upper_window (List.last (b0 :: rest) b0)))
    (((tr ++ [EvGetYolo]) ++ [EvGetReader]) ++ [EvYolo front_image]) = (Ok gray_roi, tr4) ->
  cap_readtext caps tr4 gray_roi = Ok result ->
  ocr_front_upper caps front_image (b0 :: rest) tr =
    (Ok (upper_fields (survivors _COMMON_FRONT result), survivors _COMMON_FRONT result),
     tr4 ++ [EvReadText gray_roi]).
Proof.
  intros Hyolo Hreader Hboxes Hsize Hgray Hread.
  unfold ocr_front_upper, bind, try_except, get_yolo_model, get_ocr_reader, yolo,
    readtext, call, ret.
  rewrite Hyolo, Hreader, Hboxes.
  replace (Z.of_nat (length (b0 :: rest)) =? 0) with false
    by (symmetry; apply Z.eqb_neq; simpl length; lia).
  rewrite (upper_roi_loop_last front_image None b0 rest b0).
  destruct (img_size _ =? 0) eqn:E; [apply Z.eqb_eq in E; contradiction|].
  rewrite Hgray, Hread, filter_tokens_survivors. reflexivity.
Qed.

(** The lower extraction gives the lower window of the first anchor to
    the reader, whatever the reader answers. *)
Lemma ocr_front_lower_reads_window (caps : Capabilities) (front_gray : Image)
    (b : box) (faces : list box) (tr : trace) :
  cap_get_ocr_reader caps tr = Ok tt ->
  img_size (crop front_gray (lower_window b)) <> 0 ->
  exists evs,
    snd (ocr_front_lower caps front_gray (b :: faces) tr) =
      tr ++ [EvGetReader; EvReadText (crop front_gray (lower_window b))] ++ evs.
Proof.
  intros Hreader Hsize.
  unfold ocr_front_lower, bind, try_except, get_ocr_reader, readtext, call, ret,
    log_exception.
  rewrite Hreader.
  destruct (img_size (crop front_gray (lower_window b)) =? 0) eqn:E;
    [apply Z.eqb_eq in E; contradiction|].
  destruct (cap_readtext caps _ _) as [result|exc]; cbn [snd].
  - exists []. now rewrite <- !app_assoc.
  - exists [EvLog "ocr_front_lower failed"]. now rewrite <- !app_assoc.
Qed.

(** C7. With the anchors [b0 :: rest], the loop of the upper region
    ends with the crop of the last anchor, and the upper extraction is
    the one of the last anchor alone: once the detector has found the
    card and the crop is not empty, the region that the reader gets is
    the gray crop of the upper window of the last anchor.  The lower
    extraction is the one of the first anchor [b0] alone: whenever the
    lower window of [b0] is not empty, the reader is called on the crop
    of that window, and on no other region; the identifier, the field
    set and the texts come from its answer.  With one anchor the last
    and the first are that anchor. *)
Theorem roi_anchor_choice (caps : Capabilities) (front_image front_gray : Image)
    (b0 : box) (rest : list box) (tr : trace) :
  upper_roi_loop front_image None (b0 :: rest) =
    Some (crop front_image (upper_window (List.last (b0 :: rest) b0))) /\
  ocr_front_upper caps front_image (b0 :: rest) tr =
    ocr_front_upper caps front_image [List.last (b0 :: rest) b0] tr /\
  (forall gray_roi tr4 d ds result,
     cap_get_yolo_model caps tr = Ok tt ->
     cap_get_ocr_reader caps (tr ++ [EvGetYolo]) = Ok tt ->
     cap_yolo caps ((tr ++ [EvGetYolo]) ++ [EvGetReader]) front_image = Ok (Some (d :: ds)) ->
     img_size (crop front_image (upper_window (List.last (b0 :: rest) b0))) <> 0 ->
     to_grayscale caps (crop front_image (upper_window (List.last (b0 :: rest) b0)))
       (((tr ++ [EvGetYolo]) ++ [EvGetReader]) ++ [EvYolo front_image]) = (Ok gray_roi, tr4) ->
     cap_readtext caps tr4 gray_roi = Ok result ->
     ocr_front_upper caps front_image (b0 :: rest) tr =
       (Ok (upper_fields (survivors _COMMON_FRONT result), survivors _COMMON_FRONT result),
        tr4 ++ [EvReadText gray_roi])) /\
  ocr_front_lower caps front_gray (b0 :: rest) tr =
    ocr_front_lower caps front_gray [b0] tr /\
  (cap_get_ocr_reader caps tr = Ok tt ->
   img_size (crop front_gray (lower_window b0)) <> 0 ->
   (exists evs,
      snd (ocr_front_lower caps front_gray (b0 :: rest) tr) =
        tr ++ [EvGetReader; EvReadText (crop front_gray (lower_window b0))] ++ evs) /\
   (forall result,
      cap_readtext caps (tr ++ [EvGetReader]) (crop front_gray (lower_window b0)) = Ok result ->
      ocr_front_lower caps front_gray (b0 :: rest) tr =
        (Ok (find_cnic None result, lower_fields (lower_texts result), lower_texts result),
         tr ++ [EvGetReader; EvReadText (crop front_gray (lower_window b0))]))) /\
  (forall ev, ev ∈ snd (ocr_front_lower caps front_gray (b0 :: rest) tr) ->
     is_readtext ev = true ->
     ev ∈ tr \/ ev = EvReadText (crop front_gray (lower_window b0))) /\
  List.last [b0] b0 = b0.
Proof.
  split; [apply upper_roi_loop_last|].
  split; [apply ocr_front_upper_last|].
  split; [intros gray_roi tr4 d ds result; now apply ocr_front_upper_reads|].
  split; [reflexivity|].
  split.
  { intros Hreader Hsize. split; [now apply ocr_front_lower_reads_window|].
    intros result Hread. now apply ocr_front_lower_reads. }
  split; [|reflexivity].
  intros ev Hin Hread. revert Hin.
  unfold ocr_front_lower, bind, try_except, get_ocr_reader, readtext, call, ret, log_exception.
  destruct (cap_get_ocr_reader caps tr); simpl.
  - destruct (img_size _ =? 0); simpl.
    + rewrite elem_of_app, list_elem_of_singleton. intros [H| ->]; [now left | discriminate].
    + destruct (cap_readtext caps _ _); simpl;
        rewrite !elem_of_app, !list_elem_of_singleton;
        intros H; decompose [or] H; subst; try discriminate; auto.
  - rewrite elem_of_app, list_elem_of_singleton. intros [H| ->]; [now left | discriminate].
Qed.

Example roi_anchor_choice_ex :
  upper_roi_loop demo_image None [(300, 10, 40, 40); demo_face] =
    Some (crop demo_image (upper_window demo_face)) /\
  upper_roi_loop demo_image None [(300, 10, 40, 40); demo_face] <>
    Some (crop demo_image (upper_window (300, 10, 40, 40))).
Proof. split; [reflexivity | vm_compute; discriminate]. Qed.

(** The two anchors give different regions: the other anchor has an
    empty lower window and a wider upper crop. *)
Example anchor_regions_differ :
  crop demo_image (lower_window demo_face) <> crop demo_image (lower_window (300, 10, 40, 40)) /\
  crop demo_image (upper_window demo_face) <> crop demo_image (upper_window (300, 10, 40, 40)) /\
  ocr_front_lower (demo_caps "x") demo_image [(300, 10, 40, 40); demo_face] [] =
    (Ok (None, [], []), [EvGetReader]).
Proof. repeat split; vm_compute; try discriminate; reflexivity. Qed.

Lemma roi_anchor_choice_witness :
  upper_roi_loop demo_image None [(300, 10, 40, 40); demo_face] =
    Some (crop demo_image (upper_window demo_face)) /\
  ocr_front_upper (demo_caps "x") demo_image [(300, 10, 40, 40); demo_face] [] =
    (Ok ([("Name", PStr "Ali"); ("Guardian Name", PStr "Ahmed")], ["Ali"; "Ahmed"]),
     [EvGetYolo; EvGetReader; EvYolo demo_image;
      EvReadText (crop demo_image (upper_window demo_face))]) /\
  ocr_front_lower (demo_caps "x") demo_image [demo_face; (300, 10, 40, 40)] [] =
    (Ok (Some "1234512345671",
         [("Id Card Number", PStr "1234512345671"); ("Date Of Birth", PStr "010290");
          ("Date Of Issue", PStr "010120"); ("Date Of Expiry", PStr "010130")],
         [PStr "1234512345671"; PStr "010290"; PStr "010120"; PStr "010130"]),
     [EvGetReader; EvReadText (crop demo_image (lower_window demo_face))]).
Proof.
  split; [|split].
  - exact (proj1 (roi_anchor_choice (demo_caps "x") demo_image demo_image
                    (300, 10, 40, 40) [demo_face] [])).
  - destruct (roi_anchor_choice (demo_caps "x") demo_image demo_image
                (300, 10, 40, 40) [demo_face] []) as (_ & _ & Hupper & _).
    etransitivity;
      [apply (Hupper (crop demo_image (upper_window demo_face))
                [EvGetYolo; EvGetReader; EvYolo demo_image]
                (mkDetection (0, 0, 8, 120) 900 0) [] demo_upper_tokens);
         [reflexivity | reflexivity | reflexivity
         | vm_compute; discriminate | reflexivity | reflexivity]
      | vm_compute; reflexivity].
  - destruct (roi_anchor_choice (demo_caps "x") demo_image demo_image
                demo_face [(300, 10, 40, 40)] []) as (_ & _ & _ & _ & Hlower & _).
    destruct Hlower as [_ Hreads]; [reflexivity | vm_compute; discriminate |].
    etransitivity; [apply (Hreads demo_lower_tokens); reflexivity | vm_compute; reflexivity].
Defined.

(** C8. For an anchor [(x, y, w, h)] the upper window ends at row
    [y + h + 40] and the lower window starts at row [y + 110]; when
    [h <= 70] the lower window starts at or below the end of the upper
    one, so the two windows share no row. *)
Theorem windows_do_not_overlap (x y w h : Z) :
  h <= 70 ->
  w_bottom (upper_window (x, y, w, h)) = y + h + 40 /\
  w_top (lower_window (x, y, w, h)) = y + 110 /\
  w_top (lower_window (x, y, w, h)) >= w_bottom (upper_window (x, y, w, h)).
Proof. intros Hh. simpl. lia. Qed.

Lemma windows_do_not_overlap_witness :
  w_bottom (upper_window (450, 100, 64, 64)) = 204 /\
  w_top (lower_window (450, 100, 64, 64)) = 210 /\
  w_top (lower_window (450, 100, 64, 64)) >= w_bottom (upper_window (450, 100, 64, 64)).
Proof. apply (windows_do_not_overlap 450 100 64 64). lia. Defined.

(** The bound [70] is sharp: a taller anchor makes the windows overlap. *)
Lemma windows_overlap_iff (x y w h : Z) :
  w_top (lower_window (x, y, w, h)) >= w_bottom (upper_window (x, y, w, h)) <-> h <= 70.
Proof. simpl. lia. Qed.

(** ** The upper extraction and the object detector *)

(** C9. When the object detector answers the front image with no boxes
    ([None] or an empty list), [ocr_front_upper] returns the empty field
    set and the empty raw-text list, whatever the anchors are; the only
    capability calls are the two loaders and the detector: the reader is
    never called. *)
Theorem upper_needs_detector (caps : Capabilities) (front_image : Image)
    (faces : list box) (tr : trace) (boxes : option (list detection)) :
  cap_get_yolo_model caps tr = Ok tt ->
  cap_get_ocr_reader caps (tr ++ [EvGetYolo]) = Ok tt ->
  cap_yolo caps ((tr ++ [EvGetYolo]) ++ [EvGetReader]) front_image = Ok boxes ->
  boxes = None \/ boxes = Some [] ->
  ocr_front_upper caps front_image faces tr =
    (Ok ([], []), tr ++ [EvGetYolo; EvGetReader; EvYolo front_image]) /\
  Forall (fun ev => is_readtext ev = false) [EvGetYolo; EvGetReader; EvYolo front_image].
Proof.
  intros Hyolo Hreader Hboxes Hnone.
  split; [|repeat constructor].
  unfold ocr_front_upper, bind, try_except, get_yolo_model, get_ocr_reader, yolo, call, ret.
  rewrite Hyolo, Hreader, Hboxes.
  replace (tr ++ [EvGetYolo; EvGetReader; EvYolo front_image])
    with (((tr ++ [EvGetYolo]) ++ [EvGetReader]) ++ [EvYolo front_image])
    by (now rewrite <- !app_assoc).
  destruct Hnone as [-> | ->]; reflexivity.
Qed.

Lemma upper_needs_detector_witness :
  ocr_front_upper (fixed_caps (Some []) demo_reader [] [demo_face]) demo_image [demo_face] [] =
    (Ok ([], []), [EvGetYolo; EvGetReader; EvYolo demo_image]).
Proof.
  apply (upper_needs_detector (fixed_caps (Some []) demo_reader [] [demo_face])
           demo_image [demo_face] [] (Some [])).
  - reflexivity.
  - reflexivity.
  - reflexivity.
  - right. reflexivity.
Defined.

(** With a box from the detector, the same anchors give the fields. *)
Example ocr_front_upper_demo :
  fst (ocr_front_upper (demo_caps "x") demo_image [demo_face] []) =
    Ok ([("Name", PStr "Ali"); ("Guardian Name", PStr "Ahmed")], ["Ali"; "Ahmed"]).
Proof. vm_compute. reflexivity. Qed.

(** ** The reconciliation gate *)

Section Quiet.

Context (caps : Capabilities) (P : event -> bool).

Lemma quiet_ret {A : Type} (a : A) : quiet P (ret a).
Proof. intros tr. exists []. simpl. now rewrite app_nil_r. Qed.

Lemma quiet_raise {A : Type} (e : string) : quiet P (fun tr => (@Raise A e, tr)).
Proof. intros tr. exists []. simpl. now rewrite app_nil_r. Qed.

Lemma quiet_bind {A B : Type} (m : M A) (k : A -> M B) :
  quiet P m -> (forall a, quiet P (k a)) -> quiet P (bind m k).
Proof.
  intros Hm Hk tr. unfold bind.
  destruct (Hm tr) as (evs & Heq & Hevs).
  destruct (m tr) as [[a|e] tr1]; simpl in Heq; subst tr1.
  - destruct (Hk a (tr ++ evs)) as (evs' & Heq' & Hevs').
    exists (evs ++ evs'). rewrite Heq', app_assoc. split; [reflexivity|].
    now apply Forall_app.
  - now exists evs.
Qed.

Lemma quiet_try {A : Type} (body : M A) (handler : string -> M A) :
  quiet P body -> (forall e, quiet P (handler e)) -> quiet P (try_except body handler).
Proof.
  intros Hm Hk tr. unfold try_except.
  destruct (Hm tr) as (evs & Heq & Hevs).
  destruct (body tr) as [[a|e] tr1]; simpl in Heq; subst tr1.
  - now exists evs.
  - destruct (Hk e (tr ++ evs)) as (evs' & Heq' & Hevs').
    exists (evs ++ evs'). rewrite Heq', app_assoc. split; [reflexivity|].
    now apply Forall_app.
Qed.

Lemma quiet_call {A : Type} (ev : event) (answer : trace -> outcome A) :
  P ev = false -> quiet P (call ev answer).
Proof. intros Hev tr. exists [ev]. split; [reflexivity | now constructor]. Qed.

Lemma quiet_log (msg : string) : P (EvLog msg) = false -> quiet P (log_exception msg).
Proof. intros Hev tr. exists [EvLog msg]. split; [reflexivity | now constructor]. Qed.

End Quiet.

Create HintDb quiet.

Ltac quiet_auto :=
  cbv zeta;
  lazymatch goal with
  | |- quiet _ (ret _) => apply quiet_ret
  | |- quiet _ (bind _ _) => apply quiet_bind; [quiet_auto | intros ?; quiet_auto]
  | |- quiet _ (try_except _ _) => apply quiet_try; [quiet_auto | intros ?; quiet_auto]
  | |- quiet _ (call _ _) => apply quiet_call; reflexivity
  | |- quiet _ (log_exception _) => apply quiet_log; reflexivity
  | |- quiet _ (fun tr => (Raise _, tr)) => apply quiet_raise
  | |- quiet _ (match ?x with _ => _ end) => destruct x; quiet_auto
  | |- _ => solve [auto with quiet]
  end.

Lemma quiet_to_grayscale (caps : Capabilities) (image : Image) :
  quiet is_persist (to_grayscale caps image).
Proof. unfold to_grayscale. quiet_auto. Qed.

#[local] Hint Resolve quiet_to_grayscale : quiet.

Lemma quiet_detect_card_regions (caps : Capabilities) (front_gray back_image : Image) :
  quiet is_persist (detect_card_regions caps front_gray back_image).
Proof.
  unfold detect_card_regions, get_yolo_model, yolo, draw_detections. quiet_auto.
Qed.

Lemma quiet_ocr_front_upper (caps : Capabilities) (front_image : Image) (faces : list box) :
  quiet is_persist (ocr_front_upper caps front_image faces).
Proof.
  unfold ocr_front_upper, get_yolo_model, get_ocr_reader, yolo, readtext. quiet_auto.
Qed.

Lemma quiet_ocr_front_lower (caps : Capabilities) (front_gray : Image) (faces : list box) :
  quiet is_persist (ocr_front_lower caps front_gray faces).
Proof.
  unfold ocr_front_lower, get_ocr_reader, readtext. quiet_auto.
Qed.

Lemma quiet_ocr_back_qr (caps : Capabilities) (back_roi : Image) :
  quiet is_persist (ocr_back_qr caps back_roi).
Proof.
  unfold ocr_back_qr, get_yolo_model, yolo, qr_decode. quiet_auto.
Qed.

#[local] Hint Resolve quiet_detect_card_regions quiet_ocr_front_upper
  quiet_ocr_front_lower quiet_ocr_back_qr : quiet.

(** Nothing is persisted before the cross-validation. *)
Lemma quiet_extract (caps : Capabilities) (request : Request) :
  quiet is_persist (extract caps request).
Proof. unfold extract, read_image_from_stream. quiet_auto. Qed.

(** C2. In an execution that reaches the cross-validation with
    identifiers that do not reconcile, [id_detector] stops there: the
    trace is the one of the extraction, with no persistence event added,
    no merged record is built, and the response is the mismatch response,
    which carries both identifiers and is not the internal-error
    response. *)
Theorem mismatch_reported_not_persisted (caps : Capabilities) (request : Request)
    (tr tr1 : trace) (upper_data lower_data : dict) (upper_raw : list string)
    (lower_raw : list pyval) (cnic_front cnic_back : option string) :
  extract caps request tr =
    (Ok (inr (upper_data, upper_raw, cnic_front, lower_data, lower_raw, cnic_back)), tr1) ->
  validate_cnic cnic_front cnic_back = false ->
  id_detector caps request tr = (Ok (mismatch_response cnic_front cnic_back), tr1) /\
  resp_data (mismatch_response cnic_front cnic_back) = DataMismatch cnic_front cnic_back /\
  resp_status (mismatch_response cnic_front cnic_back) = HTTP_406_NOT_ACCEPTABLE /\
  (forall exc, mismatch_response cnic_front cnic_back <> internal_error_response exc) /\
  (exists evs, tr1 = tr ++ evs /\ Forall (fun ev => is_persist ev = false) evs).
Proof.
  intros Hextract Hmismatch.
  split; [|split; [reflexivity|split; [reflexivity|split; [discriminate|]]]].
  - unfold id_detector, try_except, bind. rewrite Hextract, Hmismatch. reflexivity.
  - destruct (quiet_extract caps request tr) as (evs & Heq & Hevs).
    rewrite Hextract in Heq. now exists evs.
Qed.

Lemma mismatch_reported_not_persisted_witness :
  fst (id_detector (demo_caps "000000000000999999999999900") demo_request []) =
    Ok (mismatch_response (Some "1234512345671") (Some "9999999999999")) /\
  Forall (fun ev => is_persist ev = false)
    (snd (id_detector (demo_caps "000000000000999999999999900") demo_request [])).
Proof.
  destruct (mismatch_reported_not_persisted
              (demo_caps "000000000000999999999999900") demo_request []
              (snd (extract (demo_caps "000000000000999999999999900") demo_request []))
              [("Name", PStr "Ali"); ("Guardian Name", PStr "Ahmed")]
              [("Id Card Number", PStr "1234512345671"); ("Date Of Birth", PStr "010290");
               ("Date Of Issue", PStr "010120"); ("Date Of Expiry", PStr "010130")]
              ["Ali"; "Ahmed"]
              [PStr "1234512345671"; PStr "010290"; PStr "010120"; PStr "010130"]
              (Some "1234512345671") (Some "9999999999999"))
    as (Hrun & _ & _ & _ & evs & Htr & Hevs).
  - vm_compute. reflexivity.
  - reflexivity.
  - rewrite Hrun. split; [reflexivity|].
    change (Forall (fun ev => is_persist ev = false)
              (snd (extract (demo_caps "000000000000999999999999900") demo_request []))).
    rewrite Htr. exact Hevs.
Defined.

(** The accepted execution of the same request: the identifiers agree,
    the record is merged and the dump is written. *)
Example id_detector_accepts :
  fst (id_detector (demo_caps "000000000000123451234567100") demo_request []) =
    Ok (mkResponse true "ID card processed successfully"
          (DataCard
             [("Name", PStr "Ali"); ("Guardian Name", PStr "Ahmed");
              ("Id Card Number", PStr "1234512345671"); ("Date Of Birth", PStr "010290");
              ("Date Of Issue", PStr "010120"); ("Date Of Expiry", PStr "010130")]
             (Some "1234512345671") (Some "1234512345671")
             ["Ali"; "Ahmed"]
             [PStr "1234512345671"; PStr "010290"; PStr "010120"; PStr "010130"])
          [] HTTP_200_OK) /\
  filter (fun ev => is_persist ev = true)
    (snd (id_detector (demo_caps "000000000000123451234567100") demo_request [])) =
    [EvCsvWrite "IdCardData.csv"
       [[PStr "key"; PStr "value"];
        [PStr "Name"; PStr "Ali"]; [PStr "Guardian Name"; PStr "Ahmed"];
        [PStr "Id Card Number"; PStr "1234512345671"];
        [PStr "Date Of Birth"; PStr "010290"];
        [PStr "Date Of Issue"; PStr "010120"];
        [PStr "Date Of Expiry"; PStr "010130"]]].
Proof. split; vm_compute; reflexivity. Qed.

(** ** Merging the two field sets *)

Lemma fold_ins_notin (k : string) (v : pyval) (d : dict) (m : gmap string pyval) :
  k ∉ map fst d -> fold_left map_ins d (<[k:=v]> m) = <[k:=v]> (fold_left map_ins d m).
Proof.
  revert m. induction d as [|[k' v'] d IH]; intros m Hk; simpl in *; [reflexivity|].
  apply not_elem_of_cons in Hk as [Hne Hk].
  unfold map_ins at 2 4. simpl.
  rewrite (insert_insert_ne m k' k) by congruence.
  now apply IH.
Qed.

Lemma dict_set_keys (k : string) (v : pyval) (d : dict) :
  map fst (dict_set k v d) =
    if decide (k ∈ map fst d) then map fst d else map fst d ++ [k].
Proof.
  induction d as [|[k' v'] d IH].
  - destruct (decide (k ∈ map fst [])) as [Hin|_]; [|reflexivity].
    now apply elem_of_nil in Hin.
  - change (dict_set k v ((k', v') :: d))
      with (if String.eqb k' k then (k', v) :: d else (k', v') :: dict_set k v d).
    change (map fst ((k', v') :: d)) with (k' :: map fst d).
    destruct (String.eqb_spec k' k) as [->|Hne].
    + rewrite decide_True; [reflexivity | apply elem_of_cons; now left].
    + change (map fst ((k', v') :: dict_set k v d)) with (k' :: map fst (dict_set k v d)).
      rewrite IH. destruct (decide (k ∈ map fst d)) as [Hin|Hin].
      * rewrite decide_True; [reflexivity | apply elem_of_cons; now right].
      * rewrite decide_False; [reflexivity|].
        intros [Heq|H]%elem_of_cons; [congruence | contradiction].
Qed.

Lemma dict_set_NoDup (k : string) (v : pyval) (d : dict) :
  NoDup (map fst d) -> NoDup (map fst (dict_set k v d)).
Proof.
  intros Hd. rewrite dict_set_keys.
  destruct (decide (k ∈ map fst d)) as [Hin|Hin]; [exact Hd|].
  apply NoDup_app. split; [exact Hd|]. split; [|apply NoDup_singleton].
  intros x Hx ->%list_elem_of_singleton. contradiction.
Qed.

Lemma fold_ins_set (k : string) (v : pyval) (d : dict) (m : gmap string pyval) :
  NoDup (map fst d) ->
  fold_left map_ins (dict_set k v d) m = <[k:=v]> (fold_left map_ins d m).
Proof.
  revert m. induction d as [|[k' v'] d IH]; intros m Hd; simpl; [reflexivity|].
  apply NoDup_cons in Hd as [Hk' Hd]. simpl in Hk'.
  destruct (String.eqb_spec k' k) as [->|Hne]; simpl.
  - unfold map_ins at 2 4. simpl.
    rewrite !fold_ins_notin by exact Hk'. now rewrite insert_insert_eq.
  - now apply IH.
Qed.

Lemma fold_ins_get (k : string) (d : dict) (m : gmap string pyval) :
  NoDup (map fst d) ->
  fold_left map_ins d m !! k =
    match dict_get k d with Some v => Some v | None => m !! k end.
Proof.
  revert m. induction d as [|[k' v'] d IH]; intros m Hd; simpl; [reflexivity|].
  apply NoDup_cons in Hd as [Hk' Hd]. simpl in Hk'.
  unfold map_ins at 2. simpl.
  destruct (String.eqb_spec k' k) as [->|Hne].
  - rewrite fold_ins_notin by exact Hk'. apply lookup_insert_eq.
  - rewrite IH by exact Hd. destruct (dict_get k d); [reflexivity|].
    now apply lookup_insert_ne.
Qed.

(** On a dictionary, the map has the lookups of the dictionary. *)
Lemma dict_to_map_get (k : string) (d : dict) :
  NoDup (map fst d) -> dict_to_map d !! k = dict_get k d.
Proof.
  intros Hd. unfold dict_to_map. rewrite fold_ins_get by exact Hd.
  now destruct (dict_get k d).
Qed.

Lemma dict_update_spec (d : dict) (items : list (string * pyval)) :
  NoDup (map fst d) ->
  NoDup (map fst (dict_update d items)) /\
  dict_to_map (dict_update d items) = fold_left map_ins items (dict_to_map d).
Proof.
  revert d. induction items as [|[k v] items IH]; intros d Hd; simpl; [now split|].
  destruct (IH (dict_set k v d) (dict_set_NoDup k v d Hd)) as [Hnd Hmap].
  split; [exact Hnd|].
  unfold dict_update in *. simpl. rewrite Hmap.
  unfold dict_to_map. now rewrite fold_ins_set.
Qed.

Lemma fold_ins_union (items : list (string * pyval)) (m : gmap string pyval) :
  fold_left map_ins items m = fold_left map_ins items ∅ ∪ m.
Proof.
  revert m. induction items as [|[k v] items IH]; intros m; simpl.
  - now rewrite (left_id_L ∅ (∪)).
  - rewrite (IH (map_ins m (k, v))), (IH (map_ins ∅ (k, v))).
    unfold map_ins. simpl.
    rewrite insert_empty, <- (assoc_L (∪)), <- insert_union_singleton_l.
    reflexivity.
Qed.

Lemma sanitize_loop_spec (keys : list string) (merged : dict) (k : string) :
  NoDup keys -> NoDup (map fst merged) ->
  NoDup (map fst (sanitize_loop keys merged)) /\
  dict_to_map (sanitize_loop keys merged) !! k =
    if decide (k ∈ keys) then sanitize <$> dict_to_map merged !! k
    else dict_to_map merged !! k.
Proof.
  revert merged.
  induction keys as [|key keys IH]; intros merged Hkeys Hm; cbn [sanitize_loop].
  - split; [exact Hm|].
    destruct (decide (k ∈ [])) as [Hin|_]; [now apply elem_of_nil in Hin | reflexivity].
  - apply NoDup_cons in Hkeys as [Hkey Hkeys].
    assert (Hstep : forall merged',
      NoDup (map fst merged') ->
      dict_to_map merged' = match dict_get key merged with
                            | Some v => <[key := sanitize v]> (dict_to_map merged)
                            | None => dict_to_map merged
                            end ->
      NoDup (map fst (sanitize_loop keys merged')) /\
      dict_to_map (sanitize_loop keys merged') !! k =
        if decide (k ∈ key :: keys) then sanitize <$> dict_to_map merged !! k
        else dict_to_map merged !! k).
    { intros merged' Hm' Hmap.
      destruct (IH merged' Hkeys Hm') as [Hnd Hlook]. split; [exact Hnd|].
      rewrite Hlook, Hmap. rewrite <- (dict_to_map_get key merged Hm).
      destruct (decide (k = key)) as [->|Hne].
      - rewrite decide_False by exact Hkey.
        rewrite decide_True by (apply elem_of_cons; now left).
        destruct (dict_to_map merged !! key) eqn:E; [|now rewrite E].
        now rewrite lookup_insert_eq.
      - assert (Hk : match dict_to_map merged !! key with
                     | Some v => <[key := sanitize v]> (dict_to_map merged)
                     | None => dict_to_map merged
                     end !! k = dict_to_map merged !! k).
        { destruct (dict_to_map merged !! key); [|reflexivity].
          apply lookup_insert_ne. congruence. }
        rewrite Hk.
        destruct (decide (k ∈ keys)) as [Hin|Hin].
        + rewrite decide_True by (apply elem_of_cons; now right). reflexivity.
        + rewrite decide_False; [reflexivity|].
          intros [Heq|H]%elem_of_cons; [congruence | contradiction]. }
    destruct (dict_get key merged) as [[s|n|]|] eqn:E.
    + apply Hstep; [now apply dict_set_NoDup|].
      unfold dict_to_map. now rewrite fold_ins_set.
    + apply Hstep; [exact Hm|]. simpl. symmetry. apply insert_id.
      now rewrite dict_to_map_get.
    + apply Hstep; [exact Hm|]. simpl. symmetry. apply insert_id.
      now rewrite dict_to_map_get.
    + apply Hstep; [exact Hm | reflexivity].
Qed.

Lemma dict_get_notin (k : string) (d : dict) : k ∉ map fst d -> dict_get k d = None.
Proof.
  induction d as [|[k' v'] d IH]; simpl; [reflexivity|].
  intros [Hne Hk]%not_elem_of_cons.
  destruct (String.eqb_spec k' k) as [->|_]; [congruence | now apply IH].
Qed.

(** The merged record before the dump, as a map. *)
Lemma merged_map (upper lower : dict) :
  let merged := dict_update (dict_update [] upper) lower in
  dict_to_map (sanitize_loop (map fst merged) merged) =
    sanitize <$> (dict_to_map lower ∪ dict_to_map upper).
Proof.
  intros merged.
  destruct (dict_update_spec [] upper (NoDup_nil_2 : NoDup (map fst []))) as [Hnd1 Hmap1].
  destruct (dict_update_spec (dict_update [] upper) lower Hnd1) as [Hnd2 Hmap2].
  fold merged in Hnd2, Hmap2.
  assert (Hmerged : dict_to_map merged = dict_to_map lower ∪ dict_to_map upper).
  { rewrite Hmap2, Hmap1, fold_ins_union. reflexivity. }
  apply map_eq. intros k.
  destruct (sanitize_loop_spec (map fst merged) merged k Hnd2 Hnd2) as [_ ->].
  rewrite lookup_fmap, <- Hmerged.
  destruct (decide (k ∈ map fst merged)) as [Hin|Hin]; [reflexivity|].
  rewrite dict_to_map_get by exact Hnd2.
  now rewrite dict_get_notin.
Qed.

Lemma merged_NoDup (upper lower : dict) :
  let merged := dict_update (dict_update [] upper) lower in
  NoDup (map fst (sanitize_loop (map fst merged) merged)).
Proof.
  intros merged.
  destruct (dict_update_spec [] upper (NoDup_nil_2 : NoDup (map fst []))) as [Hnd1 _].
  destruct (dict_update_spec (dict_update [] upper) lower Hnd1) as [Hnd2 _].
  exact (proj1 (sanitize_loop_spec (map fst merged) merged "" Hnd2 Hnd2)).
Qed.

Lemma str_remove_contains (c : ascii) (s : string) :
  str_contains c (str_remove c s) = false.
Proof.
  induction s as [|a s IH]; simpl; [reflexivity|].
  destruct (Ascii.eqb a c) eqn:E; simpl; [exact IH|].
  now rewrite E.
Qed.

(** [merge_card_data] always returns, whatever the dump does. *)
Lemma merge_card_data_returns (caps : Capabilities) (upper lower : option dict)
    (raw_upper : list string) (raw_lower : list pyval) (csv_path : option string)
    (tr : trace) :
  let merged := dict_update (dict_update [] (or_empty upper)) (or_empty lower) in
  exists tr',
    merge_card_data caps upper lower raw_upper raw_lower csv_path tr =
      (Ok (sanitize_loop (map fst merged) merged), tr').
Proof.
  intros merged. unfold merge_card_data. fold merged.
  destruct csv_path as [[|c path]|]; try (eexists; reflexivity).
  unfold bind, try_except, call, ret, log_exception.
  destruct (cap_csv_write caps tr _ _); eexists; reflexivity.
Qed.

(** C6. [merge_card_data] returns the union of the two field sets in
    which the lower field wins on a common key, with [sanitize] applied
    to every value: a string value loses every ['.'], any other value is
    kept.  The returned record has each key once, so its lookups are
    those of this map. *)
Theorem merge_card_data_spec (caps : Capabilities) (upper lower : option dict)
    (raw_upper : list string) (raw_lower : list pyval) (csv_path : option string)
    (tr : trace) :
  exists merged tr',
    merge_card_data caps upper lower raw_upper raw_lower csv_path tr = (Ok merged, tr') /\
    dict_to_map merged =
      sanitize <$> (dict_to_map (or_empty lower) ∪ dict_to_map (or_empty upper)) /\
    NoDup (map fst merged) /\
    (forall k, dict_get k merged =
       sanitize <$> (dict_to_map (or_empty lower) ∪ dict_to_map (or_empty upper)) !! k) /\
    (forall k s, dict_get k merged = Some (PStr s) -> str_contains "." s = false).
Proof.
  destruct (merge_card_data_returns caps upper lower raw_upper raw_lower csv_path tr)
    as [tr' Hrun].
  pose proof (merged_map (or_empty upper) (or_empty lower)) as Hmap.
  pose proof (merged_NoDup (or_empty upper) (or_empty lower)) as Hnd.
  cbv zeta in Hrun, Hmap, Hnd.
  eexists _, tr'. split; [exact Hrun|]. split; [exact Hmap|]. split; [exact Hnd|].
  assert (Hget : forall k,
    dict_get k (sanitize_loop
                  (map fst (dict_update (dict_update [] (or_empty upper)) (or_empty lower)))
                  (dict_update (dict_update [] (or_empty upper)) (or_empty lower))) =
    sanitize <$> (dict_to_map (or_empty lower) ∪ dict_to_map (or_empty upper)) !! k).
  { intros k. rewrite <- dict_to_map_get by exact Hnd. now rewrite Hmap, lookup_fmap. }
  split; [exact Hget|].
  intros k s. rewrite Hget.
  destruct ((dict_to_map (or_empty lower) ∪ dict_to_map (or_empty upper)) !! k)
    as [[s'|n|]|]; simpl; try discriminate.
  intros [= <-]. apply str_remove_contains.
Qed.

Lemma merge_card_data_spec_witness :
  match fst (merge_card_data (demo_caps "x")
               (Some [("Name", PStr "Ali."); ("Id Card Number", PStr "old")])
               (Some [("Id Card Number", PStr "12345.1234567.1"); ("Count", PInt 3)])
               [] [] (Some "IdCardData.csv") []) with
  | Ok merged =>
      dict_get "Id Card Number" merged = Some (PStr "1234512345671") /\
      dict_get "Name" merged = Some (PStr "Ali") /\
      dict_get "Count" merged = Some (PInt 3)
  | Raise _ => False
  end.
Proof.
  destruct (merge_card_data_spec (demo_caps "x")
              (Some [("Name", PStr "Ali."); ("Id Card Number", PStr "old")])
              (Some [("Id Card Number", PStr "12345.1234567.1"); ("Count", PInt 3)])
              [] [] (Some "IdCardData.csv") [])
    as (merged & tr' & Hrun & _ & _ & Hget & _).
  rewrite Hrun. cbn [fst].
  rewrite !Hget. repeat split; vm_compute; reflexivity.
Defined.

Example merge_card_data_order :
  fst (merge_card_data (demo_caps "x")
         (Some [("Name", PStr "Ali."); ("Id Card Number", PStr "old")])
         (Some [("Id Card Number", PStr "12345.1234567.1"); ("Count", PInt 3)])
         [] [] None []) =
    Ok [("Name", PStr "Ali"); ("Id Card Number", PStr "1234512345671"); ("Count", PInt 3)].
Proof. reflexivity. Qed.

(** ** Date tokens: what [strptime] reads *)

Lemma Z_enum (lo : Z) (len : nat) (n : Z) :
  lo <= n < lo + Z.of_nat len ->
  In n (map (fun i => lo + Z.of_nat i) (seq 0 len)).
Proof.
  intros Hn. apply in_map_iff. exists (Z.to_nat (n - lo)).
  split; [lia|]. apply in_seq. lia.
Qed.

(** Case analysis on a number in a range of constants. *)
Ltac enum n lo len :=
  let H := fresh "Henum" in
  assert (H : In n (map (fun i => lo + Z.of_nat i) (seq 0 len)))
    by (apply Z_enum; lia);
  vm_compute in H;
  repeat (destruct H as [H|H]; [subst n|]); [..|contradiction].

Lemma digit_char_is_digit (n : Z) : 0 <= n <= 9 -> is_digit (digit_char n) = true.
Proof. intros Hn. enum n 0 10%nat; reflexivity. Qed.

Lemma digit_val_char (n : Z) : 0 <= n <= 9 -> digit_val (digit_char n) = n.
Proof. intros Hn. enum n 0 10%nat; reflexivity. Qed.

Lemma digit_char_not_blank (n : Z) : 0 <= n <= 9 -> Ascii.eqb (digit_char n) " " = false.
Proof. intros Hn. enum n 0 10%nat; reflexivity. Qed.

Lemma in_range_bounds (lo hi c : ascii) :
  in_range lo hi c = true ->
  (N_of_ascii lo <= N_of_ascii c <= N_of_ascii hi)%N.
Proof.
  unfold in_range. intros [H1 H2]%andb_true_iff.
  apply N.leb_le in H1, H2. lia.
Qed.

(** A character in a range of digits is the digit of its value. *)
Lemma in_range_digit (lo hi : Z) (c : ascii) :
  0 <= lo <= 9 -> 0 <= hi <= 9 ->
  in_range (digit_char lo) (digit_char hi) c = true ->
  c = digit_char (digit_val c) /\ lo <= digit_val c <= hi.
Proof.
  intros Hlo Hhi Hc. apply in_range_bounds in Hc.
  assert (Hl : N_of_ascii (digit_char lo) = Z.to_N (48 + lo))
    by (enum lo 0 10%nat; reflexivity).
  assert (Hh : N_of_ascii (digit_char hi) = Z.to_N (48 + hi))
    by (enum hi 0 10%nat; reflexivity).
  rewrite Hl, Hh in Hc. unfold digit_val, digit_char. split; [|lia].
  replace (48 + (Z.of_N (N_of_ascii c) - 48)) with (Z.of_N (N_of_ascii c)) by lia.
  now rewrite N2Z.id, ascii_N_embedding.
Qed.

Lemma is_digit_char (c : ascii) :
  is_digit c = true -> c = digit_char (digit_val c) /\ 0 <= digit_val c <= 9.
Proof. intros Hc. apply (in_range_digit 0 9 c); [lia | lia | exact Hc]. Qed.

Lemma append_assoc (a b c : string) : (a +:+ b) +:+ c = a +:+ (b +:+ c).
Proof.
  induction a as [|x a IH]; [reflexivity|].
  change (String x ((a +:+ b) +:+ c) = String x (a +:+ (b +:+ c))).
  now rewrite IH.
Qed.

Lemma append_nil_r (a : string) : a +:+ "" = a.
Proof.
  induction a as [|x a IH]; [reflexivity|].
  change (String x (a +:+ "") = String x a).
  now rewrite IH.
Qed.

(** *** Code points *)

Lemma take_drop_conts (r : string) : take_conts r +:+ drop_conts r = r.
Proof.
  induction r as [|c r IH]; [reflexivity|].
  cbn [take_conts drop_conts]. destruct (is_cont c); [|reflexivity].
  change (String c (take_conts r +:+ drop_conts r) = String c r). now rewrite IH.
Qed.

Lemma cp_next_app (s cp rest : string) : cp_next s = Some (cp, rest) -> s = cp +:+ rest.
Proof.
  destruct s as [|a r]; [discriminate|]. cbn [cp_next]. intros [= <- <-].
  change (String a r = String a (take_conts r +:+ drop_conts r)).
  now rewrite take_drop_conts.
Qed.

(** A string has as many code points as bytes that are no continuation
    bytes. *)
Lemma codepoints_length (s : string) : length (codepoints s) = lead_count s.
Proof.
  unfold codepoints. induction s as [|a r IH]; [reflexivity|].
  cbn [cp_build lead_count]. destruct (cp_build r) as [conts cps].
  cbn [snd] in IH. destruct (is_cont a); cbn [snd length]; rewrite IH; reflexivity.
Qed.

Lemma str_len_lead (s : string) : str_len s = Z.of_nat (lead_count s).
Proof. unfold str_len. now rewrite codepoints_length. Qed.

Lemma ascii_not_cont (c : ascii) : (N_of_ascii c <? 128)%N = true -> is_cont c = false.
Proof.
  intros H. apply N.ltb_lt in H. unfold is_cont.
  destruct (N.leb_spec 128 (N_of_ascii c)); [lia | reflexivity].
Qed.

(** On ASCII text the code points are the bytes. *)
Lemma str_len_ascii (s : string) :
  all_ascii s = true -> str_len s = Z.of_nat (String.length s).
Proof.
  rewrite str_len_lead. intros H. f_equal.
  induction s as [|a s IH]; [reflexivity|].
  cbn [all_ascii] in H. apply andb_true_iff in H as [Ha Hs].
  cbn [lead_count String.length]. rewrite (ascii_not_cont a Ha), (IH Hs). reflexivity.
Qed.

Lemma lead_count_app (a b : string) :
  lead_count (a +:+ b) = (lead_count a + lead_count b)%nat.
Proof.
  induction a as [|x a IH]; [reflexivity|].
  change (lead_count (String x (a +:+ b)) = (lead_count (String x a) + lead_count b)%nat).
  cbn [lead_count]. rewrite IH. apply Nat.add_assoc.
Qed.

Lemma all_cont_lead (s : string) : all_cont s = true -> lead_count s = 0%nat.
Proof.
  induction s as [|c s IH]; [reflexivity|]. cbn [all_cont lead_count].
  intros [Hc Hs]%andb_true_iff. rewrite Hc. now apply IH.
Qed.

Lemma is_codepoint_parts (cp : string) :
  is_codepoint cp = true ->
  exists a conts,
    cp = String a conts /\ is_cont a = false /\ all_cont conts = true /\
    ((128 <=? N_of_ascii a)%N = true \/ conts = "").
Proof.
  destruct cp as [|a conts]; [discriminate|]. cbn [is_codepoint].
  intros [[[Ha Hc]%andb_true_iff Hw]%andb_true_iff _]%andb_true_iff.
  apply negb_true_iff in Ha. exists a, conts. repeat split; try assumption.
  destruct (N.leb_spec 128 (N_of_ascii a)) as [|Hlt]; [now left | right].
  apply Nat.eqb_eq in Hw. unfold cp_width in Hw.
  apply N.ltb_lt in Hlt. rewrite Hlt in Hw.
  now destruct conts.
Qed.

Lemma is_codepoint_lead (cp : string) : is_codepoint cp = true -> lead_count cp = 1%nat.
Proof.
  intros (a & conts & -> & Ha & Hc & _)%is_codepoint_parts.
  cbn [lead_count]. rewrite Ha, (all_cont_lead _ Hc). reflexivity.
Qed.

Lemma decimal_digit_codepoint (cp : string) (v : Z) :
  decimal_digit cp = Some v -> is_codepoint cp = true.
Proof. unfold decimal_digit. now destruct (is_codepoint cp). Qed.

Lemma str_count_app (c : ascii) (a b : string) :
  str_count c (a +:+ b) = (str_count c a + str_count c b)%nat.
Proof.
  induction a as [|x a IH]; [reflexivity|].
  change (str_count c (String x (a +:+ b)) = (str_count c (String x a) + str_count c b)%nat).
  cbn [str_count]. rewrite IH. apply Nat.add_assoc.
Qed.

Lemma is_cont_not_dot (c : ascii) : is_cont c = true -> Ascii.eqb c "." = false.
Proof.
  intros H. destruct (Ascii.eqb_spec c ".") as [->|]; [discriminate H | reflexivity].
Qed.

Lemma all_cont_no_dot (s : string) : all_cont s = true -> str_count "." s = 0%nat.
Proof.
  induction s as [|c s IH]; [reflexivity|]. cbn [all_cont str_count].
  intros [Hc Hs]%andb_true_iff. rewrite (is_cont_not_dot c Hc). now apply IH.
Qed.

(** No decimal digit has a dot among its bytes. *)
Lemma decimal_digit_no_dot (cp : string) (v : Z) :
  decimal_digit cp = Some v -> str_count "." cp = 0%nat.
Proof.
  intros Hv.
  destruct (is_codepoint_parts cp (decimal_digit_codepoint cp v Hv))
    as (a & conts & -> & Ha & Hc & Hascii).
  cbn [str_count]. rewrite (all_cont_no_dot _ Hc).
  destruct (Ascii.eqb_spec a ".") as [->|]; [|reflexivity].
  destruct Hascii as [Hhigh | ->]; [discriminate Hhigh | discriminate Hv].
Qed.

(** *** The matcher is sound for [re_sem] *)

Lemma re_match_sound {A : Type} (r : regex) :
  forall (s : string) (g : groups) (k : string -> string -> groups -> option A) (x : A),
    re_match r s g k = Some x ->
    exists a rest g', s = a +:+ rest /\ re_sem r a g g' /\ k a rest g' = Some x.
Proof.
  induction r as [c|lo hi| |r1 IH1 r2 IH2|r1 IH1 r2 IH2|name r IH]; intros s g k x H;
    cbn [re_match] in H.
  - destruct s as [|a rest]; [discriminate|]. cbn [re_step] in H.
    destruct (Ascii.eqb_spec a c) as [->|]; [|discriminate].
    exists (String c ""), rest, g. repeat split; [constructor | exact H].
  - destruct s as [|a rest]; [discriminate|]. cbn [re_step] in H.
    destruct (in_range lo hi a) eqn:E; [|discriminate].
    exists (String a ""), rest, g. repeat split; [now constructor | exact H].
  - unfold re_digit in H.
    destruct (cp_next s) as [[cp rest]|] eqn:E; [|discriminate].
    destruct (decimal_digit cp) as [v|] eqn:Ev; [|discriminate].
    apply cp_next_app in E as ->.
    exists cp, rest, g. repeat split; [now apply (sem_digit cp v) | exact H].
  - apply IH1 in H as (a1 & s1 & g1 & -> & Hs1 & H).
    apply IH2 in H as (a2 & s2 & g2 & -> & Hs2 & H).
    exists (a1 +:+ a2), s2, g2. split; [now rewrite append_assoc|].
    split; [econstructor; eassumption | exact H].
  - destruct (re_match r1 s g k) as [y|] eqn:E.
    + injection H as ->. apply IH1 in E as (a & rest & g' & -> & Hs & Hk).
      exists a, rest, g'. repeat split; [now apply sem_alt_l | exact Hk].
    + apply IH2 in H as (a & rest & g' & -> & Hs & Hk).
      exists a, rest, g'. repeat split; [now apply sem_alt_r | exact Hk].
  - apply IH in H as (a & rest & g' & -> & Hs & Hk).
    exists a, rest, ((name, a) :: g'). repeat split; [now constructor | exact Hk].
Qed.

(** *** Dots and code points of a match *)

Lemma re_sem_dotless (r : regex) (a : string) (g g' : groups) :
  re_sem r a g g' -> dotless r = true -> str_count "." a = 0%nat.
Proof.
  induction 1 as [c g|lo hi c g Hc|cp v g Hv|r1 r2 a1 a2 g g1 g2 _ IH1 _ IH2
                  |r1 r2 a g g' _ IH|r1 r2 a g g' _ IH|name r a g g' _ IH];
    cbn [dotless]; intros Hr.
  - cbn [str_count]. apply negb_true_iff in Hr. now rewrite Hr.
  - cbn [str_count]. destruct (Ascii.eqb_spec c ".") as [->|]; [|reflexivity].
    rewrite Hc in Hr. discriminate Hr.
  - exact (decimal_digit_no_dot cp v Hv).
  - apply andb_true_iff in Hr as [Hr1 Hr2].
    now rewrite str_count_app, IH1, IH2.
  - apply andb_true_iff in Hr as [Hr1 _]. now apply IH.
  - apply andb_true_iff in Hr as [_ Hr2]. now apply IH.
  - now apply IH.
Qed.

Lemma re_sem_length (r : regex) (a : string) (g g' : groups) :
  re_sem r a g g' -> ascii_pattern r = true ->
  (re_min r <= lead_count a <= re_max r)%nat.
Proof.
  induction 1 as [c g|lo hi c g Hc|cp v g Hv|r1 r2 a1 a2 g g1 g2 _ IH1 _ IH2
                  |r1 r2 a g g' _ IH|r1 r2 a g g' _ IH|name r a g g' _ IH];
    cbn [ascii_pattern re_min re_max]; intros Hr.
  - cbn [lead_count]. rewrite (ascii_not_cont c Hr). lia.
  - cbn [lead_count]. rewrite (ascii_not_cont c); [lia|].
    apply in_range_bounds in Hc. apply N.ltb_lt in Hr. apply N.ltb_lt. lia.
  - rewrite (is_codepoint_lead cp (decimal_digit_codepoint cp v Hv)). lia.
  - apply andb_true_iff in Hr as [Hr1 Hr2].
    rewrite lead_count_app. specialize (IH1 Hr1). specialize (IH2 Hr2). lia.
  - apply andb_true_iff in Hr as [Hr1 _]. specialize (IH Hr1). lia.
  - apply andb_true_iff in Hr as [_ Hr2]. specialize (IH Hr2). lia.
  - now apply IH.
Qed.

Lemma str_forall_app (p : ascii -> bool) (a b : string) :
  str_forall p (a +:+ b) = str_forall p a && str_forall p b.
Proof.
  induction a as [|x a IH]; [reflexivity|].
  change (str_forall p (String x (a +:+ b)) = str_forall p (String x a) && str_forall p b).
  cbn [str_forall]. rewrite IH. apply andb_assoc.
Qed.

Lemma is_cont_date_char (c : ascii) : is_cont c = true -> date_char c = true.
Proof.
  unfold is_cont, date_char. intros [H _]%andb_true_iff. rewrite H. apply orb_true_r.
Qed.

Lemma all_cont_date_chars (s : string) : all_cont s = true -> str_forall date_char s = true.
Proof.
  induction s as [|c s IH]; [reflexivity|]. cbn [all_cont str_forall].
  intros [Hc Hs]%andb_true_iff. rewrite (is_cont_date_char c Hc). now apply IH.
Qed.

(** An ASCII character that is a decimal digit is one of ['0'..'9']. *)
Lemma decimal_digit_ascii (a : ascii) :
  decimal_digit (String a "") <> None -> date_char a = true.
Proof.
  destruct a as [[] [] [] [] [] [] [] []]; vm_compute; intros H;
    try reflexivity; now contradiction H.
Qed.

Lemma decimal_digit_chars (cp : string) (v : Z) :
  decimal_digit cp = Some v -> str_forall date_char cp = true.
Proof.
  intros Hv.
  destruct (is_codepoint_parts cp (decimal_digit_codepoint cp v Hv))
    as (a & conts & -> & Ha & Hc & Hascii).
  cbn [str_forall]. rewrite (all_cont_date_chars _ Hc), andb_true_r.
  destruct Hascii as [Hhigh | ->].
  - unfold date_char. rewrite Hhigh. apply orb_true_r.
  - apply decimal_digit_ascii. now rewrite Hv.
Qed.

Lemma in_range_digits (lo hi c : ascii) :
  is_digit lo = true -> is_digit hi = true -> in_range lo hi c = true -> is_digit c = true.
Proof.
  unfold is_digit. intros Hlo Hhi Hc.
  apply in_range_bounds in Hlo, Hhi, Hc.
  unfold in_range. apply andb_true_iff. split; apply N.leb_le; lia.
Qed.

Lemma re_sem_chars (r : regex) (a : string) (g g' : groups) :
  re_sem r a g g' -> date_pattern r = true -> str_forall date_char a = true.
Proof.
  induction 1 as [c g|lo hi c g Hc|cp v g Hv|r1 r2 a1 a2 g g1 g2 _ IH1 _ IH2
                  |r1 r2 a g g' _ IH|r1 r2 a g g' _ IH|name r a g g' _ IH];
    cbn [date_pattern]; intros Hr.
  - cbn [str_forall]. now rewrite Hr.
  - apply andb_true_iff in Hr as [Hlo Hhi]. cbn [str_forall]. unfold date_char.
    now rewrite (in_range_digits lo hi c Hlo Hhi Hc).
  - exact (decimal_digit_chars cp v Hv).
  - apply andb_true_iff in Hr as [Hr1 Hr2].
    now rewrite str_forall_app, IH1, IH2.
  - apply andb_true_iff in Hr as [Hr1 _]. now apply IH.
  - apply andb_true_iff in Hr as [_ Hr2]. now apply IH.
  - now apply IH.
Qed.

Lemma date_regex_dots (a : string) (g g' : groups) :
  re_sem date_regex a g g' -> str_count "." a = 2%nat.
Proof.
  unfold date_regex. intros Hsem.
  inversion Hsem as [| | |r1 r2 D a1 g0 g1 g2 HD H1| | |]; subst; clear Hsem.
  inversion H1 as [| | |r1 r2 p1 a2 g0 g3 g2' Hp1 H2| | |]; subst; clear H1.
  inversion H2 as [| | |r1 r2 M a3 g0 g4 g2' HM H3| | |]; subst; clear H2.
  inversion H3 as [| | |r1 r2 p2 Y g0 g5 g2' Hp2 HY| | |]; subst; clear H3.
  inversion Hp1; subst; clear Hp1. inversion Hp2; subst; clear Hp2.
  rewrite !str_count_app.
  rewrite (re_sem_dotless _ _ _ _ HD), (re_sem_dotless _ _ _ _ HM),
    (re_sem_dotless _ _ _ _ HY) by reflexivity.
  reflexivity.
Qed.

(** A token that [strptime] accepts has exactly two dots and eight to
    ten code points, all of them characters of a dotted date, and its
    numbers are a calendar date. *)
Lemma strptime_dmy_shape (s : string) (dt : date) :
  strptime_dmy s = Some dt ->
  (str_count "." s = 2%nat /\ 8 <= str_len s <= 10 /\ str_forall date_char s = true) /\
  valid_date (dt_year dt) (dt_month dt) (dt_day dt) = true.
Proof.
  unfold strptime_dmy.
  destruct (re_match date_regex s [] _) as [[[a rest] found]|] eqn:E; [|discriminate].
  apply re_match_sound in E as (a' & rest' & g' & -> & Hsem & [= <- <- <-]).
  destruct (String.eqb_spec rest' "") as [->|]; [|discriminate]. cbn [negb].
  rewrite append_nil_r. intros H. split; [split; [|split]|].
  - exact (date_regex_dots _ _ _ Hsem).
  - rewrite str_len_lead.
    pose proof (re_sem_length _ _ _ _ Hsem eq_refl) as Hlen.
    change (re_min date_regex) with 8%nat in Hlen.
    change (re_max date_regex) with 10%nat in Hlen. lia.
  - exact (re_sem_chars _ _ _ _ Hsem eq_refl).
  - destruct (found_dict g' "Y"); [|discriminate].
    destruct (found_dict g' "m"); [|discriminate].
    destruct (found_dict g' "d"); [|discriminate].
    destruct (py_int _) as [year|]; [|discriminate].
    destruct (py_int _) as [month|]; [|discriminate].
    destruct (py_int _) as [day|]; [|discriminate].
    destruct (valid_date year month day) eqn:Hvalid; [|discriminate].
    injection H as <-. exact Hvalid.
Qed.

(** *** The matcher on tokens of the exact shape *)

Ltac run_cases :=
  vm_compute;
  try match goal with |- context [match ?F ?a ?b ?c ?d with _ => _ end] => destruct (F a b c d) end;
  reflexivity.

Lemma re_d_two {A : Type} (n : Z) (F : string -> string -> string -> groups -> option A)
    (rest : string) (g : groups) :
  0 <= n <= 99 ->
  re_match re_d (two_digits n +:+ String "." rest) g
    (fun a1 s1 g1 => re_step is_dot s1 g1 (F a1)) =
  if (1 <=? n) && (n <=? 31)
  then F (two_digits n) "." rest (("d", two_digits n) :: g) else None.
Proof. intros Hn. enum n 0 100%nat; run_cases. Qed.

Lemma re_m_two {A : Type} (n : Z) (F : string -> string -> string -> groups -> option A)
    (rest : string) (g : groups) :
  0 <= n <= 99 ->
  re_match re_m (two_digits n +:+ String "." rest) g
    (fun a1 s1 g1 => re_step is_dot s1 g1 (F a1)) =
  if (1 <=? n) && (n <=? 12)
  then F (two_digits n) "." rest (("m", two_digits n) :: g) else None.
Proof. intros Hn. enum n 0 100%nat; run_cases. Qed.

Lemma four_digits_chars (a b c d : Z) :
  0 <= a <= 9 -> 0 <= b <= 9 -> 0 <= c <= 9 -> 0 <= d <= 9 ->
  four_digits (1000 * a + 100 * b + 10 * c + d) =
    String (digit_char a) (String (digit_char b)
      (String (digit_char c) (String (digit_char d) ""))).
Proof.
  intros Ha Hb Hc Hd. unfold four_digits, two_digits.
  set (y := 1000 * a + 100 * b + 10 * c + d).
  assert (E1 : y / 100 / 10 = a) by (subst y; Z.div_mod_to_equations; lia).
  assert (E2 : (y / 100) mod 10 = b) by (subst y; Z.div_mod_to_equations; lia).
  assert (E3 : y mod 100 / 10 = c) by (subst y; Z.div_mod_to_equations; lia).
  assert (E4 : (y mod 100) mod 10 = d) by (subst y; Z.div_mod_to_equations; lia).
  rewrite E1, E2, E3, E4. reflexivity.
Qed.

Lemma digit_char_not_cont (n : Z) : 0 <= n <= 9 -> is_cont (digit_char n) = false.
Proof. intros Hn. enum n 0 10%nat; reflexivity. Qed.

Lemma decimal_digit_char (n : Z) :
  0 <= n <= 9 -> decimal_digit (String (digit_char n) "") = Some n.
Proof. intros Hn. enum n 0 10%nat; reflexivity. Qed.

Lemma take_conts_digit (n : Z) (r : string) :
  0 <= n <= 9 -> take_conts (String (digit_char n) r) = "".
Proof. intros Hn. cbn [take_conts]. now rewrite digit_char_not_cont. Qed.

(** [\d] on an ASCII digit that ends the token or that another code point
    follows. *)
Lemma re_digit_ascii {A : Type} (n : Z) (rest : string) (g : groups)
    (k : string -> string -> groups -> option A) :
  0 <= n <= 9 -> take_conts rest = "" ->
  re_digit (String (digit_char n) rest) g k = k (String (digit_char n) "") rest g.
Proof.
  intros Hn Hrest. unfold re_digit. cbn [cp_next].
  pose proof (take_drop_conts rest) as Hdrop. rewrite Hrest in Hdrop.
  change ("" +:+ drop_conts rest) with (drop_conts rest) in Hdrop.
  rewrite Hrest, Hdrop, decimal_digit_char by exact Hn. reflexivity.
Qed.

Lemma cp_build_digit (n : Z) (r : string) :
  0 <= n <= 9 ->
  cp_build (String (digit_char n) r) =
    ("", String (digit_char n) (fst (cp_build r)) :: snd (cp_build r)).
Proof.
  intros Hn. cbn [cp_build]. destruct (cp_build r) as [conts cps].
  now rewrite digit_char_not_cont.
Qed.

Lemma py_int_four (a b c d : Z) :
  0 <= a <= 9 -> 0 <= b <= 9 -> 0 <= c <= 9 -> 0 <= d <= 9 ->
  py_int (String (digit_char a) (String (digit_char b)
            (String (digit_char c) (String (digit_char d) "")))) =
    Some (1000 * a + 100 * b + 10 * c + d).
Proof.
  intros Ha Hb Hc Hd. unfold py_int. cbn [lstrip].
  rewrite (digit_char_not_blank a Ha). unfold codepoints.
  rewrite (cp_build_digit a), (cp_build_digit b), (cp_build_digit c), (cp_build_digit d)
    by assumption.
  cbn [cp_build fst snd int_digits].
  rewrite !decimal_digit_char by assumption.
  f_equal. lia.
Qed.

Lemma four_digits_split (year : Z) :
  0 <= year <= 9999 ->
  exists a b c d,
    (0 <= a <= 9 /\ 0 <= b <= 9 /\ 0 <= c <= 9 /\ 0 <= d <= 9) /\
    year = 1000 * a + 100 * b + 10 * c + d.
Proof.
  intros Hy.
  exists (year / 1000), (year / 100 mod 10), (year / 10 mod 10), (year mod 10).
  Z.div_mod_to_equations. lia.
Qed.

Ltac digit_var :=
  match goal with
  | H : is_digit ?c = true |- _ =>
      apply is_digit_char in H;
      let v := fresh "v" in
      let E := fresh "E" in
      destruct H as [H ?];
      remember (digit_val c) as v eqn:E in *; clear E; subst c
  end.

Lemma re_Y_four {A : Type} (year : Z) (F : string -> string -> groups -> option A)
    (g : groups) :
  0 <= year <= 9999 ->
  re_match re_Y (four_digits year) g F =
    F (four_digits year) "" (("Y", four_digits year) :: g).
Proof.
  intros Hy. destruct (four_digits_split year Hy) as (a & b & c & d & (Ha & Hb & Hc & Hd) & ->).
  rewrite (four_digits_chars a b c d) by assumption.
  unfold re_Y. cbn [re_match].
  rewrite (re_digit_ascii a) by (try assumption; now apply take_conts_digit).
  rewrite (re_digit_ascii b) by (try assumption; now apply take_conts_digit).
  rewrite (re_digit_ascii c) by (try assumption; now apply take_conts_digit).
  rewrite (re_digit_ascii d) by (try assumption; reflexivity).
  reflexivity.
Qed.

Lemma py_int_year (year : Z) : 0 <= year <= 9999 -> py_int (four_digits year) = Some year.
Proof.
  intros Hy. destruct (four_digits_split year Hy) as (a & b & c & d & (Ha & Hb & Hc & Hd) & ->).
  rewrite (four_digits_chars a b c d) by assumption. now apply py_int_four.
Qed.

Lemma py_int_two (n : Z) : 0 <= n <= 99 -> py_int (two_digits n) = Some n.
Proof. intros Hn. enum n 0 100%nat; reflexivity. Qed.

Lemma date_regex_unfold {A : Type} (s : string)
    (k : string -> string -> groups -> option A) :
  re_match date_regex s [] k =
  re_match re_d s []
    (fun a1 s1 g1 => re_step is_dot s1 g1
      ((fun a1 p1 s2 g2 => re_match re_m s2 g2
        (fun a3 s3 g3 => re_step is_dot s3 g3
          ((fun a3 p2 s4 g4 => re_match re_Y s4 g4
            (fun a5 s5 g5 => k (a1 +:+ (p1 +:+ (a3 +:+ (p2 +:+ a5)))) s5 g5)) a3))) a1)).
Proof. reflexivity. Qed.

Lemma days_in_month_le (year month : Z) : days_in_month year month <= 31.
Proof.
  unfold days_in_month.
  destruct (month =? 2); [destruct (is_leap year); lia|].
  destruct (_ || _); lia.
Qed.

Lemma valid_date_bounds (year month day : Z) :
  valid_date year month day = true ->
  1 <= year <= 9999 /\ 1 <= month <= 12 /\ 1 <= day <= 31.
Proof.
  unfold valid_date. intros H.
  pose proof (days_in_month_le year month).
  repeat (apply andb_true_iff in H as [H ?]). lia.
Qed.




Lemma strptime_dmy_exact (day month year : Z) :
  0 <= day <= 99 -> 0 <= month <= 99 -> 0 <= year <= 9999 ->
  strptime_dmy (ddmmyyyy day month year) =
    if valid_date year month day then Some (mkDate year month day) else None.
Proof.
  intros Hd Hm Hy.
  unfold strptime_dmy, ddmmyyyy. rewrite date_regex_unfold.
  change (two_digits day +:+ "." +:+ two_digits month +:+ "." +:+ four_digits year)
    with (two_digits day +:+ String "." (two_digits month +:+ String "." (four_digits year))).
  rewrite re_d_two by exact Hd.
  destruct ((1 <=? day) && (day <=? 31)) eqn:Ed.
  - cbv beta. rewrite re_m_two by exact Hm.
    destruct ((1 <=? month) && (month <=? 12)) eqn:Em.
    + cbv beta. rewrite re_Y_four by exact Hy.
      cbn [negb String.eqb found_dict Ascii.eqb Bool.eqb].
      rewrite (py_int_year year Hy), (py_int_two month Hm), (py_int_two day Hd).
      reflexivity.
    + destruct (valid_date year month day) eqn:Hvalid; [|reflexivity].
      apply valid_date_bounds in Hvalid. lia.
  - destruct (valid_date year month day) eqn:Hvalid; [|reflexivity].
    apply valid_date_bounds in Hvalid. lia.
Qed.




(** * Further properties of the pipeline *)

(** ** The view: outcomes of [id_detector] *)

(** The dump of [merge_card_data]: one write when a path is given, a log
    entry when the write fails, and the same record in every case. *)
Lemma merge_card_data_run (caps : Capabilities) (upper lower : option dict)
    (raw_upper : list string) (raw_lower : list pyval) (csv_path : option string)
    (tr : trace) :
  merge_card_data caps upper lower raw_upper raw_lower csv_path tr =
    (Ok (merged_record upper lower),
     match csv_path with
     | None | Some EmptyString => tr
     | Some path =>
         match cap_csv_write caps tr path (csv_rows (merged_record upper lower)) with
         | Ok _ => tr ++ [EvCsvWrite path (csv_rows (merged_record upper lower))]
         | Raise _ =>
             (tr ++ [EvCsvWrite path (csv_rows (merged_record upper lower))])
               ++ [EvLog "CSV write failed (non-fatal)"]
         end
     end).
Proof.
  unfold merge_card_data, merged_record.
  destruct csv_path as [[|c path]|]; try reflexivity.
  unfold bind, try_except, call, ret, log_exception.
  destruct (cap_csv_write caps tr _ _) as [[]|e]; reflexivity.
Qed.

Lemma id_detector_cases (caps : Capabilities) (request : Request) (tr : trace) :
  match extract caps request tr with
  | (Ok (inl response), tr1) => id_detector caps request tr = (Ok response, tr1)
  | (Ok (inr (upper_data, upper_raw, cnic_front, lower_data, lower_raw, cnic_back)), tr1) =>
      if validate_cnic cnic_front cnic_back then
        id_detector caps request tr =
          (Ok (success_response (merged_record (Some upper_data) (Some lower_data))
                 cnic_front cnic_back upper_raw lower_raw),
           snd (merge_card_data caps (Some upper_data) (Some lower_data)
                  upper_raw lower_raw (Some "IdCardData.csv") tr1))
      else id_detector caps request tr = (Ok (mismatch_response cnic_front cnic_back), tr1)
  | (Raise exc, tr1) =>
      id_detector caps request tr =
        (Ok (internal_error_response exc), tr1 ++ [EvLog "Unhandled error in id_detector"])
  end.
Proof.
  unfold id_detector, try_except, bind.
  destruct (extract caps request tr) as [[[response|[[[[[ud ur] cf] ld] lr] cb]]|exc] tr1];
    try reflexivity.
  destruct (validate_cnic cf cb); [|reflexivity].
  cbn [negb]. rewrite merge_card_data_run. reflexivity.
Qed.

(** The early responses of the extraction stages. *)
Lemma extract_early (caps : Capabilities) (request : Request) (tr tr1 : trace)
    (response : Response) :
  extract caps request tr = (Ok (inl response), tr1) ->
  response = missing_files_response \/ response = invalid_image_response \/
  response = no_face_response.
Proof.
  unfold extract, bind, ret, read_image_from_stream, call.
  repeat match goal with
  | |- context [match ?x with _ => _ end] => destruct x eqn:?
  end; intros [= <- <-]; auto.
Qed.

Lemma validate_cnic_true (front_cnic back_cnic : option string) :
  validate_cnic front_cnic back_cnic = true ->
  exists s, front_cnic = Some s /\ back_cnic = Some s.
Proof.
  destruct front_cnic as [f|], back_cnic as [b|]; simpl; try discriminate.
  intros ->%String.eqb_eq. now exists b.
Qed.

Lemma filter_quiet (P : event -> bool) (evs : list event) :
  Forall (fun ev => P ev = false) evs -> List.filter P evs = [].
Proof.
  induction 1 as [|ev evs Hev _ IH]; [reflexivity|].
  cbn [List.filter]. now rewrite Hev.
Qed.

(** [id_detector] never raises: every request gets a response, with one
    of five status codes, and [success] is set exactly on status 200. *)
Theorem id_detector_always_responds (caps : Capabilities) (request : Request) (tr : trace) :
  exists response,
    fst (id_detector caps request tr) = Ok response /\
    In (resp_status response) [200; 400; 406; 422; 500] /\
    (resp_success response = true <-> resp_status response = 200).
Proof.
  pose proof (id_detector_cases caps request tr) as H.
  destruct (extract caps request tr)
    as [[[response|[[[[[ud ur] cf] ld] lr] cb]]|exc] tr1] eqn:E.
  - exists response. rewrite H. split; [reflexivity|].
    apply extract_early in E as [-> | [-> | ->]]; cbn; intuition discriminate.
  - destruct (validate_cnic cf cb); rewrite H; eexists; (split; [reflexivity|]);
      cbn; intuition discriminate.
  - rewrite H. eexists. split; [reflexivity|]. cbn. intuition discriminate.
Qed.

(** The dump is attempted exactly for the accepted requests: a response
    with status 200 carries two equal identifiers and the merged record,
    and the execution has made one write attempt, of that record, to
    [IdCardData.csv].  When the file system accepts the write it is the
    last event; when the file system raises, the failure is logged after
    it and the response is the same.  With any other status no write has
    been attempted. *)
Theorem persisted_iff_accepted (caps : Capabilities) (request : Request) (tr : trace) :
  exists response evs,
    id_detector caps request tr = (Ok response, tr ++ evs) /\
    (resp_status response <> 200 -> List.filter is_persist evs = []) /\
    (resp_status response = 200 ->
       exists merged s upper_raw lower_raw,
         resp_data response = DataCard merged (Some s) (Some s) upper_raw lower_raw /\
         List.filter is_persist evs = [EvCsvWrite "IdCardData.csv" (csv_rows merged)] /\
         exists before after,
           evs = before ++ EvCsvWrite "IdCardData.csv" (csv_rows merged) :: after /\
           match cap_csv_write caps (tr ++ before) "IdCardData.csv" (csv_rows merged) with
           | Ok _ => after = []
           | Raise _ => after = [EvLog "CSV write failed (non-fatal)"]
           end).
Proof.
  pose proof (id_detector_cases caps request tr) as H.
  destruct (quiet_extract caps request tr) as (evs1 & Htr & Hevs1).
  apply filter_quiet in Hevs1.
  destruct (extract caps request tr)
    as [[[response|[[[[[ud ur] cf] ld] lr] cb]]|exc] tr1] eqn:E;
    cbn [snd] in Htr; subst tr1.
  - exists response, evs1. split; [exact H|]. split; [now intros _|].
    apply extract_early in E as [-> | [-> | ->]]; discriminate.
  - destruct (validate_cnic cf cb) eqn:Hv.
    + apply validate_cnic_true in Hv as (s & -> & ->).
      rewrite merge_card_data_run in H. cbn [snd] in H.
      destruct (cap_csv_write caps (tr ++ evs1) "IdCardData.csv"
                  (csv_rows (merged_record (Some ud) (Some ld)))) as [[]|e] eqn:Hw;
        rewrite <- ?app_assoc in H; eexists _, _; (split; [exact H|]);
        (split; [intros Hne; now contradiction Hne|]); intros _;
        eexists _, s, ur, lr; (split; [reflexivity|]);
        (split; [rewrite List.filter_app, Hevs1; reflexivity|]);
        exists evs1; eexists; (split; [reflexivity|]); rewrite Hw; reflexivity.
    + exists (mismatch_response cf cb), evs1. split; [exact H|].
      split; [now intros _ | discriminate].
  - rewrite <- app_assoc in H. eexists _, _. split; [exact H|].
    split; [|discriminate]. intros _.
    rewrite List.filter_app, Hevs1. reflexivity.
Qed.

(** A request without one of the two files is answered with
    [missing_files] before anything is read or called. *)
Theorem missing_files_rejected (caps : Capabilities) (request : Request) (tr : trace) :
  req_front_image request = None \/ req_back_image request = None ->
  id_detector caps request tr = (Ok missing_files_response, tr).
Proof.
  intros H. pose proof (id_detector_cases caps request tr) as Hc.
  unfold extract in Hc.
  destruct (req_front_image request), (req_back_image request);
    try exact Hc; destruct H; discriminate.
Qed.

Lemma missing_files_rejected_witness :
  id_detector (demo_caps "x") (mkRequest (Some "front") None) [] =
    (Ok missing_files_response, []).
Proof.
  apply (missing_files_rejected (demo_caps "x") (mkRequest (Some "front") None) []).
  right. reflexivity.
Defined.

(** When one of the uploads does not decode, both streams have been
    read, in order, and the answer is [invalid_image]; no face detection
    and no model is run. *)
Theorem undecodable_image_rejected (caps : Capabilities) (request : Request)
    (front_file back_file : upload) (tr : trace) :
  req_front_image request = Some front_file ->
  req_back_image request = Some back_file ->
  cap_read_image caps tr front_file = None \/
  cap_read_image caps (tr ++ [EvReadStream front_file]) back_file = None ->
  id_detector caps request tr =
    (Ok invalid_image_response, tr ++ [EvReadStream front_file; EvReadStream back_file]).
Proof.
  intros Hf Hb H. pose proof (id_detector_cases caps request tr) as Hc.
  unfold extract, bind, read_image_from_stream, call, ret in Hc.
  rewrite Hf, Hb in Hc.
  replace (tr ++ [EvReadStream front_file; EvReadStream back_file])
    with ((tr ++ [EvReadStream front_file]) ++ [EvReadStream back_file])
    by (now rewrite <- app_assoc).
  destruct (cap_read_image caps tr front_file),
           (cap_read_image caps (tr ++ [EvReadStream front_file]) back_file);
    try exact Hc; destruct H; discriminate.
Qed.

Lemma undecodable_image_rejected_witness :
  id_detector undecodable_caps demo_request [] =
    (Ok invalid_image_response, [EvReadStream "front"; EvReadStream "back"]).
Proof.
  apply (undecodable_image_rejected undecodable_caps demo_request "front" "back" []).
  - reflexivity.
  - reflexivity.
  - left. reflexivity.
Defined.

Lemma id_detector_always_responds_witness :
  fst (id_detector no_detector_caps demo_request []) =
    Ok (internal_error_response "model file not found").
Proof.
  destruct (id_detector_always_responds no_detector_caps demo_request [])
    as (response & Hrun & _).
  rewrite Hrun. vm_compute in Hrun. injection Hrun as <-. reflexivity.
Defined.

Lemma persisted_iff_accepted_witness :
  List.filter is_persist
    (snd (id_detector (demo_caps "000000000000123451234567100") demo_request [])) =
  [EvCsvWrite "IdCardData.csv"
     (csv_rows [("Name", PStr "Ali"); ("Guardian Name", PStr "Ahmed");
                ("Id Card Number", PStr "1234512345671"); ("Date Of Birth", PStr "010290");
                ("Date Of Issue", PStr "010120"); ("Date Of Expiry", PStr "010130")])].
Proof.
  destruct (persisted_iff_accepted (demo_caps "000000000000123451234567100") demo_request [])
    as (response & evs & Hrun & _ & Hyes).
  rewrite Hrun. cbn [snd app].
  assert (Hresp : fst (id_detector (demo_caps "000000000000123451234567100")
                         demo_request []) = Ok response) by now rewrite Hrun.
  vm_compute in Hresp. injection Hresp as <-.
  destruct Hyes as (merged & s & ur & lr & Hdata & Hfilter & _); [reflexivity|].
  rewrite Hfilter. injection Hdata as <- _ _ _. reflexivity.
Defined.

(** When no face is found on the front image the answer is
    [no_face_detected]; the detector, the reader and the barcode decoder
    are neither loaded nor called. *)
Theorem no_face_rejected (caps : Capabilities) (request : Request)
    (front_file back_file : upload) (front_image back_image front_gray : Image)
    (tr tr3 : trace) :
  req_front_image request = Some front_file ->
  req_back_image request = Some back_file ->
  cap_read_image caps tr front_file = Some front_image ->
  cap_read_image caps (tr ++ [EvReadStream front_file]) back_file = Some back_image ->
  to_grayscale caps front_image ((tr ++ [EvReadStream front_file]) ++ [EvReadStream back_file])
    = (Ok front_gray, tr3) ->
  cap_detectMultiScale caps tr3 front_gray = Ok [] ->
  exists evs,
    id_detector caps request tr = (Ok no_face_response, tr ++ evs) /\
    Forall (fun ev => is_model_call ev = false) evs.
Proof.
  intros Hf Hb Hfi Hbi Hgray Hfaces.
  pose proof (id_detector_cases caps request tr) as Hc.
  unfold extract, bind, read_image_from_stream, call, ret in Hc.
  rewrite Hf, Hb, Hfi, Hbi, Hgray, Hfaces in Hc. cbn in Hc.
  assert (Hev : exists evs3,
    tr3 = ((tr ++ [EvReadStream front_file]) ++ [EvReadStream back_file]) ++ evs3 /\
    Forall (fun ev => is_model_call ev = false) evs3).
  { unfold to_grayscale in Hgray. destruct front_image.
    - injection Hgray as _ <-. exists []. now rewrite app_nil_r.
    - unfold call in Hgray. injection Hgray as _ <-.
      eexists. split; [reflexivity|]. now repeat constructor. }
  destruct Hev as (evs3 & -> & Hevs3).
  exists ([EvReadStream front_file; EvReadStream back_file] ++ evs3 ++ [EvDetectFaces front_gray]).
  split.
  - rewrite Hc. f_equal. rewrite <- !app_assoc. reflexivity.
  - repeat constructor. apply Forall_app. split; [exact Hevs3 | now repeat constructor].
Qed.

Lemma no_face_rejected_witness :
  fst (id_detector (fixed_caps demo_boxes demo_reader [] []) demo_request []) =
    Ok no_face_response.
Proof.
  destruct (no_face_rejected (fixed_caps demo_boxes demo_reader [] []) demo_request
              "front" "back" demo_image demo_image demo_image []
              [EvReadStream "front"; EvReadStream "back"])
    as (evs & Hrun & _); [reflexivity..|].
  rewrite Hrun. reflexivity.
Defined.

(** The pass over the card regions has no handler of its own: when the
    detector cannot be loaded there, the request ends as an internal
    error that carries the text of the exception, and no text is read. *)
Theorem detector_failure_is_fatal (caps : Capabilities) (request : Request)
    (front_file back_file : upload) (front_image back_image front_gray : Image)
    (faces : list box) (exc : string) (tr tr3 : trace) :
  req_front_image request = Some front_file ->
  req_back_image request = Some back_file ->
  cap_read_image caps tr front_file = Some front_image ->
  cap_read_image caps (tr ++ [EvReadStream front_file]) back_file = Some back_image ->
  to_grayscale caps front_image ((tr ++ [EvReadStream front_file]) ++ [EvReadStream back_file])
    = (Ok front_gray, tr3) ->
  cap_detectMultiScale caps tr3 front_gray = Ok faces ->
  faces <> [] ->
  cap_get_yolo_model caps (tr3 ++ [EvDetectFaces front_gray]) = Raise exc ->
  id_detector caps request tr =
    (Ok (internal_error_response exc),
     tr3 ++ [EvDetectFaces front_gray; EvGetYolo; EvLog "Unhandled error in id_detector"]).
Proof.
  intros Hf Hb Hfi Hbi Hgray Hfaces Hne Hload.
  pose proof (id_detector_cases caps request tr) as Hc.
  unfold extract, bind, read_image_from_stream, call, ret in Hc.
  rewrite Hf, Hb, Hfi, Hbi, Hgray, Hfaces in Hc.
  destruct faces as [|b faces]; [contradiction|].
  replace (Z.of_nat (length (b :: faces)) =? 0) with false in Hc
    by (symmetry; apply Z.eqb_neq; simpl length; lia).
  unfold detect_card_regions, get_yolo_model, bind, call in Hc.
  rewrite Hload in Hc. rewrite Hc. f_equal. rewrite <- !app_assoc. reflexivity.
Qed.

Lemma detector_failure_is_fatal_witness :
  id_detector no_detector_caps demo_request [] =
    (Ok (internal_error_response "model file not found"),
     [EvReadStream "front"; EvReadStream "back"; EvDetectFaces demo_image; EvGetYolo;
      EvLog "Unhandled error in id_detector"]).
Proof.
  apply (detector_failure_is_fatal no_detector_caps demo_request "front" "back"
           demo_image demo_image demo_image [demo_face] "model file not found" []
           [EvReadStream "front"; EvReadStream "back"]);
    first [reflexivity | discriminate].
Defined.

(** ** The extraction stages *)

(** The three stages raise only when a loader raises: anything that
    fails after the loaders is caught inside the stage. *)
Theorem stages_raise_only_from_loaders (caps : Capabilities) (image : Image)
    (faces : list box) (tr : trace) (exc : string) :
  (fst (ocr_front_upper caps image faces tr) = Raise exc <->
     cap_get_yolo_model caps tr = Raise exc \/
     (cap_get_yolo_model caps tr = Ok tt /\
      cap_get_ocr_reader caps (tr ++ [EvGetYolo]) = Raise exc)) /\
  (fst (ocr_front_lower caps image faces tr) = Raise exc <->
     cap_get_ocr_reader caps tr = Raise exc) /\
  (fst (ocr_back_qr caps image tr) = Raise exc <->
     cap_get_yolo_model caps tr = Raise exc).
Proof.
  split; [|split].
  - unfold ocr_front_upper, bind, try_except, get_yolo_model, get_ocr_reader, call,
      log_exception, ret.
    destruct (cap_get_yolo_model caps tr) as [[]|e1]; cbn [fst].
    + destruct (cap_get_ocr_reader caps (tr ++ [EvGetYolo])) as [[]|e2]; cbn [fst].
      * split; [|intros [H|[_ H]]; discriminate].
        repeat match goal with
        | |- context [match ?x with _ => _ end] => destruct x eqn:?
        end; discriminate.
      * split; [intros [= ->]; now right
               | intros [H|[_ H]]; [discriminate | now injection H as ->]].
    + split; [intros [= ->]; now left
             | intros [H|[H _]]; [now injection H as -> | discriminate]].
  - unfold ocr_front_lower, bind, try_except, get_ocr_reader, call, log_exception, ret.
    destruct (cap_get_ocr_reader caps tr) as [[]|e1]; cbn [fst].
    + split; [|discriminate].
      repeat match goal with
      | |- context [match ?x with _ => _ end] => destruct x eqn:?
      end; discriminate.
    + split; intros [= ->]; reflexivity.
  - unfold ocr_back_qr, bind, try_except, get_yolo_model, call, log_exception, ret.
    destruct (cap_get_yolo_model caps tr) as [[]|e1]; cbn [fst].
    + split; [|discriminate].
      repeat match goal with
      | |- context [match ?x with _ => _ end] => destruct x eqn:?
      end; discriminate.
    + split; intros [= ->]; reflexivity.
Qed.

Lemma stages_raise_only_from_loaders_witness :
  fst (ocr_back_qr no_detector_caps demo_image []) = Raise "model file not found" /\
  fst (ocr_front_lower no_detector_caps demo_image [demo_face] []) <>
    Raise "model file not found".
Proof.
  pose proof (stages_raise_only_from_loaders no_detector_caps demo_image [demo_face] []
                "model file not found") as (_ & Hlower & Hqr).
  split.
  - apply (proj2 Hqr). reflexivity.
  - intros H. apply (proj1 Hlower) in H. discriminate H.
Defined.

(** A failure of the reader on the lower region is swallowed: the stage
    returns no identifier, no field and no text, and logs the failure. *)
Theorem reader_failure_degrades (caps : Capabilities) (front_gray : Image)
    (b : box) (faces : list box) (tr : trace) (exc : string) :
  cap_get_ocr_reader caps tr = Ok tt ->
  img_size (crop front_gray (lower_window b)) <> 0 ->
  cap_readtext caps (tr ++ [EvGetReader]) (crop front_gray (lower_window b)) = Raise exc ->
  ocr_front_lower caps front_gray (b :: faces) tr =
    (Ok (None, [], []),
     tr ++ [EvGetReader; EvReadText (crop front_gray (lower_window b));
            EvLog "ocr_front_lower failed"]).
Proof.
  intros Hreader Hsize Hread.
  unfold ocr_front_lower, bind, try_except, get_ocr_reader, readtext, call, ret,
    log_exception.
  rewrite Hreader.
  destruct (img_size (crop front_gray (lower_window b)) =? 0) eqn:E.
  - apply Z.eqb_eq in E. contradiction.
  - rewrite Hread. f_equal. now rewrite <- !app_assoc.
Qed.

Lemma reader_failure_degrades_witness :
  ocr_front_lower
    (mkCaps (fun _ _ => None) (fun _ img => Ok img) (fun _ _ => Ok []) (fun _ => Ok tt)
            (fun _ => Ok tt) (fun _ _ => Ok None) (fun _ img => Ok img)
            (fun _ _ => Raise "out of memory") (fun _ _ => Ok []) (fun _ _ _ => Ok tt))
    demo_image [demo_face] [] =
    (Ok (None, [], []),
     [EvGetReader; EvReadText (crop demo_image (lower_window demo_face));
      EvLog "ocr_front_lower failed"]).
Proof.
  apply (reader_failure_degrades _ demo_image demo_face [] [] "out of memory").
  - reflexivity.
  - vm_compute. discriminate.
  - reflexivity.
Defined.

Lemma upper_fields_spec (texts : list string) :
  (forall t0 t1 rest, texts = t0 :: t1 :: rest ->
     upper_fields texts = [("Name", PStr t0); ("Guardian Name", PStr t1)]) /\
  (forall t0, texts = [t0] -> upper_fields texts = [("Name", PStr t0)]) /\
  (texts = [] -> upper_fields texts = []).
Proof.
  split; [|split].
  - intros t0 t1 rest ->. unfold upper_fields.
    replace (2 <=? Z.of_nat (length (t0 :: t1 :: rest))) with true
      by (symmetry; apply Z.leb_le; simpl length; lia).
    reflexivity.
  - intros t0 ->. reflexivity.
  - intros ->. reflexivity.
Qed.

(** What [ocr_front_upper] returns once the reader has answered: the
    surviving texts of the upper region, and the field set that binds
    [Name] to the first and [Guardian Name] to the second; one survivor
    gives [Name] alone, none gives the empty field set. *)
Theorem upper_fields_positional (caps : Capabilities) (front_image gray_roi : Image)
    (b0 : box) (rest : list box) (tr tr4 : trace) (d : detection) (ds : list detection)
    (result : list token) :
  cap_get_yolo_model caps tr = Ok tt ->
  cap_get_ocr_reader caps (tr ++ [EvGetYolo]) = Ok tt ->
  cap_yolo caps ((tr ++ [EvGetYolo]) ++ [EvGetReader]) front_image = Ok (Some (d :: ds)) ->
  img_size (crop front_image (upper_window (List.last (b0 :: rest) b0))) <> 0 ->
  to_grayscale caps (crop front_image (upper_window (List.last (b0 :: rest) b0)))
    (((tr ++ [EvGetYolo]) ++ [EvGetReader]) ++ [EvYolo front_image]) = (Ok gray_roi, tr4) ->
  cap_readtext caps tr4 gray_roi = Ok result ->
  exists data,
    ocr_front_upper caps front_image (b0 :: rest) tr =
      (Ok (data, survivors _COMMON_FRONT result), tr4 ++ [EvReadText gray_roi]) /\
    (forall t0 t1 more, survivors _COMMON_FRONT result = t0 :: t1 :: more ->
       data = [("Name", PStr t0); ("Guardian Name", PStr t1)]) /\
    (forall t0, survivors _COMMON_FRONT result = [t0] -> data = [("Name", PStr t0)]) /\
    (survivors _COMMON_FRONT result = [] -> data = []).
Proof.
  intros Hyolo Hreader Hboxes Hsize Hgray Hread.
  exists (upper_fields (survivors _COMMON_FRONT result)).
  split; [|apply upper_fields_spec].
  unfold ocr_front_upper, bind, try_except, get_yolo_model, get_ocr_reader, yolo,
    readtext, call, ret.
  rewrite Hyolo, Hreader, Hboxes.
  replace (Z.of_nat (length (b0 :: rest)) =? 0) with false
    by (symmetry; apply Z.eqb_neq; simpl length; lia).
  rewrite (upper_roi_loop_last front_image None b0 rest b0).
  destruct (img_size _ =? 0) eqn:E; [apply Z.eqb_eq in E; contradiction|].
  rewrite Hgray, Hread, filter_tokens_survivors. reflexivity.
Qed.

Lemma upper_fields_positional_witness :
  ocr_front_upper (demo_caps "x") demo_image [demo_face] [] =
    (Ok ([("Name", PStr "Ali"); ("Guardian Name", PStr "Ahmed")], ["Ali"; "Ahmed"]),
     [EvGetYolo; EvGetReader; EvYolo demo_image;
      EvReadText (crop demo_image (upper_window demo_face))]).
Proof.
  destruct (upper_fields_positional (demo_caps "x") demo_image
              (crop demo_image (upper_window demo_face)) demo_face [] []
              [EvGetYolo; EvGetReader; EvYolo demo_image]
              (mkDetection (0, 0, 8, 120) 900 0) [] demo_upper_tokens)
    as (data & Hrun & Htwo & _).
  - reflexivity.
  - reflexivity.
  - reflexivity.
  - vm_compute. discriminate.
  - reflexivity.
  - reflexivity.
  - rewrite Hrun, (Htwo "Ali" "Ahmed" []) by (vm_compute; reflexivity).
    vm_compute. reflexivity.
Defined.

(** ** The identifier of the back side *)

Lemma all_cont_app (a b : string) :
  all_cont a = true -> all_cont b = true -> all_cont (a +:+ b) = true.
Proof.
  induction a as [|x a IH]; [trivial|].
  change (all_cont (String x a) = true -> all_cont b = true ->
          all_cont (String x (a +:+ b)) = true).
  cbn [all_cont]. intros [Hx Ha]%andb_true_iff Hb. rewrite Hx. now apply IH.
Qed.

(** The code points that [cp_build] makes are whole. *)
Lemma cp_build_groups (s : string) :
  all_cont (fst (cp_build s)) = true /\
  Forall (fun g => is_group g = true) (snd (cp_build s)).
Proof.
  induction s as [|a r [IH1 IH2]]; [split; [reflexivity | constructor]|].
  cbn [cp_build]. destruct (cp_build r) as [conts cps]. cbn [fst snd] in IH1, IH2.
  destruct (is_cont a) eqn:Ea; cbn [fst snd].
  - split; [|exact IH2]. cbn [all_cont]. now rewrite Ea.
  - split; [reflexivity|]. constructor; [|exact IH2].
    cbn [is_group]. now rewrite Ea.
Qed.

Lemma cp_build_conts (conts rest : string) :
  all_cont conts = true ->
  cp_build (conts +:+ rest) = (conts +:+ fst (cp_build rest), snd (cp_build rest)).
Proof.
  induction conts as [|c conts IH]; intros H.
  - change (cp_build rest = (fst (cp_build rest), snd (cp_build rest))).
    now destruct (cp_build rest).
  - cbn [all_cont] in H. apply andb_true_iff in H as [Hc H].
    change (cp_build (String c (conts +:+ rest)) =
            (String c (conts +:+ fst (cp_build rest)), snd (cp_build rest))).
    cbn [cp_build]. rewrite (IH H), Hc. reflexivity.
Qed.

Lemma cp_build_join (gs : list string) :
  Forall (fun g => is_group g = true) gs -> cp_build (str_join gs) = ("", gs).
Proof.
  induction 1 as [|g gs Hg _ IH]; [reflexivity|].
  destruct g as [|a conts]; [discriminate|]. cbn [is_group] in Hg.
  apply andb_true_iff in Hg as [Ha Hc]. apply negb_true_iff in Ha.
  change (cp_build (String a (conts +:+ str_join gs)) = ("", String a conts :: gs)).
  cbn [cp_build]. rewrite (cp_build_conts _ _ Hc), IH, Ha. cbn [fst snd].
  now rewrite append_nil_r.
Qed.

(** Joining code points of a string gives a string with these code
    points. *)
Lemma codepoints_join (gs : list string) :
  Forall (fun g => is_group g = true) gs -> codepoints (str_join gs) = gs.
Proof. intros H. unfold codepoints. now rewrite cp_build_join. Qed.

Lemma py_slice_12_25 {A : Type} (l : list A) : py_slice l 12 25 = take 13 (drop 12 l).
Proof.
  unfold py_slice, slice_bound. cbn [Z.ltb Z.compare].
  destruct (Z.le_gt_cases 25 (Z.of_nat (length l))) as [H|H].
  - rewrite !Z.min_l by lia. reflexivity.
  - destruct (Z.le_gt_cases 12 (Z.of_nat (length l))) as [H'|H'].
    + rewrite (Z.min_l 12), (Z.min_r 25) by lia.
      change (Z.to_nat 12) with 12%nat.
      rewrite !take_ge; [reflexivity | |]; rewrite length_drop; lia.
    + rewrite !Z.min_r by lia.
      replace (Z.to_nat (Z.of_nat (length l) - Z.of_nat (length l))) with 0%nat by lia.
      rewrite (drop_ge l 12) by lia. reflexivity.
Qed.

Lemma str_slice_12_25 (raw : string) :
  codepoints (str_slice raw 12 25) = take 13 (drop 12 (codepoints raw)).
Proof.
  unfold str_slice. rewrite py_slice_12_25. apply codepoints_join.
  apply Forall_take, Forall_drop. apply cp_build_groups.
Qed.

(** With a decoded payload [raw], the back identifier is [raw[12:25]]:
    the code points 12 to 24 of [raw], at most 13 of them; a payload of
    12 code points or fewer gives the empty identifier, not [None]. *)
Theorem back_identifier_slice (caps : Capabilities) (back_roi gray : Image)
    (tr tr3 : trace) (boxes : option (list detection)) (raw : string)
    (more : list (outcome string)) :
  cap_get_yolo_model caps tr = Ok tt ->
  cap_yolo caps (tr ++ [EvGetYolo]) back_roi = Ok boxes ->
  to_grayscale caps back_roi ((tr ++ [EvGetYolo]) ++ [EvYolo back_roi]) = (Ok gray, tr3) ->
  cap_qr_decode caps tr3 gray = Ok (Ok raw :: more) ->
  exists cnic,
    ocr_back_qr caps back_roi tr = (Ok (Some cnic), tr3 ++ [EvQrDecode gray]) /\
    cnic = str_join (take 13 (drop 12 (codepoints raw))) /\
    codepoints cnic = take 13 (drop 12 (codepoints raw)) /\
    str_len cnic = Z.min 13 (Z.max 0 (str_len raw - 12)) /\
    (str_len raw <= 12 -> cnic = "").
Proof.
  intros Hyolo Hboxes Hgray Hqr.
  exists (str_slice raw 12 25). split; [|split; [|split; [|split]]].
  - unfold ocr_back_qr, bind, try_except, get_yolo_model, yolo, qr_decode, call, ret.
    rewrite Hyolo, Hboxes, Hgray, Hqr. reflexivity.
  - unfold str_slice. now rewrite py_slice_12_25.
  - apply str_slice_12_25.
  - unfold str_len. rewrite str_slice_12_25, length_take, length_drop. lia.
  - unfold str_len, str_slice. intros Hlen.
    rewrite py_slice_12_25, (drop_ge _ 12) by lia. reflexivity.
Qed.

Lemma back_identifier_slice_witness :
  ocr_back_qr (demo_caps "000000000000123451234567100") demo_image [] =
    (Ok (Some "1234512345671"), [EvGetYolo; EvYolo demo_image; EvQrDecode demo_image]).
Proof.
  destruct (back_identifier_slice (demo_caps "000000000000123451234567100")
              demo_image demo_image [] [EvGetYolo; EvYolo demo_image] demo_boxes
              "000000000000123451234567100" [])
    as (cnic & Hrun & _); [reflexivity..|].
  rewrite Hrun. vm_compute in Hrun. injection Hrun as <-. reflexivity.
Defined.

(** The slice counts code points, not bytes: a payload with a character
    of three bytes. *)
Example back_slice_code_points :
  str_len "ab€cdefghijklmnopqrstuvwxyz0123" = 31 /\
  str_slice "ab€cdefghijklmnopqrstuvwxyz0123" 12 25 = "lmnopqrstuvwx".
Proof. split; reflexivity. Qed.

(** The back stage runs the detector before the decoder and does not use
    its answer; when the detector fails on the back image, the decoder
    is never called and the stage returns no identifier. *)
Theorem back_stage_needs_detector (caps : Capabilities) (back_roi : Image)
    (tr : trace) (exc : string) :
  cap_get_yolo_model caps tr = Ok tt ->
  cap_yolo caps (tr ++ [EvGetYolo]) back_roi = Raise exc ->
  ocr_back_qr caps back_roi tr =
    (Ok None, tr ++ [EvGetYolo; EvYolo back_roi; EvLog "ocr_back_qr failed"]).
Proof.
  intros Hyolo Hboxes.
  unfold ocr_back_qr, bind, try_except, get_yolo_model, yolo, call, ret, log_exception.
  rewrite Hyolo, Hboxes. f_equal. now rewrite <- !app_assoc.
Qed.

Lemma back_stage_needs_detector_witness :
  ocr_back_qr
    (mkCaps (fun _ _ => None) (fun _ img => Ok img) (fun _ _ => Ok []) (fun _ => Ok tt)
            (fun _ => Ok tt) (fun _ _ => Raise "inference failed") (fun _ img => Ok img)
            (fun _ _ => Ok []) (fun _ _ => Ok [Ok "000000000000123451234567100"])
            (fun _ _ _ => Ok tt))
    demo_image [] =
    (Ok None, [EvGetYolo; EvYolo demo_image; EvLog "ocr_back_qr failed"]).
Proof.
  apply (back_stage_needs_detector _ demo_image [] "inference failed"); reflexivity.
Defined.

(** ** Regions outside the image *)

Lemma py_slice_no_width {A : Type} (l : list A) (a b : Z) :
  0 <= b <= a -> py_slice l a b = [].
Proof.
  intros H. unfold py_slice, slice_bound.
  replace (a <? 0) with false by (symmetry; apply Z.ltb_ge; lia).
  replace (b <? 0) with false by (symmetry; apply Z.ltb_ge; lia).
  replace (Z.to_nat (Z.min b (Z.of_nat (length l)) - Z.min a (Z.of_nat (length l))))
    with 0%nat by lia.
  reflexivity.
Qed.

Lemma py_slice_beyond {A : Type} (l : list A) (a b : Z) :
  Z.of_nat (length l) <= a -> py_slice l a b = [].
Proof.
  intros H. unfold py_slice, slice_bound.
  replace (a <? 0) with false by (symmetry; apply Z.ltb_ge; lia).
  rewrite drop_ge by lia. now rewrite take_nil.
Qed.

Lemma hd_map_nil {A B : Type} (f : list A -> list B) (l : list (list A)) :
  (forall r, f r = []) -> hd [] (map f l) = [].
Proof. intros Hf. destruct l as [|r l]; [reflexivity | apply Hf]. Qed.

Lemma crop_no_columns (image : Image) (w : window) :
  0 <= w_right w <= w_left w -> img_size (crop image w) = 0.
Proof.
  intros H. destruct image as [rows|rows]; cbn [crop img_size];
    rewrite hd_map_nil by (intros r; now apply py_slice_no_width);
    cbn [length]; lia.
Qed.

Lemma crop_no_rows (image : Image) (w : window) :
  Z.of_nat (img_height image) <= w_top w -> img_size (crop image w) = 0.
Proof.
  intros H. destruct image as [rows|rows]; cbn [crop img_size img_height] in *;
    rewrite py_slice_beyond by exact H; reflexivity.
Qed.

(** An anchor within 15 pixels of the left edge, or one whose lower
    window starts past the last row of the image ([y + 110] is at least
    the height), leaves nothing to read: the lower stage returns no
    identifier and no field, and the reader is not called. *)
Theorem lower_region_outside (caps : Capabilities) (front_gray : Image)
    (x y w h : Z) (faces : list box) (tr : trace) :
  cap_get_ocr_reader caps tr = Ok tt ->
  x <= 15 \/ Z.of_nat (img_height front_gray) <= y + 110 ->
  ocr_front_lower caps front_gray ((x, y, w, h) :: faces) tr =
    (Ok (None, [], []), tr ++ [EvGetReader]).
Proof.
  intros Hreader Hout.
  assert (Hsize : img_size (crop front_gray (lower_window (x, y, w, h))) = 0).
  { destruct Hout as [Hx|Hy].
    - apply crop_no_columns. cbn. lia.
    - apply crop_no_rows. cbn. lia. }
  unfold ocr_front_lower, bind, try_except, get_ocr_reader, call, ret.
  rewrite Hreader, Hsize. reflexivity.
Qed.

Lemma lower_region_outside_witness :
  ocr_front_lower (demo_caps "x") demo_image [(12, 0, 40, 40)] [] =
    (Ok (None, [], []), [EvGetReader]) /\
  ocr_front_lower (demo_caps "x") demo_image [(20, 30, 40, 40)] [] =
    (Ok (None, [], []), [EvGetReader]).
Proof.
  split.
  - apply (lower_region_outside (demo_caps "x") demo_image 12 0 40 40 [] []);
      [reflexivity | left; lia].
  - apply (lower_region_outside (demo_caps "x") demo_image 20 30 40 40 [] []);
      [reflexivity | right; vm_compute; discriminate].
Defined.

(** The bound is sharp: a lower window that starts at the last row has
    one row, and the reader is called on it. *)
Example lower_region_last_row :
  img_size (crop demo_image (lower_window (20, 9, 40, 40))) = 5 /\
  snd (ocr_front_lower (demo_caps "x") demo_image [(20, 9, 40, 40)] []) =
    [EvGetReader; EvReadText (crop demo_image (lower_window (20, 9, 40, 40)))].
Proof. split; reflexivity. Qed.

(** ** The shape of the identifiers *)

(** Removing a character that is a code point of its own removes as
    many code points as occurrences. *)
Lemma str_remove_length (c : ascii) (s : string) :
  is_cont c = false ->
  (lead_count (str_remove c s) <= lead_count s)%nat /\
  (str_contains c s = true -> (lead_count (str_remove c s) < lead_count s)%nat).
Proof.
  intros Hc.
  induction s as [|a s [IH1 IH2]]; cbn [str_remove str_contains lead_count].
  - split; [lia | discriminate].
  - destruct (Ascii.eqb_spec a c) as [->|Hne]; cbn [orb lead_count].
    + rewrite Hc. split; [lia | intros _; lia].
    + destruct (is_cont a); (split; [lia | intros H; apply IH2 in H; lia]).
Qed.

Lemma find_cnic_shape (result : list token) (cnic : string) :
  find_cnic None result = Some cnic ->
  str_contains "-" cnic = false /\ str_len cnic <= 14.
Proof.
  induction result as [|det rest IH]; cbn [find_cnic]; [discriminate|].
  destruct (str_contains "-" (tok_text det)) eqn:Hdash; cbn [andb]; [|exact IH].
  destruct (str_len (tok_text det) =? 15) eqn:Hlen; [|exact IH].
  intros [= <-]. split; [apply str_remove_contains|].
  apply Z.eqb_eq in Hlen. rewrite str_len_lead in Hlen |- *.
  pose proof (proj2 (str_remove_length "-" (tok_text det) eq_refl) Hdash). lia.
Qed.

Lemma identifier_shapes_lemma (caps : Capabilities) (image : Image) (faces : list box)
    (tr : trace) (cnic : string) :
  (forall data texts,
     fst (ocr_front_lower caps image faces tr) = Ok (Some cnic, data, texts) ->
     str_contains "-" cnic = false /\ str_len cnic <= 14) /\
  (fst (ocr_back_qr caps image tr) = Ok (Some cnic) -> str_len cnic <= 13).
Proof.
  split.
  - intros data texts.
    unfold ocr_front_lower, bind, try_except, get_ocr_reader, readtext, call, ret,
      log_exception.
    destruct (cap_get_ocr_reader caps tr) as [[]|e]; [|discriminate].
    destruct faces as [|b faces]; [discriminate|].
    destruct (img_size _ =? 0); [discriminate|].
    destruct (cap_readtext caps _ _) as [result|e]; [|discriminate].
    cbn [fst]. intros [= Hc _ _]. now apply find_cnic_shape in Hc.
  - unfold ocr_back_qr, bind, try_except, get_yolo_model, yolo, qr_decode, call, ret,
      log_exception.
    destruct (cap_get_yolo_model caps tr) as [[]|e]; [|discriminate].
    destruct (cap_yolo caps _ _) as [boxes|e]; [|discriminate].
    destruct (to_grayscale caps image _) as [[gray|e] tr3]; [|discriminate].
    destruct (cap_qr_decode caps _ _) as [[|[raw|e] more]|e]; try discriminate.
    cbn [fst]. intros [= <-]. unfold str_len.
    rewrite str_slice_12_25, length_take. lia.
Qed.

(** In every execution, a front identifier has no dash and at most 14
    characters (code points), and a back identifier has at most 13
    characters. *)
Theorem identifier_shapes (caps : Capabilities) (image : Image) (faces : list box)
    (tr : trace) (cnic : string) :
  (forall data texts,
     fst (ocr_front_lower caps image faces tr) = Ok (Some cnic, data, texts) ->
     str_contains "-" cnic = false /\ str_len cnic <= 14) /\
  (fst (ocr_back_qr caps image tr) = Ok (Some cnic) -> str_len cnic <= 13).
Proof. apply identifier_shapes_lemma. Qed.

Lemma identifier_shapes_witness :
  str_contains "-" "1234512345671" = false /\ str_len "1234512345671" <= 14.
Proof.
  apply (proj1 (identifier_shapes (fixed_caps None (fun _ => demo_lower_tokens) [] [demo_face])
                  demo_image [demo_face] [] "1234512345671")
           (lower_fields (lower_texts demo_lower_tokens)) (lower_texts demo_lower_tokens)).
  vm_compute. reflexivity.
Defined.

(** The identifiers that reach the cross-validation are those of the
    lower and of the back stage. *)
Lemma extract_identifiers (caps : Capabilities) (request : Request) (tr tr1 : trace)
    (upper_data lower_data : dict) (upper_raw : list string) (lower_raw : list pyval)
    (cnic_front cnic_back : option string) :
  extract caps request tr =
    (Ok (inr (upper_data, upper_raw, cnic_front, lower_data, lower_raw, cnic_back)), tr1) ->
  exists front_gray faces tra back_roi trb,
    fst (ocr_front_lower caps front_gray faces tra) = Ok (cnic_front, lower_data, lower_raw) /\
    fst (ocr_back_qr caps back_roi trb) = Ok cnic_back.
Proof.
  unfold extract, bind, ret, read_image_from_stream, call.
  repeat match goal with
  | |- context [match ?x with _ => _ end] => destruct x eqn:?
  end; intros H; simplify_eq.
  repeat match goal with
  | H : ocr_front_lower _ _ _ _ = _ |- _ => apply (f_equal fst) in H; cbn [fst] in H
  | H : ocr_back_qr _ _ _ = _ |- _ => apply (f_equal fst) in H; cbn [fst] in H
  end.
  eexists _, _, _, _, _. split; [|eassumption].
  match goal with
  | H : fst (ocr_front_lower _ _ _ _) = Ok ?p |- _ => rewrite H; now destruct p as [[? ?] ?]
  end.
Qed.

(** An accepted response carries the same identifier twice, and this
    identifier has no dash and at most 13 characters. *)
Theorem accepted_identifier (caps : Capabilities) (request : Request) (tr tr' : trace)
    (response : Response) (merged : dict) (front_cnic back_cnic : option string)
    (upper_raw : list string) (lower_raw : list pyval) :
  id_detector caps request tr = (Ok response, tr') ->
  resp_data response = DataCard merged front_cnic back_cnic upper_raw lower_raw ->
  exists s,
    front_cnic = Some s /\ back_cnic = Some s /\
    str_contains "-" s = false /\ str_len s <= 13.
Proof.
  intros Hrun Hdata.
  pose proof (id_detector_cases caps request tr) as Hc.
  destruct (extract caps request tr)
    as [[[early|[[[[[ud ur] cf] ld] lr] cb]]|exc] tr1] eqn:E.
  - rewrite Hc in Hrun. injection Hrun as <- _.
    apply extract_early in E as [-> | [-> | ->]]; discriminate.
  - destruct (validate_cnic cf cb) eqn:Hv; rewrite Hc in Hrun; injection Hrun as <- _;
      [|discriminate].
    injection Hdata as _ <- <- _ _.
    apply validate_cnic_true in Hv as (s & -> & ->).
    apply extract_identifiers in E as (fg & faces & tra & back_roi & trb & Hfront & Hback).
    exists s. split; [reflexivity|]. split; [reflexivity|].
    split.
    + exact (proj1 (proj1 (identifier_shapes_lemma caps fg faces tra s) _ _ Hfront)).
    + exact (proj2 (identifier_shapes_lemma caps back_roi faces trb s) Hback).
  - rewrite Hc in Hrun. injection Hrun as <- _. discriminate.
Qed.

Lemma accepted_identifier_witness :
  str_contains "-" "1234512345671" = false /\ str_len "1234512345671" <= 13.
Proof.
  destruct (accepted_identifier (demo_caps "000000000000123451234567100") demo_request []
           (snd (id_detector (demo_caps "000000000000123451234567100") demo_request []))
           (success_response
              [("Name", PStr "Ali"); ("Guardian Name", PStr "Ahmed");
               ("Id Card Number", PStr "1234512345671"); ("Date Of Birth", PStr "010290");
               ("Date Of Issue", PStr "010120"); ("Date Of Expiry", PStr "010130")]
              (Some "1234512345671") (Some "1234512345671") ["Ali"; "Ahmed"]
              [PStr "1234512345671"; PStr "010290"; PStr "010120"; PStr "010130"])
           [("Name", PStr "Ali"); ("Guardian Name", PStr "Ahmed");
            ("Id Card Number", PStr "1234512345671"); ("Date Of Birth", PStr "010290");
            ("Date Of Issue", PStr "010120"); ("Date Of Expiry", PStr "010130")]
           (Some "1234512345671") (Some "1234512345671") ["Ali"; "Ahmed"]
           [PStr "1234512345671"; PStr "010290"; PStr "010120"; PStr "010130"])
    as (s & [= <-] & _ & Hdash & Hlen).
  - vm_compute. reflexivity.
  - reflexivity.
  - split; [exact Hdash | exact Hlen].
Defined.

(** ** Date normalization: further properties *)

Lemma is_digit_not_dot (c : ascii) : is_digit c = true -> Ascii.eqb c "." = false.
Proof.
  intros H. digit_var.
  match goal with
  | |- Ascii.eqb (digit_char ?v) _ = _ => enum v 0 10%nat; reflexivity
  end.
Qed.

Lemma ddmmyy_digits (day month year : Z) :
  0 <= day <= 99 -> 0 <= month <= 99 -> 0 <= year ->
  exists c1 c2 c3 c4 c5 c6,
    ddmmyy day month year =
      String c1 (String c2 (String c3 (String c4 (String c5 (String c6 ""))))) /\
    Forall (fun c => is_digit c = true) [c1; c2; c3; c4; c5; c6].
Proof.
  intros Hd Hm Hy. unfold ddmmyy, two_digits. eexists _, _, _, _, _, _.
  split; [reflexivity|].
  repeat constructor; apply digit_char_is_digit; Z.div_mod_to_equations; lia.
Qed.

Lemma strftime_not_parsed (dt : date) :
  valid_date (dt_year dt) (dt_month dt) (dt_day dt) = true ->
  strptime_dmy (strftime_dmy dt) = None.
Proof.
  intros Hv. apply valid_date_bounds in Hv as (Hy & Hm & Hd).
  destruct (strptime_dmy (strftime_dmy dt)) as [dt'|] eqn:E; [|reflexivity].
  apply strptime_dmy_shape in E as [[Htext _] _].
  destruct (ddmmyy_digits (dt_day dt) (dt_month dt) (dt_year dt))
    as (c1 & c2 & c3 & c4 & c5 & c6 & Heq & Hdig); [lia..|].
  change (strftime_dmy dt) with (ddmmyy (dt_day dt) (dt_month dt) (dt_year dt)) in Htext.
  rewrite Heq in Htext. cbn [str_count] in Htext.
  repeat match goal with
  | H : Forall _ (_ :: _) |- _ => apply Forall_cons in H as [?%is_digit_not_dot H]
  end.
  repeat match goal with
  | H : Ascii.eqb _ "." = false |- _ => rewrite H in Htext; clear H
  end.
  discriminate Htext.
Qed.

(** Normalizing twice is normalizing once: a rewritten token has no dot
    left, so it is not read as a date again. *)
Theorem convert_dates_idempotent (elements : list pyval) :
  _convert_dates (_convert_dates elements) = _convert_dates elements.
Proof.
  rewrite !convert_dates_map, map_map. apply map_ext. intros [s|n|]; [|reflexivity..].
  destruct (strptime_dmy s) as [dt|] eqn:E.
  - assert (H1 : convert_date (PStr s) = PStr (strftime_dmy dt))
      by (unfold convert_date; now rewrite E).
    rewrite H1. apply strptime_dmy_shape in E as [_ Hv].
    unfold convert_date. now rewrite (strftime_not_parsed dt Hv).
  - assert (H1 : convert_date (PStr s) = PStr s)
      by (unfold convert_date; now rewrite E).
    rewrite H1. exact H1.
Qed.

(** A token that the normalization changes becomes six decimal digits. *)
Theorem rewritten_token_six_digits (s t : string) :
  convert_date (PStr s) = PStr t -> t <> s ->
  String.length t = 6%nat /\ forall c, str_contains c t = true -> is_digit c = true.
Proof.
  unfold convert_date. destruct (strptime_dmy s) as [dt|] eqn:E; [|congruence].
  intros [= <-] _. apply strptime_dmy_shape in E as [_ Hv].
  apply valid_date_bounds in Hv as (Hy & Hm & Hd).
  destruct (ddmmyy_digits (dt_day dt) (dt_month dt) (dt_year dt))
    as (c1 & c2 & c3 & c4 & c5 & c6 & Heq & Hdig); [lia..|].
  change (strftime_dmy dt) with (ddmmyy (dt_day dt) (dt_month dt) (dt_year dt)).
  rewrite Heq. split; [reflexivity|].
  intros c. cbn [str_contains]. rewrite !orb_true_iff.
  repeat match goal with
  | H : Forall _ (_ :: _) |- _ => apply Forall_cons in H as [? H]
  end.
  intros Hin. decompose [or] Hin; try discriminate;
    match goal with
    | Hc : Ascii.eqb _ c = true |- _ =>
        apply Ascii.eqb_eq in Hc; subst c; assumption
    end.
Qed.

Lemma rewritten_token_six_digits_witness :
  String.length "010230" = 6%nat /\
  forallb is_digit (list_ascii_of_string "010230") = true.
Proof.
  destruct (rewritten_token_six_digits "1.2.2030" "010230") as [Hlen Hdig].
  - reflexivity.
  - discriminate.
  - split; [exact Hlen | reflexivity].
Defined.

Lemma append_inj_l (a b c : string) : a +:+ b = a +:+ c -> b = c.
Proof.
  induction a as [|x a IH]; [trivial|].
  change (String x (a +:+ b) = String x (a +:+ c) -> b = c).
  intros [= H]. now apply IH.
Qed.

(** The compact form keeps two digits of the year: the same day a
    century later is a different token with the same normal form. *)
Theorem century_is_lost (day month year : Z) :
  valid_date year month day = true -> valid_date (year + 100) month day = true ->
  ddmmyyyy day month year <> ddmmyyyy day month (year + 100) /\
  convert_date (PStr (ddmmyyyy day month year)) =
    convert_date (PStr (ddmmyyyy day month (year + 100))).
Proof.
  intros Hv Hv'.
  pose proof (valid_date_bounds _ _ _ Hv) as (Hy & Hm & Hd).
  pose proof (valid_date_bounds _ _ _ Hv') as (Hy' & _ & _).
  split.
  - unfold ddmmyyyy. intros H.
    do 4 apply append_inj_l in H.
    apply (f_equal py_int) in H. rewrite !py_int_year in H by lia.
    injection H. lia.
  - unfold convert_date. rewrite !strptime_dmy_exact by lia. rewrite Hv, Hv'.
    unfold strftime_dmy. cbn [dt_day dt_month dt_year].
    replace ((year + 100) mod 100) with (year mod 100)
      by (Z.div_mod_to_equations; lia).
    reflexivity.
Qed.

Lemma century_is_lost_witness :
  "01.02.1930" <> "01.02.2030" /\
  convert_date (PStr "01.02.1930") = convert_date (PStr "01.02.2030").
Proof.
  apply (century_is_lost 1 2 1930); reflexivity.
Defined.

(** ** The merged record and its dump *)

(** The dump is best effort: whatever the file system does with the
    write, the caller gets the same response. *)
Theorem dump_failure_not_fatal (caps : Capabilities)
    (write : trace -> string -> list (list pyval) -> outcome unit)
    (request : Request) (tr : trace) :
  fst (id_detector (with_csv_write caps write) request tr) =
  fst (id_detector caps request tr).
Proof.
  pose proof (id_detector_cases caps request tr) as H1.
  pose proof (id_detector_cases (with_csv_write caps write) request tr) as H2.
  change (extract (with_csv_write caps write) request tr)
    with (extract caps request tr) in H2.
  destruct (extract caps request tr)
    as [[[early|[[[[[ud ur] cf] ld] lr] cb]]|exc] tr1].
  - now rewrite H1, H2.
  - destruct (validate_cnic cf cb); now rewrite H1, H2.
  - now rewrite H1, H2.
Qed.

Lemma dict_set_fresh (k : string) (v : pyval) (d : dict) :
  k ∉ map fst d -> dict_set k v d = d ++ [(k, v)].
Proof.
  induction d as [|[k' v'] d IH]; [reflexivity|].
  cbn [map fst]. intros [Hne Hk]%not_elem_of_cons. cbn [dict_set].
  destruct (String.eqb_spec k' k) as [->|_]; [congruence|].
  now rewrite IH.
Qed.

Lemma dict_update_fresh (d : dict) (items : list (string * pyval)) :
  NoDup (map fst (d ++ items)) -> dict_update d items = d ++ items.
Proof.
  revert d. induction items as [|[k v] items IH]; intros d Hnd.
  - now rewrite app_nil_r.
  - unfold dict_update in *. cbn [fold_left fst snd].
    assert (Hk : k ∉ map fst d).
    { rewrite map_app in Hnd. apply NoDup_app in Hnd as (_ & Hdis & _).
      intros Hin. apply (Hdis k Hin). cbn. apply elem_of_cons. now left. }
    rewrite (dict_set_fresh k v d Hk).
    replace (d ++ (k, v) :: items) with ((d ++ [(k, v)]) ++ items) in *
      by (now rewrite <- app_assoc).
    now apply IH.
Qed.

Lemma dict_get_app_fresh (k : string) (v : pyval) (p q : dict) :
  k ∉ map fst p -> dict_get k (p ++ (k, v) :: q) = Some v.
Proof.
  induction p as [|[k' v'] p IH]; cbn [app dict_get map fst].
  - intros _. now rewrite String.eqb_refl.
  - intros [Hne Hk]%not_elem_of_cons.
    destruct (String.eqb_spec k' k) as [->|_]; [congruence | now apply IH].
Qed.

Lemma dict_set_app_fresh (k : string) (v v' : pyval) (p q : dict) :
  k ∉ map fst p -> dict_set k v' (p ++ (k, v) :: q) = p ++ (k, v') :: q.
Proof.
  induction p as [|[k' w] p IH]; cbn [app dict_set map fst].
  - intros _. now rewrite String.eqb_refl.
  - intros [Hne Hk]%not_elem_of_cons.
    destruct (String.eqb_spec k' k) as [->|_]; [congruence | now rewrite IH].
Qed.

Lemma sanitize_loop_order (p q : dict) :
  NoDup (map fst (p ++ q)) ->
  sanitize_loop (map fst q) (map sanitize_entry p ++ q) = map sanitize_entry (p ++ q).
Proof.
  revert p. induction q as [|[k v] q IH]; intros p Hnd.
  - now rewrite !app_nil_r.
  - assert (Hk : k ∉ map fst (map sanitize_entry p)).
    { rewrite map_map. cbn [sanitize_entry fst].
      rewrite map_app in Hnd. apply NoDup_app in Hnd as (_ & Hdis & _).
      intros Hin. apply (Hdis k Hin). cbn. apply elem_of_cons. now left. }
    cbn [map fst sanitize_loop].
    rewrite (dict_get_app_fresh k v _ q Hk).
    replace (p ++ (k, v) :: q) with ((p ++ [(k, v)]) ++ q) in *
      by (now rewrite <- app_assoc).
    rewrite <- (IH (p ++ [(k, v)]) Hnd).
    rewrite (map_app sanitize_entry p [(k, v)]), <- app_assoc.
    destruct v as [s|n|]; [now rewrite dict_set_app_fresh | reflexivity..].
Qed.

Lemma merged_record_ordered (upper lower : dict) :
  NoDup (map fst (upper ++ lower)) ->
  merged_record (Some upper) (Some lower) = map sanitize_entry (upper ++ lower).
Proof.
  intros Hnd. unfold merged_record. cbn [or_empty].
  assert (H : dict_update (dict_update [] upper) lower = upper ++ lower).
  { rewrite (dict_update_fresh [] upper).
    - now apply dict_update_fresh.
    - cbn [app]. rewrite map_app in Hnd. now apply NoDup_app in Hnd as (Hu & _). }
  cbv zeta. rewrite H.
  exact (sanitize_loop_order [] (upper ++ lower) Hnd).
Qed.

(** With distinct field names, the merged record lists the upper fields
    and then the lower fields, each in its order and each sanitized; the
    rows of the dump follow this order. *)
Theorem merged_keeps_order (upper lower : dict) :
  NoDup (map fst (upper ++ lower)) ->
  merged_record (Some upper) (Some lower) = map sanitize_entry (upper ++ lower) /\
  csv_rows (merged_record (Some upper) (Some lower)) =
    [PStr "key"; PStr "value"] ::
    map (fun kv => [PStr (fst kv); sanitize (snd kv)]) (upper ++ lower).
Proof.
  intros Hnd. rewrite (merged_record_ordered upper lower Hnd).
  split; [reflexivity|]. unfold csv_rows. now rewrite map_map.
Qed.

Lemma merged_keeps_order_witness :
  merged_record (Some [("Name", PStr "A.li"); ("Guardian Name", PStr "Ahmed")])
                (Some [("Id Card Number", PStr "1.2"); ("Date Of Birth", PInt 7)]) =
    [("Name", PStr "Ali"); ("Guardian Name", PStr "Ahmed");
     ("Id Card Number", PStr "12"); ("Date Of Birth", PInt 7)].
Proof.
  apply (merged_keeps_order [("Name", PStr "A.li"); ("Guardian Name", PStr "Ahmed")]
           [("Id Card Number", PStr "1.2"); ("Date Of Birth", PInt 7)]).
  refine (bool_decide_unpack _ _). vm_compute. exact I.
Defined.

Lemma str_remove_idem (c : ascii) (s : string) :
  str_remove c (str_remove c s) = str_remove c s.
Proof.
  induction s as [|a s IH]; [reflexivity|]. cbn [str_remove].
  destruct (Ascii.eqb a c) eqn:E; [exact IH|].
  cbn [str_remove]. now rewrite E, IH.
Qed.

Lemma sanitize_idem (v : pyval) : sanitize (sanitize v) = sanitize v.
Proof. destruct v; cbn [sanitize]; [now rewrite str_remove_idem | reflexivity..]. Qed.

Lemma dict_get_In (k : string) (v : pyval) (d : dict) :
  NoDup (map fst d) -> In (k, v) d -> dict_get k d = Some v.
Proof.
  induction d as [|[k' v'] d IH]; [contradiction|].
  cbn [map fst]. intros [Hk Hd]%NoDup_cons [[= -> ->]|Hin]; cbn [dict_get].
  - now rewrite String.eqb_refl.
  - destruct (String.eqb_spec k' k) as [->|_]; [|now apply IH].
    exfalso. apply Hk. apply list_elem_of_In. apply in_map_iff. now exists (k, v).
Qed.

Lemma merged_record_sanitized (upper lower : option dict) (k : string) (v : pyval) :
  In (k, v) (merged_record upper lower) -> sanitize v = v.
Proof.
  intros Hin.
  pose proof (merged_map (or_empty upper) (or_empty lower)) as Hmap.
  pose proof (merged_NoDup (or_empty upper) (or_empty lower)) as Hnd.
  cbv zeta in Hmap, Hnd. fold (merged_record upper lower) in Hmap, Hnd.
  apply (dict_get_In k v _ Hnd) in Hin.
  rewrite <- (dict_to_map_get k _ Hnd), Hmap, lookup_fmap in Hin.
  destruct (_ !! k) as [v0|]; [|discriminate].
  injection Hin as <-. apply sanitize_idem.
Qed.

(** Merging a merged record again, with nothing beside it, gives it
    back: same fields, same order, same values. *)
Theorem remerge_is_identity (upper lower : option dict) :
  merged_record (Some (merged_record upper lower)) None = merged_record upper lower /\
  merged_record None (Some (merged_record upper lower)) = merged_record upper lower.
Proof.
  pose proof (merged_NoDup (or_empty upper) (or_empty lower)) as Hnd.
  cbv zeta in Hnd. fold (merged_record upper lower) in Hnd.
  assert (Hfix : map sanitize_entry (merged_record upper lower) = merged_record upper lower).
  { rewrite <- (map_id (merged_record upper lower)) at 2.
    apply map_ext_in. intros [k v] Hin. unfold sanitize_entry. cbn [fst snd].
    now rewrite (merged_record_sanitized upper lower k v Hin). }
  split.
  - change (merged_record (Some (merged_record upper lower)) None)
      with (merged_record (Some (merged_record upper lower)) (Some [])).
    rewrite merged_record_ordered by (now rewrite app_nil_r).
    now rewrite app_nil_r.
  - change (merged_record None (Some (merged_record upper lower)))
      with (merged_record (Some []) (Some (merged_record upper lower))).
    now rewrite merged_record_ordered.
Qed.

(** ** Geometry of the regions *)

(** The two windows of an anchor cover the same columns, a strip of at
    most 395 pixels left of the anchor that starts at a non-negative
    column; the lower window is [h + 25] rows high and the upper window
    starts at a non-negative row. *)
Theorem window_geometry (x y w h : Z) :
  w_left (upper_window (x, y, w, h)) = w_left (lower_window (x, y, w, h)) /\
  w_right (upper_window (x, y, w, h)) = w_right (lower_window (x, y, w, h)) /\
  0 <= w_left (lower_window (x, y, w, h)) <= w_right (lower_window (x, y, w, h)) /\
  w_right (lower_window (x, y, w, h)) - w_left (lower_window (x, y, w, h)) <= 395 /\
  w_bottom (lower_window (x, y, w, h)) - w_top (lower_window (x, y, w, h)) = h + 25 /\
  0 <= w_top (upper_window (x, y, w, h)).
Proof. cbn. lia. Qed.

Lemma py_slice_length {A : Type} (l : list A) (a b : Z) :
  0 <= a -> 0 <= b ->
  (length (py_slice l a b) <= Z.to_nat (b - a))%nat /\
  (length (py_slice l a b) <= length l)%nat.
Proof.
  intros Ha Hb. unfold py_slice, slice_bound.
  replace (a <? 0) with false by (symmetry; apply Z.ltb_ge; lia).
  replace (b <? 0) with false by (symmetry; apply Z.ltb_ge; lia).
  rewrite length_take, length_drop. lia.
Qed.

(** The region that the lower stage reads is never larger than its
    window: at most [h + 25] rows, none wider than 395 pixels, and no
    more rows than the image has. *)
Theorem lower_region_bounds (image : Image) (x y w h : Z) :
  0 <= y + 110 -> 0 <= h + 25 ->
  Z.of_nat (img_height (crop image (lower_window (x, y, w, h)))) <= h + 25 /\
  (img_height (crop image (lower_window (x, y, w, h))) <= img_height image)%nat /\
  Forall (fun n => Z.of_nat n <= 395)
    (img_row_widths (crop image (lower_window (x, y, w, h)))).
Proof.
  intros Hy Hh.
  assert (Hrows : forall (A : Type) (rows : list (list A)),
    (length (py_slice rows (y + 110) (y + h + 135)) <= Z.to_nat (h + 25))%nat /\
    (length (py_slice rows (y + 110) (y + h + 135)) <= length rows)%nat).
  { intros A rows. destruct (py_slice_length rows (y + 110) (y + h + 135)) as [H1 H2];
      [lia..|]. split; [|exact H2]. replace (h + 25) with (y + h + 135 - (y + 110)) by lia.
    exact H1. }
  assert (Hcols : forall (A : Type) (r : list A),
    Z.of_nat (length (py_slice r (Z.max 0 (x - 410)) (Z.max 0 (x - 15)))) <= 395).
  { intros A r. destruct (py_slice_length r (Z.max 0 (x - 410)) (Z.max 0 (x - 15)))
      as [H1 _]; lia. }
  destruct image as [rows|rows];
    cbn [crop lower_window img_height img_row_widths w_top w_bottom w_left w_right];
    rewrite length_map, map_map;
    (split; [pose proof (proj1 (Hrows _ rows)); lia|]);
    (split; [exact (proj2 (Hrows _ rows))|]);
    apply Forall_forall; intros n [r [-> _]]%list_elem_of_fmap; apply Hcols.
Qed.

Lemma lower_region_bounds_witness :
  Z.of_nat (img_height (crop demo_image (lower_window demo_face))) <= 65.
Proof.
  apply (lower_region_bounds demo_image 20 0 40 40); lia.
Defined.

(** ** The model loader *)

Section LoaderFacts.

Context {threshold YOLOv8 Reader : Type}.
Context (MODEL_PATH : string)
        (new_YOLOv8 : string -> threshold -> threshold -> outcome YOLOv8)
        (new_Reader : list string -> bool -> outcome Reader).

#[local] Abbreviation get_yolo :=
  (ModelLoader.get_yolo_model (Reader := Reader) MODEL_PATH new_YOLOv8).
#[local] Abbreviation get_reader :=
  (ModelLoader.get_ocr_reader (threshold := threshold) (YOLOv8 := YOLOv8) new_Reader).
#[local] Abbreviation calls :=
  (ModelLoader.yolo_calls (Reader := Reader) MODEL_PATH new_YOLOv8).

(** Once the detector is loaded, every later call returns that same
    object, whatever thresholds it is given, and constructs nothing; the
    reader slot is untouched. *)
Theorem yolo_model_is_singleton (conf_thres iou_thres : threshold)
    (st st' : ModelLoader.globals) (m : YOLOv8) (evs : list ModelLoader.loader_event) :
  get_yolo conf_thres iou_thres st = (Ok m, st', evs) ->
  ModelLoader._yolo_model st' = Some m /\
  ModelLoader._ocr_reader st' = ModelLoader._ocr_reader st /\
  forall conf_thres' iou_thres', get_yolo conf_thres' iou_thres' st' = (Ok m, st', []).
Proof.
  unfold ModelLoader.get_yolo_model.
  destruct (ModelLoader._yolo_model st) as [m0|] eqn:E.
  - intros [= <- <- _]. rewrite E. now repeat split.
  - destruct (new_YOLOv8 _ _ _) as [m1|e]; [|discriminate].
    intros [= <- <- _]. now repeat split.
Qed.

Lemma calls_loaded (args : list (threshold * threshold)) (st : ModelLoader.globals)
    (m : YOLOv8) :
  ModelLoader._yolo_model st = Some m ->
  calls args st = (map (fun _ => Ok m) args, st).
Proof.
  intros Hst. induction args as [|[c i] args IH]; [reflexivity|].
  cbn [ModelLoader.yolo_calls map]. unfold ModelLoader.get_yolo_model.
  rewrite Hst, IH. reflexivity.
Qed.

(** Over any sequence of calls, from any state of the globals, all the
    calls that return an object return the same one. *)
Theorem yolo_calls_one_model (args : list (threshold * threshold))
    (st : ModelLoader.globals) (m1 m2 : YOLOv8) :
  In (Ok m1) (fst (calls args st)) -> In (Ok m2) (fst (calls args st)) -> m1 = m2.
Proof.
  revert st. induction args as [|[c i] args IH]; intros st; [contradiction|].
  destruct (ModelLoader._yolo_model st) as [m0|] eqn:E.
  - rewrite (calls_loaded _ st m0 E). cbn [fst].
    intros [m [[= <-] _]]%in_map_iff [m' [[= <-] _]]%in_map_iff. reflexivity.
  - cbn [ModelLoader.yolo_calls]. unfold ModelLoader.get_yolo_model. rewrite E.
    destruct (new_YOLOv8 MODEL_PATH c i) as [m|e].
    + rewrite (calls_loaded args (ModelLoader.mkGlobals (Some m) _) m eq_refl). cbn [fst].
      intros H1 H2.
      assert (Hall : forall x, In (Ok x) (Ok m :: map (fun _ => Ok m) args) -> x = m).
      { intros x [[= ->]|[? [[= ->] _]]%in_map_iff]; reflexivity. }
      now rewrite (Hall m1 H1), (Hall m2 H2).
    + destruct (calls args st) as [rs st2] eqn:Ec. cbn [fst].
      intros [[=]|H1] [[=]|H2]. specialize (IH st). rewrite Ec in IH. now apply IH.
Qed.

(** A load that fails is not remembered: the exception reaches the
    caller, the globals are unchanged, and the next call constructs
    again. *)
Theorem failed_load_not_cached (conf_thres iou_thres : threshold)
    (st : ModelLoader.globals) (exc : string) :
  ModelLoader._yolo_model st = None ->
  new_YOLOv8 MODEL_PATH conf_thres iou_thres = Raise exc ->
  get_yolo conf_thres iou_thres st =
    (Raise exc, st,
     [ModelLoader.LogInfo "Loading YOLOv8 model from %s";
      ModelLoader.NewYOLOv8 MODEL_PATH conf_thres iou_thres]) /\
  forall conf_thres' iou_thres',
    In (ModelLoader.NewYOLOv8 MODEL_PATH conf_thres' iou_thres')
       (snd (get_yolo conf_thres' iou_thres' st)).
Proof.
  intros Hst Hnew. unfold ModelLoader.get_yolo_model. rewrite Hst, Hnew.
  split; [reflexivity|]. intros c i.
  destruct (new_YOLOv8 MODEL_PATH c i); cbn; auto.
Qed.

(** The reader is built for English when no language, or an empty list
    of languages, is asked for, and for the languages asked otherwise. *)
Theorem reader_default_language (languages : option (list string)) (gpu : bool)
    (st : ModelLoader.globals) :
  ModelLoader._ocr_reader st = None ->
  snd (get_reader languages gpu st) =
    [ModelLoader.LogInfo "Initialising EasyOCR reader (languages=%s, gpu=%s)";
     ModelLoader.NewReader
       (match languages with
        | Some (l :: ls) => l :: ls
        | _ => ["en"]
        end) gpu].
Proof.
  intros Hst. unfold ModelLoader.get_ocr_reader. rewrite Hst.
  destruct languages as [[|l ls]|]; cbn [ModelLoader.langs_or_en];
    destruct (new_Reader _ gpu); reflexivity.
Qed.

End LoaderFacts.

Lemma yolo_model_is_singleton_witness :
  ModelLoader.get_yolo_model (Reader := unit) "best.onnx"
    (fun path (c i : Z) => Ok (path, c, i)) 900 100
    (ModelLoader.mkGlobals (Some ("best.onnx", 200, 300)) None) =
  (Ok ("best.onnx", 200, 300),
   ModelLoader.mkGlobals (Some ("best.onnx", 200, 300)) None, []).
Proof.
  apply (yolo_model_is_singleton "best.onnx" (fun path (c i : Z) => Ok (path, c, i))
           200 300 (ModelLoader.mkGlobals None None)
           (ModelLoader.mkGlobals (Some ("best.onnx", 200, 300)) None)
           ("best.onnx", 200, 300)
           [ModelLoader.LogInfo "Loading YOLOv8 model from %s";
            ModelLoader.NewYOLOv8 "best.onnx" 200 300]).
  reflexivity.
Defined.

Lemma yolo_calls_one_model_witness : ("best.onnx", 200, 300) = ("best.onnx", 200, 300).
Proof.
  apply (yolo_calls_one_model (Reader := unit) "best.onnx"
           (fun path (c i : Z) => if c <? 0 then Raise "bad threshold" else Ok (path, c, i))
           [(-1, 0); (200, 300); (900, 100)] (ModelLoader.mkGlobals None None)).
  - right. left. reflexivity.
  - right. right. left. reflexivity.
Defined.

Lemma failed_load_not_cached_witness :
  ModelLoader.get_yolo_model (Reader := unit) (YOLOv8 := unit) "missing.onnx"
    (fun _ (_ _ : Z) => Raise "no such file") 200 300 (ModelLoader.mkGlobals None None) =
  (Raise "no such file", ModelLoader.mkGlobals None None,
   [ModelLoader.LogInfo "Loading YOLOv8 model from %s";
    ModelLoader.NewYOLOv8 "missing.onnx" 200 300]).
Proof.
  apply (failed_load_not_cached (Reader := unit) (YOLOv8 := unit) "missing.onnx"
           (fun _ (_ _ : Z) => Raise "no such file") 200 300
           (ModelLoader.mkGlobals None None) "no such file"); reflexivity.
Defined.

Lemma reader_default_language_witness :
  snd (ModelLoader.get_ocr_reader (YOLOv8 := unit) (threshold := Z)
         (fun langs gpu => Ok (langs, gpu)) (Some []) false
         (ModelLoader.mkGlobals None None)) =
    [ModelLoader.LogInfo "Initialising EasyOCR reader (languages=%s, gpu=%s)";
     ModelLoader.NewReader ["en"] false].
Proof.
  apply (reader_default_language (YOLOv8 := unit) (threshold := Z)
           (fun langs gpu => Ok (langs, gpu)) (Some []) false
           (ModelLoader.mkGlobals None None)).
  reflexivity.
Defined.

(** ** Reading an upload *)

(** [read_image_from_stream] gives an image exactly when the stream
    yields some bytes and the codec decodes them; an empty or failing
    stream is not handed to the codec; every failure is logged once. *)
Theorem read_image_from_stream_spec
    (imdecode : list Byte.byte -> outcome (option Image))
    (stream_read : outcome (list Byte.byte)) :
  (forall image,
     fst (ImageUtils.read_image_from_stream imdecode stream_read) = Some image <->
     exists data, stream_read = Ok data /\ data <> [] /\ imdecode data = Ok (Some image)) /\
  ((stream_read = Ok [] \/ exists exc, stream_read = Raise exc) ->
     List.filter ImageUtils.is_imdecode
       (snd (ImageUtils.read_image_from_stream imdecode stream_read)) = []) /\
  (fst (ImageUtils.read_image_from_stream imdecode stream_read) = None ->
     length (List.filter (fun ev => negb (ImageUtils.is_imdecode ev))
               (snd (ImageUtils.read_image_from_stream imdecode stream_read))) = 1%nat).
Proof.
  unfold ImageUtils.read_image_from_stream, ImageUtils.read_body.
  destruct stream_read as [[|b data]|exc].
  - split; [|split]; [|reflexivity..].
    intros image. split; [discriminate|]. intros (data & [= <-] & Hne & _). congruence.
  - destruct (imdecode (b :: data)) as [[image0|]|exc] eqn:E; cbn [fst snd].
    + split; [|split]; [|intros [[=]|[? [=]]] | discriminate].
      intros image. split.
      * intros [= <-]. exists (b :: data). repeat split; [discriminate | exact E].
      * intros (data' & [= <-] & _ & H). congruence.
    + split; [|split]; [|intros [[=]|[? [=]]] | reflexivity].
      intros image. split; [discriminate|].
      intros (data' & [= <-] & _ & H). congruence.
    + split; [|split]; [|intros [[=]|[? [=]]] | reflexivity].
      intros image. split; [discriminate|].
      intros (data' & [= <-] & _ & H). congruence.
  - split; [|split]; [|reflexivity..].
    intros image. split; [discriminate|]. intros (data & [=] & _).
Qed.

Lemma read_image_from_stream_spec_witness :
  fst (ImageUtils.read_image_from_stream (fun _ => Ok (Some demo_image)) (Ok [])) = None /\
  snd (ImageUtils.read_image_from_stream (fun _ => Ok (Some demo_image)) (Ok [])) =
    [ImageUtils.LogWarning "Empty image stream received"].
Proof.
  split; [|reflexivity].
  destruct (fst (ImageUtils.read_image_from_stream (fun _ => Ok (Some demo_image)) (Ok [])))
    as [image|] eqn:E; [|reflexivity].
  apply (proj1 (read_image_from_stream_spec (fun _ => Ok (Some demo_image)) (Ok [])))
    in E as (data & [= <-] & Hne & _).
  now contradiction Hne.
Defined.

(** ** No call is repeated *)

Section AtMost.

Context (P : event -> bool).

Lemma at_most_ret {A : Type} (n : nat) (a : A) : at_most P n (ret a).
Proof. intros tr. exists []. cbn. rewrite app_nil_r. split; [reflexivity | lia]. Qed.

Lemma at_most_raise {A : Type} (n : nat) (e : string) :
  at_most P n (fun tr => (@Raise A e, tr)).
Proof. intros tr. exists []. cbn. rewrite app_nil_r. split; [reflexivity | lia]. Qed.

Lemma at_most_call {A : Type} (n : nat) (ev : event) (answer : trace -> outcome A) :
  ((if P ev then 1 else 0) <= n)%nat -> at_most P n (call ev answer).
Proof.
  intros Hn tr. exists [ev]. split; [reflexivity|].
  cbn [List.filter]. destruct (P ev); cbn [length]; lia.
Qed.

Lemma at_most_log (n : nat) (msg : string) :
  ((if P (EvLog msg) then 1 else 0) <= n)%nat -> at_most P n (log_exception msg).
Proof.
  intros Hn tr. exists [EvLog msg]. split; [reflexivity|].
  cbn [List.filter]. destruct (P (EvLog msg)); cbn [length]; lia.
Qed.

Lemma at_most_bind {A B : Type} (n1 n2 n : nat) (m : M A) (k : A -> M B) :
  (n1 + n2 <= n)%nat -> at_most P n1 m -> (forall a, at_most P n2 (k a)) ->
  at_most P n (bind m k).
Proof.
  intros Hn Hm Hk tr. unfold bind.
  destruct (Hm tr) as (evs & Heq & Hevs).
  destruct (m tr) as [[a|e] tr1]; cbn [snd] in Heq; subst tr1.
  - destruct (Hk a (tr ++ evs)) as (evs' & Heq' & Hevs').
    exists (evs ++ evs'). rewrite Heq', app_assoc. split; [reflexivity|].
    rewrite List.filter_app, length_app. lia.
  - exists evs. split; [reflexivity | lia].
Qed.

Lemma at_most_try {A : Type} (n1 n2 n : nat) (body : M A) (handler : string -> M A) :
  (n1 + n2 <= n)%nat -> at_most P n1 body -> (forall e, at_most P n2 (handler e)) ->
  at_most P n (try_except body handler).
Proof.
  intros Hn Hm Hk tr. unfold try_except.
  destruct (Hm tr) as (evs & Heq & Hevs).
  destruct (body tr) as [[a|e] tr1]; cbn [snd] in Heq; subst tr1.
  - exists evs. split; [reflexivity | lia].
  - destruct (Hk e (tr ++ evs)) as (evs' & Heq' & Hevs').
    exists (evs ++ evs'). rewrite Heq', app_assoc. split; [reflexivity|].
    rewrite List.filter_app, length_app. lia.
Qed.

Lemma at_most_weaken {A : Type} (n n' : nat) (m : M A) :
  at_most P n m -> (n <= n')%nat -> at_most P n' m.
Proof.
  intros Hm Hn tr. destruct (Hm tr) as (evs & Heq & Hevs).
  exists evs. split; [exact Heq | lia].
Qed.

End AtMost.

Create HintDb at_most.

(** Bound the events of a computation: the budget of a sequence is
    split between its two parts, trying every split. *)
Ltac am :=
  cbv zeta;
  lazymatch goal with
  | |- at_most _ _ (ret _) => apply at_most_ret
  | |- at_most _ _ (fun tr => (Raise _, tr)) => apply at_most_raise
  | |- at_most _ _ (call _ _) => apply at_most_call; cbn; lia
  | |- at_most _ _ (log_exception _) => apply at_most_log; cbn; lia
  | |- at_most ?P ?n (bind _ _) =>
      first
        [ solve [apply (at_most_bind P 0 n n); [cbn; lia | am | intros ?; am]]
        | solve [apply (at_most_bind P 1 (n - 1) n); [cbn; lia | am | intros ?; am]]
        | solve [apply (at_most_bind P 2 (n - 2) n); [cbn; lia | am | intros ?; am]]
        | solve [apply (at_most_bind P 3 (n - 3) n); [cbn; lia | am | intros ?; am]]
        | solve [apply (at_most_bind P 4 (n - 4) n); [cbn; lia | am | intros ?; am]] ]
  | |- at_most ?P ?n (try_except _ _) =>
      first
        [ solve [apply (at_most_try P n 0 n); [cbn; lia | am | intros ?; am]]
        | solve [apply (at_most_try P (n - 1) 1 n); [cbn; lia | am | intros ?; am]] ]
  | |- at_most _ _ (match ?x with _ => _ end) => destruct x; am
  | |- _ => solve [eapply at_most_weaken; [solve [eauto with at_most] | cbn; lia]]
  end.

Lemma to_grayscale_calls (caps : Capabilities) (P : event -> bool) (image : Image) :
  (forall img, P (EvCvtColor img) = false) -> at_most P 0 (to_grayscale caps image).
Proof.
  intros HP. unfold to_grayscale. destruct image; [apply at_most_ret|].
  apply at_most_call. rewrite HP. lia.
Qed.

Lemma detect_card_regions_yolo (caps : Capabilities) (front_gray back_image : Image) :
  at_most is_yolo 2 (detect_card_regions caps front_gray back_image).
Proof. unfold detect_card_regions, get_yolo_model, yolo, draw_detections. am. Qed.

#[local] Hint Resolve detect_card_regions_yolo : at_most.
#[local] Hint Extern 1 (at_most _ _ (to_grayscale _ _)) =>
  apply to_grayscale_calls; reflexivity : at_most.

Lemma detect_card_regions_other (caps : Capabilities) (P : event -> bool)
    (front_gray back_image : Image) :
  P EvGetYolo = false -> (forall img, P (EvYolo img) = false) ->
  (forall img, P (EvDraw img) = false) ->
  at_most P 0 (detect_card_regions caps front_gray back_image).
Proof.
  intros H1 H2 H3. unfold detect_card_regions, get_yolo_model, yolo, draw_detections.
  repeat (apply (at_most_bind P 0 0 0); [lia | | intros ?]);
    try apply at_most_ret; apply at_most_call; rewrite ?H1, ?H2, ?H3; lia.
Qed.

#[local] Hint Extern 1 (at_most _ _ (detect_card_regions _ _ _)) =>
  apply detect_card_regions_other; reflexivity : at_most.

Lemma ocr_front_upper_calls (caps : Capabilities) (front_image : Image) (faces : list box) :
  at_most is_readtext 1 (ocr_front_upper caps front_image faces) /\
  at_most is_yolo 1 (ocr_front_upper caps front_image faces) /\
  at_most is_qr_decode 0 (ocr_front_upper caps front_image faces) /\
  at_most is_persist 0 (ocr_front_upper caps front_image faces) /\
  at_most is_detect_faces 0 (ocr_front_upper caps front_image faces) /\
  at_most is_read_stream 0 (ocr_front_upper caps front_image faces).
Proof.
  unfold ocr_front_upper, get_yolo_model, get_ocr_reader, yolo, readtext.
  repeat apply conj; am.
Qed.

Lemma ocr_front_lower_calls (caps : Capabilities) (front_gray : Image) (faces : list box) :
  at_most is_readtext 1 (ocr_front_lower caps front_gray faces) /\
  at_most is_yolo 0 (ocr_front_lower caps front_gray faces) /\
  at_most is_qr_decode 0 (ocr_front_lower caps front_gray faces) /\
  at_most is_persist 0 (ocr_front_lower caps front_gray faces) /\
  at_most is_detect_faces 0 (ocr_front_lower caps front_gray faces) /\
  at_most is_read_stream 0 (ocr_front_lower caps front_gray faces).
Proof.
  unfold ocr_front_lower, get_ocr_reader, readtext.
  repeat apply conj; am.
Qed.

Lemma ocr_back_qr_calls (caps : Capabilities) (back_roi : Image) :
  at_most is_readtext 0 (ocr_back_qr caps back_roi) /\
  at_most is_yolo 1 (ocr_back_qr caps back_roi) /\
  at_most is_qr_decode 1 (ocr_back_qr caps back_roi) /\
  at_most is_persist 0 (ocr_back_qr caps back_roi) /\
  at_most is_detect_faces 0 (ocr_back_qr caps back_roi) /\
  at_most is_read_stream 0 (ocr_back_qr caps back_roi).
Proof.
  unfold ocr_back_qr, get_yolo_model, yolo, qr_decode.
  repeat apply conj; am.
Qed.

Lemma merge_card_data_calls (caps : Capabilities) (upper lower : option dict)
    (raw_upper : list string) (raw_lower : list pyval) (csv_path : option string)
    (P : event -> bool) :
  (forall msg, P (EvLog msg) = false) ->
  at_most P 1 (merge_card_data caps upper lower raw_upper raw_lower csv_path).
Proof.
  intros HP tr. rewrite merge_card_data_run. cbn [snd].
  destruct csv_path as [[|c path]|].
  - exists []. rewrite app_nil_r. split; [reflexivity | cbn; lia].
  - destruct (cap_csv_write caps tr _ _).
    + eexists. split; [reflexivity|]. cbn [List.filter].
      destruct (P _); cbn [length]; lia.
    + rewrite <- app_assoc. eexists. split; [reflexivity|].
      cbn [List.filter app]. rewrite HP. destruct (P _); cbn [length]; lia.
  - exists []. rewrite app_nil_r. split; [reflexivity | cbn; lia].
Qed.

#[local] Hint Extern 1 (at_most _ _ (ocr_front_upper _ _ _)) =>
  apply ocr_front_upper_calls : at_most.
#[local] Hint Extern 1 (at_most _ _ (ocr_front_lower _ _ _)) =>
  apply ocr_front_lower_calls : at_most.
#[local] Hint Extern 1 (at_most _ _ (ocr_back_qr _ _)) =>
  apply ocr_back_qr_calls : at_most.
Lemma merge_card_data_other (caps : Capabilities) (upper lower : option dict)
    (raw_upper : list string) (raw_lower : list pyval) (csv_path : option string)
    (P : event -> bool) :
  (forall msg, P (EvLog msg) = false) ->
  (forall path rows, P (EvCsvWrite path rows) = false) ->
  at_most P 0 (merge_card_data caps upper lower raw_upper raw_lower csv_path).
Proof.
  intros HP HP' tr. rewrite merge_card_data_run. cbn [snd].
  destruct csv_path as [[|c path]|].
  - exists []. rewrite app_nil_r. split; [reflexivity | cbn; lia].
  - destruct (cap_csv_write caps tr _ _).
    + eexists. split; [reflexivity|]. cbn [List.filter]. rewrite HP'. cbn; lia.
    + rewrite <- app_assoc. eexists. split; [reflexivity|].
      cbn [List.filter app]. rewrite HP, HP'. cbn; lia.
  - exists []. rewrite app_nil_r. split; [reflexivity | cbn; lia].
Qed.

#[local] Hint Extern 1 (at_most _ _ (merge_card_data _ _ _ _ _ _)) =>
  apply merge_card_data_other; reflexivity : at_most.
#[local] Hint Extern 2 (at_most _ _ (merge_card_data _ _ _ _ _ _)) =>
  apply merge_card_data_calls; reflexivity : at_most.

Lemma extract_calls (caps : Capabilities) (request : Request) :
  at_most is_read_stream 2 (extract caps request) /\
  at_most is_detect_faces 1 (extract caps request) /\
  at_most is_yolo 4 (extract caps request) /\
  at_most is_readtext 2 (extract caps request) /\
  at_most is_qr_decode 1 (extract caps request) /\
  at_most is_persist 0 (extract caps request).
Proof.
  unfold extract, read_image_from_stream.
  repeat apply conj; am.
Qed.

#[local] Hint Extern 1 (at_most _ _ (extract _ _)) => apply extract_calls : at_most.

(** No capability is tried again within a request: each upload is read
    once, faces are detected once, the detector runs at most four times
    (twice over the card regions, once in the upper stage, once in the
    back stage), the reader at most twice (once per region), the barcode
    decoder once and the dump is written at most once. *)
Theorem no_call_repeated (caps : Capabilities) (request : Request) :
  at_most is_read_stream 2 (id_detector caps request) /\
  at_most is_detect_faces 1 (id_detector caps request) /\
  at_most is_yolo 4 (id_detector caps request) /\
  at_most is_readtext 2 (id_detector caps request) /\
  at_most is_qr_decode 1 (id_detector caps request) /\
  at_most is_persist 1 (id_detector caps request).
Proof.
  unfold id_detector.
  repeat apply conj; am.
Qed.

Lemma no_call_repeated_witness :
  (length (List.filter is_readtext
     (snd (id_detector (demo_caps "000000000000123451234567100") demo_request []))) <= 2)%nat.
Proof.
  destruct (proj1 (proj2 (proj2 (proj2
    (no_call_repeated (demo_caps "000000000000123451234567100") demo_request)))) [])
    as (evs & Heq & Hevs).
  rewrite Heq. exact Hevs.
Defined.

(** ** The surviving texts and the cross-validation *)

(** The texts that a stage keeps: each is a raw text outside the
    denylist with its dashes removed, so it contains no dash, and there
    are no more of them than recognized tokens.  The denylist is applied
    to the raw text, before the dashes are removed. *)
Theorem surviving_texts_shape (common : gset string) (result : list token) :
  (length (map snd (filter_tokens common result)) <= length result)%nat /\
  forall t, In t (map snd (filter_tokens common result)) ->
    str_contains "-" t = false /\
    exists det, In det result /\ (tok_text det ∉ common) /\
                t = str_remove "-" (tok_text det).
Proof.
  induction result as [|det rest [IHlen IH]]; cbn [filter_tokens].
  - split; [reflexivity | contradiction].
  - case_bool_decide as Hin; cbn [map snd length In].
    + split; [lia|]. intros t [<-|Ht].
      * split; [apply str_remove_contains|]. exists det. auto.
      * destruct (IH t Ht) as (Hdash & det' & Hdet & Hout & ->).
        split; [exact Hdash|]. exists det'. auto.
    + split; [lia|]. intros t Ht.
      destruct (IH t Ht) as (Hdash & det' & Hdet & Hout & ->).
      split; [exact Hdash|]. exists det'. auto.
Qed.

Lemma surviving_texts_shape_witness :
  str_contains "-" "Pakistan" = false /\
  map snd (filter_tokens _COMMON_LOWER [mkToken [] "Pakistan" 9; mkToken [] "Pakis-tan" 9]) =
    ["Pakistan"].
Proof.
  split; [|vm_compute; reflexivity].
  apply (proj2 (surviving_texts_shape _COMMON_LOWER
                  [mkToken [] "Pakistan" 9; mkToken [] "Pakis-tan" 9]) "Pakistan").
  vm_compute. left. reflexivity.
Defined.

(** The cross-validation does not depend on the order of its
    arguments, and an identifier reconciles with itself exactly when it
    is present. *)
Theorem validate_cnic_symmetric (front_cnic back_cnic : option string) :
  validate_cnic front_cnic back_cnic = validate_cnic back_cnic front_cnic /\
  (validate_cnic front_cnic front_cnic = true <-> front_cnic <> None).
Proof.
  split.
  - destruct front_cnic as [f|], back_cnic as [b|]; cbn [validate_cnic]; try reflexivity.
    apply String.eqb_sym.
  - destruct front_cnic as [f|]; cbn [validate_cnic].
    + rewrite String.eqb_refl. split; [discriminate | reflexivity].
    + split; [discriminate | congruence].
Qed.

Lemma validate_cnic_symmetric_witness :
  validate_cnic (Some "1234512345671") (Some "1234512345671") = true.
Proof.
  apply (proj2 (validate_cnic_symmetric (Some "1234512345671") None)). discriminate.
Defined.
